(** * Association declaration helpers of the ORM (associations/helpers.ts)

    A shallow embedding of the helper functions behind the association
    declaration methods (hasOne, hasMany, belongsTo, belongsToMany):
    option normalisation, the naming-collision and uniqueness checks, the
    foreign-key constraint deriver, the accessor mixin, and the declaration
    orchestrator [defineAssociation].

    JavaScript objects are finite maps from property names to values, the
    models live in a store indexed by references, and the orchestrator runs
    in a state-and-exception monad in which a thrown error keeps every write
    made before it, as in JavaScript. *)

From stdpp Require Import gmap strings list fin_maps pretty.
From Stdlib Require Import ZArith.

#[local] Set Warnings "-register-all".
#[local] Open Scope string_scope.

(* ================================================================== *)
(** ** JavaScript values *)
(* ================================================================== *)

(** The values option objects are made of.  An object is the finite map of
    its own enumerable properties; a property may be present and hold
    [JUndefined], which is what `removeUndefined` is there to clean up. *)
Inductive JsVal : Type :=
| JUndefined
| JNull
| JBool (b : bool)
| JNum (n : Z)
| JStr (s : string)
| JObj (o : gmap string JsVal).

Abbreviation Obj := (gmap string JsVal).

(** `o[k]`: reading a missing property gives `undefined`. *)
Definition get (o : Obj) (k : string) : JsVal := default JUndefined (o !! k).

(** `v?.k` and `v.k` on a value that is an object. *)
Definition prop (v : JsVal) (k : string) : JsVal :=
  match v with
  | JObj o => get o k
  | _ => JUndefined
  end.

(** `k in o` for an object without inherited properties. *)
Definition has_key (o : Obj) (k : string) : bool := bool_decide (is_Some (o !! k)).

(** JavaScript truthiness, as used by `if (v)`, `!v` and `a || b`. *)
Definition truthy (v : JsVal) : bool :=
  match v with
  | JUndefined | JNull => false
  | JBool b => b
  | JNum n => negb (n =? 0)%Z
  | JStr s => negb (String.eqb s "")
  | JObj _ => true
  end.

(** `a || b` *)
Definition js_or (a b : JsVal) : JsVal := if truthy a then a else b.

Definition is_undefined (v : JsVal) : bool :=
  match v with JUndefined => true | _ => false end.

Definition nullish (v : JsVal) : bool :=
  match v with JUndefined | JNull => true | _ => false end.

(** `a ?? b` *)
Definition coalesce (a b : JsVal) : JsVal := if nullish a then b else a.

(** `v !== false` *)
Definition is_not_false (v : JsVal) : bool :=
  match v with JBool false => false | _ => true end.

(** `typeof v === 'string'` *)
Definition typeof_string (v : JsVal) : bool :=
  match v with JStr _ => true | _ => false end.

(** lodash `isPlainObject`: every [JObj] is a plain object here. *)
Definition isPlainObject (v : JsVal) : bool :=
  match v with JObj _ => true | _ => false end.

(** The string a value becomes when it is used as a property key or
    interpolated in a template (ToString). *)
Definition toPropertyKey (v : JsVal) : string :=
  match v with
  | JUndefined => "undefined"
  | JNull => "null"
  | JBool true => "true"
  | JBool false => "false"
  | JNum n => pretty n
  | JStr s => s
  | JObj _ => "[object Object]"
  end.

(** `{...v}`: the own enumerable properties an object spread copies.
    Spreading `undefined`, `null`, a boolean or a number copies nothing.
    (A string would spread its characters; no caller spreads one.) *)
Definition spread (v : JsVal) : Obj :=
  match v with
  | JObj o => o
  | _ => ∅
  end.

(** lodash `omit(o, key)` *)
Definition omit (o : Obj) (k : string) : Obj := delete k o.

(** lodash `isEqual`: primitives by value, plain objects when they have as
    many own keys and every key of the first is a key of the second with a
    value that is `isEqual` in turn. *)
Fixpoint isEqual (a b : JsVal) : bool :=
  match a, b with
  | JUndefined, JUndefined => true
  | JNull, JNull => true
  | JBool x, JBool y => bool_decide (x = y)
  | JNum x, JNum y => bool_decide (x = y)
  | JStr x, JStr y => bool_decide (x = y)
  | JObj x, JObj y =>
      bool_decide (size x = size y) &&
      map_fold (λ k va acc,
                match y !! k with
                | Some vb => isEqual va vb
                | None => false
                end && acc) true x
  | _, _ => false
  end.

(** Number of constructors of a value; the measure of the induction
    principle for values nested through maps. *)
Fixpoint js_size (v : JsVal) : nat :=
  match v with
  | JObj o => S (map_fold (λ _ v' acc, js_size v' + acc) 0 o)
  | _ => 1
  end.

(** Modelled from the spec: `removeUndefined` of utils/object.js, which is
    not among the sources.  "Output must have all undefined-valued keys
    removed": the keys whose value is `undefined` are dropped, at the top
    level of the object, and every other property is kept. *)
Definition removeUndefined (o : Obj) : Obj :=
  filter (λ kv, is_undefined kv.2 = false) o.

(* ================================================================== *)
(** ** Errors *)
(* ================================================================== *)

(** The class of a thrown error. The helpers throw plain `Error`s and
    `AssociationError`s; `assert` throws an `AssertionError` and reading a
    property of `undefined` a `TypeError`. *)
Inductive ErrorClass := ErrorC | AssociationErrorC | AssertionErrorC | TypeErrorC.

(** `enum IncompatibilityStatus`; `null` is [None] of the option type. *)
Inductive IncompatibilityStatus := DIFFERENT_TYPES | DIFFERENT_TARGETS | DIFFERENT_OPTIONS.

(** The category the long naming-conflict message explains. *)
Inductive Reason := TypesDiffer | TargetsDiffer | OptionsNotReconcilable.

(** The messages, one constructor per message template of the source, with
    the values the template interpolates. *)
Inductive Message :=
| MsgNamingCollision (associationName modelName : string)
| MsgNotAModel (sourceName typeName : string)
| MsgModelNotDefined (modelName : string)
| MsgSameName (alias sourceName : string)
| MsgIncompatible (parentAs : option string) (typeName alias sourceName targetName : string)
                  (existingType : string) (existingRoot : nat) (why : Reason)
| MsgDefinitionFailed (parentAs : option string) (typeName alias sourceName targetName : string)
| MsgOnDeleteOnUpdateMoved
| MsgConstraintsRenamed
| MsgForeignKeyConstraintRenamed
| MsgAssertion
| MsgUndefinedProperty (property : string)
| MsgOther (text : string).

Inductive JsError := mkError (cls : ErrorClass) (msg : Message) (cause : option JsError).

(** How a call ends: with a value, or with a thrown error. *)
Inductive Completion (A : Type) :=
| Normal (a : A)
| Throw (e : JsError).
Arguments Normal {A} a.
Arguments Throw {A} e.

(* ================================================================== *)
(** ** Models, associations and the store *)
(* ================================================================== *)

Definition ModelRef := nat.

(** An association class (`Class<Association>`): its `name` and the static
    `isMultiAssociation` flag. *)
Record AssociationStatic := {
  type_name : string;
  isMultiAssociation : bool;
}.

(** An association object. [assoc_id] is the identity of the object: two
    records denote the same instance exactly when their ids agree.
    `rootAssociation` and `parentAssociation` refer to associations by
    identity. *)
Record Association := {
  assoc_id : nat;
  associationType : string;
  assoc_source : ModelRef;
  assoc_target : ModelRef;
  assoc_as : string;
  assoc_options : Obj;
  parentAssociation : option nat;
  rootAssociation : nat;
  accessors : gmap string string;
}.

(** What the helpers read of a model class. *)
Record ModelObj := {
  model_name : string;
  model_sequelize : option nat;            (* `model.sequelize` *)
  model_attributes : gmap string JsVal;      (* `getAttributes()` *)
  model_primaryKeys : list string;         (* `Object.keys(primaryKeys)`, in order *)
  model_tableName : JsVal;                 (* `getTableName()` *)
  model_options_name : JsVal;              (* `options.name` *)
  model_associations : gmap string Association;  (* `associations` *)
}.

#[export] Instance ModelObj_inhabited : Inhabited ModelObj :=
  populate {| model_name := ""; model_sequelize := None; model_attributes := ∅;
              model_primaryKeys := []; model_tableName := JUndefined;
              model_options_name := JUndefined; model_associations := ∅ |}.

(** The store of model classes. *)
Abbreviation World := (gmap ModelRef ModelObj).

(** The names of the two hooks the orchestrator runs. *)
Inductive HookName := beforeAssociate | afterAssociate.

#[export] Instance HookName_eq_dec : EqDecision HookName.
Proof. solve_decision. Defined.

(** The first argument of a hook: `{ source, target, type, sequelize }`,
    and `association` for the after-hook. *)
Record HookContext := {
  ctx_source : ModelRef;
  ctx_target : ModelRef;
  ctx_type : AssociationStatic;
  ctx_association : option Association;
  ctx_sequelize : option nat;
}.

(** `{ source, target, type, sequelize }`, with `association` if given. *)
Definition hook_context (type : AssociationStatic) (source target : ModelRef)
    (sequelize : option nat) (association : option Association) : HookContext :=
  {| ctx_source := source; ctx_target := target; ctx_type := type;
     ctx_association := association; ctx_sequelize := sequelize |}.

(** The collaborators the helpers import from modules that are not among
    the sources: the model predicates of utils/model-utils.js, the hook
    dispatcher `source.hooks.runSync` and the inflection functions of
    utils/string.js. A hook receives the normalized options as a mutable
    object; it returns the object as it left it. *)
Class Collaborators := {
  isModelStatic : World → ModelRef → bool;
  isSameInitialModel : World → ModelRef → ModelRef → bool;
  runSync : ModelRef → HookName → HookContext → Obj → World → Completion Obj * World;
  pluralize : string → string;
  singularize : string → string;
}.

(* ================================================================== *)
(** ** The pure helpers *)
(* ================================================================== *)

Section Helpers.
Context `{Collaborators}.

(** `normalizeForeignKeyOptions(foreignKey)`:
    a string becomes `{ name: foreignKey }`; anything else is spread, `name`
    is set to `foreignKey?.name ?? foreignKey?.fieldName`, `fieldName` to
    `undefined`, and the undefined-valued keys are removed. *)
Definition normalizeForeignKeyOptions (foreignKey : JsVal) : Obj :=
  match foreignKey with
  | JStr s => {[ "name" := JStr s ]}
  | _ =>
      removeUndefined
        (<["fieldName" := JUndefined]>
           (<["name" := coalesce (prop foreignKey "name") (prop foreignKey "fieldName")]>
              (spread foreignKey)))
  end.

(** `normalizeBaseAssociationOptions(associationType, options, source, target)`.
    It reads `target.options.name` and writes nothing. *)
Definition normalizeBaseAssociationOptions (w : World)
    (associationType : AssociationStatic) (options : Obj)
    (source target : ModelRef) : Completion Obj :=
  if has_key options "onDelete" || has_key options "onUpdate" then
    Throw (mkError ErrorC MsgOnDeleteOnUpdateMoved None)
  else if has_key options "constraints" then
    Throw (mkError ErrorC MsgConstraintsRenamed None)
  else if has_key options "foreignKeyConstraint" then
    Throw (mkError ErrorC MsgForeignKeyConstraintRenamed None)
  else
    let isMulti := isMultiAssociation associationType in
    let options_as := get options "as" in
    let name_as : Completion (JsVal * JsVal) :=
      if truthy options_as then
        if isPlainObject options_as then
          Normal (options_as,
                  if isMulti then prop options_as "plural" else prop options_as "singular")
        else
          match options_as with
          | JStr s =>
              Normal (JObj {[ "plural" := JStr (if isMulti then s else pluralize s);
                              "singular" := JStr (if isMulti then singularize s else s) ]},
                      options_as)
          | _ => Throw (mkError AssertionErrorC MsgAssertion None)
          end
      else
        let target_name := model_options_name (w !!! target) in
        if nullish target_name then
          Throw (mkError TypeErrorC
                   (MsgUndefinedProperty (if isMulti then "plural" else "singular")) None)
        else
          Normal (target_name,
                  if isMulti then prop target_name "plural"
                  else prop target_name "singular")
    in
    match name_as with
    | Throw e => Throw e
    | Normal (name, as_) =>
        Normal (removeUndefined
                  (<["name" := name]>
                     (<["as" := as_]>
                        (<["hooks" := coalesce (get options "hooks") (JBool false)]>
                           (<["foreignKey" := JObj (normalizeForeignKeyOptions (get options "foreignKey"))]>
                              options)))))
    end.

(** The primary-key columns of `addForeignKeyConstraints`:
    `Object.keys(source.primaryKeys).map(pk => source.getAttributes()[pk].field || pk)`.
    Reading `.field` of an attribute that does not exist is a `TypeError`. *)
Fixpoint primaryKeyColumns (attributes : gmap string JsVal) (keys : list string)
    : Completion (list JsVal) :=
  match keys with
  | [] => Normal []
  | primaryKeyAttribute :: rest =>
      match attributes !! primaryKeyAttribute with
      | None | Some JUndefined | Some JNull =>
          Throw (mkError TypeErrorC (MsgUndefinedProperty "field") None)
      | Some attribute =>
          match primaryKeyColumns attributes rest with
          | Throw e => Throw e
          | Normal columns =>
              Normal (js_or (prop attribute "field") (JStr primaryKeyAttribute) :: columns)
          end
      end
  end.

(** `primaryKeys.includes(key)` for a string `key`: only a string element
    can be the same value. *)
Definition includes (columns : list JsVal) (key : string) : bool :=
  existsb (λ c, match c with JStr s => String.eqb s key | _ => false end) columns.

(** The default `onDelete` of a column:
    `newAttribute.allowNull !== false ? 'SET NULL' : 'CASCADE'`. *)
Definition default_onDelete (newAttribute : Obj) : JsVal :=
  if is_not_false (get newAttribute "allowNull") then JStr "SET NULL" else JStr "CASCADE".

(** `addForeignKeyConstraints(newAttribute, source, options, key)`; the
    result is `newAttribute` as the call leaves it. *)
Definition addForeignKeyConstraints (w : World) (newAttribute : Obj)
    (source : ModelRef) (options : Obj) (key : string) : Completion Obj :=
  if is_not_false (get options "foreignKeyConstraints") then
    match primaryKeyColumns (model_attributes (w !!! source))
                            (model_primaryKeys (w !!! source)) with
    | Throw e => Throw e
    | Normal primaryKeys =>
        if (List.length primaryKeys =? 1)%nat || negb (includes primaryKeys key) then
          let references :=
            JObj {[ "model" := model_tableName (w !!! source);
                    "key" := js_or (JStr key) (default JUndefined (head primaryKeys)) ]} in
          let a1 := <["references" := references]> newAttribute in
          let a2 := <["onDelete" := coalesce (get a1 "onDelete") (default_onDelete a1)]> a1 in
          Normal (<["onUpdate" := coalesce (get a2 "onUpdate") (JStr "CASCADE")]> a2)
        else Normal newAttribute
    end
  else Normal newAttribute.

(** `getAssociationsIncompatibilityStatus`. *)
Definition getAssociationsIncompatibilityStatus (w : World)
    (existingAssociation : Association) (newAssociationType : AssociationStatic)
    (newTarget : ModelRef) (newOptions : Obj) : option IncompatibilityStatus :=
  if negb (String.eqb (associationType existingAssociation) (type_name newAssociationType)) then
    Some DIFFERENT_TYPES
  else if negb (isSameInitialModel w (assoc_target existingAssociation) newTarget) then
    Some DIFFERENT_TARGETS
  else
    let opts1 := omit (assoc_options existingAssociation) "inverse" in
    let opts2 := omit newOptions "inverse" in
    if negb (isEqual (JObj opts1) (JObj opts2)) then Some DIFFERENT_OPTIONS
    else None.

End Helpers.

(* ================================================================== *)
(** ** The accessor mixin *)
(* ================================================================== *)

(** What a property of a model prototype holds: something defined by
    someone else (a user's method, say), or the function `mixinMethods`
    builds, `value(...params) { return association[realMethod](this, ...params) }`,
    a closure over the association and the method name. *)
Inductive PropertyValue :=
| UserValue (id : nat)
| Forwarder (association : Association) (realMethod : string).

Record PropertyDescriptor := {
  enumerable : bool;
  writable : bool;
  configurable : bool;
  value : PropertyValue;
}.

(** The own properties of a prototype object. *)
Abbreviation Prototype := (gmap string PropertyDescriptor).

Section Mixin.
(** [Value] are the values a method takes and returns, [invoke a m args] is
    the call `a[m](...args)` of a method of the association and
    [call_user id this params] the call of a function defined elsewhere. *)
Context {Value : Type}.
Variable invoke : Association → string → list Value → Value.
Variable call_user : nat → Value → list Value → Value.

(** Calling the function held by a property on the receiver [this]. *)
Definition call_property (d : PropertyDescriptor) (this : Value) (params : list Value) : Value :=
  match value d with
  | UserValue id => call_user id this params
  | Forwarder association realMethod => invoke association realMethod (this :: params)
  end.

(** `association.accessors[method]` as a property key. *)
Definition targetMethodName (association : Association) (method : string) : string :=
  match accessors association !! method with
  | Some n => n
  | None => "undefined"
  end.

(** `aliases?.[method] || method` *)
Definition realMethod_of (aliases : option (gmap string string)) (method : string) : string :=
  match aliases with
  | Some al =>
      match al !! method with
      | Some r => if String.eqb r "" then method else r
      | None => method
      end
  | None => method
  end.

(** The property `mixinMethods` defines for a method. `Object.defineProperty`
    with only `enumerable` and `value` given leaves `writable` and
    `configurable` at `false`. *)
Definition forwarder (association : Association) (aliases : option (gmap string string))
    (method : string) : PropertyDescriptor :=
  {| enumerable := false; writable := false; configurable := false;
     value := Forwarder association (realMethod_of aliases method) |}.

(** One turn of the loop of `mixinMethods`. *)
Definition mixinMethod (association : Association) (aliases : option (gmap string string))
    (mixinTargetPrototype : Prototype) (method : string) : Prototype :=
  let name := targetMethodName association method in
  if bool_decide (is_Some (mixinTargetPrototype !! name)) then mixinTargetPrototype
  else
    <[name := forwarder association aliases method]> mixinTargetPrototype.

(** `mixinMethods(association, mixinTargetPrototype, methods, aliases)`;
    the result is the prototype as the call leaves it. *)
Definition mixinMethods (association : Association) (mixinTargetPrototype : Prototype)
    (methods : list string) (aliases : option (gmap string string)) : Prototype :=
  fold_left (mixinMethod association aliases) methods mixinTargetPrototype.

End Mixin.

(* ================================================================== *)
(** ** The declaration monad *)
(* ================================================================== *)

(** The calls a declaration makes, in the order it makes them. The log is
    ghost state: no code reads it. *)
Inductive Event :=
| EvNormalizeOptions
| EvCheckNamingCollision (associationName : string)
| EvAssertAssociationUnique (alias : string)
| EvRunSync (hook : HookName)
| EvConstruct.

#[export] Instance Event_eq_dec : EqDecision Event.
Proof. solve_decision. Defined.

(** The events that are calls of a hook or of the builder. *)
Definition is_callback (ev : Event) : bool :=
  match ev with
  | EvRunSync _ | EvConstruct => true
  | _ => false
  end.

(** The events that are runs of the collision check. *)
Definition is_check (ev : Event) : bool :=
  match ev with
  | EvCheckNamingCollision _ => true
  | _ => false
  end.

(** The number of collision checks in a log. *)
Definition checks (t : list Event) : nat := List.length (List.filter is_check t).

Definition State : Type := World * list Event.

(** A computation reads and writes the store and either returns or throws;
    the writes made before a throw stay. *)
Definition M (A : Type) : Type := State → Completion A * State.

#[export] Instance M_ret : MRet M := λ A a st, (Normal a, st).
#[export] Instance M_bind : MBind M := λ A B f m st,
  match m st with
  | (Normal a, st') => f a st'
  | (Throw e, st') => (Throw e, st')
  end.

Definition throw {A} (e : JsError) : M A := λ st, (Throw e, st).

(** The store as it is now. *)
Definition world : M World := λ st, (Normal st.1, st).

Definition log (ev : Event) : M unit := λ st, (Normal (), (st.1, (st.2 ++ [ev])%list)).

(** A call of a function given from outside (a callback or a hook): it may
    do anything to the store. *)
Definition call {A} (ev : Event) (f : World → Completion A * World) : M A := λ st,
  let '(r, w') := f st.1 in (r, (w', (st.2 ++ [ev])%list)).

(** `try { m } catch (error) { handler(error) }` *)
Definition try_catch {A} (m : M A) (handler : JsError → M A) : M A := λ st,
  match m st with
  | (Throw e, st') => handler e st'
  | r => r
  end.

(** Running a declaration from a store, with an empty log. *)
Definition run {A} (m : M A) (w : World) : Completion A * State := m (w, []).

(* ================================================================== *)
(** ** The checks and the orchestrator *)
(* ================================================================== *)

Section Orchestrator.
Context `{Collaborators}.

(** The alias of normalized options, `options.as`, as a registry key. *)
Definition alias_of (options : Obj) : string := toPropertyKey (get options "as").

(** The naming-collision error of `checkNamingCollision`. *)
Definition naming_collision (w : World) (source : ModelRef) (alias : string) : JsError :=
  mkError ErrorC (MsgNamingCollision alias (model_name (w !!! source))) None.

(** `checkNamingCollision(source, associationName)` *)
Definition checkNamingCollision (source : ModelRef) (associationName : string) : M unit :=
  log (EvCheckNamingCollision associationName);;
  w ← world;
  if bool_decide (is_Some (model_attributes (w !!! source) !! associationName)) then
    throw (naming_collision w source associationName)
  else mret ().

(** `assertAssociationModelIsDefined(model)` *)
Definition assertAssociationModelIsDefined (model : ModelRef) : M unit :=
  w ← world;
  match model_sequelize (w !!! model) with
  | None => throw (mkError ErrorC (MsgModelNotDefined (model_name (w !!! model))) None)
  | Some _ => mret ()
  end.

(** The category named by the long message of `assertAssociationUnique`. *)
Definition reason_of (status : option IncompatibilityStatus) : Reason :=
  match status with
  | Some DIFFERENT_TYPES => TypesDiffer
  | Some DIFFERENT_TARGETS => TargetsDiffer
  | _ => OptionsNotReconcilable
  end.

(** `assertAssociationUnique(type, source, target, options, parent)` *)
Definition assertAssociationUnique (type : AssociationStatic) (source target : ModelRef)
    (options : Obj) (parent : option Association) : M unit :=
  let as_ := alias_of options in
  log (EvAssertAssociationUnique as_);;
  w ← world;
  match model_associations (w !!! source) !! as_ with
  | None => mret ()
  | Some existingAssociation =>
      let incompatibilityStatus :=
        getAssociationsIncompatibilityStatus w existingAssociation type target options in
      if (bool_decide (is_Some parent)
          || bool_decide (is_Some (parentAssociation existingAssociation)))
         && bool_decide (incompatibilityStatus = None) then mret ()
      else
        let existingRoot := rootAssociation existingAssociation in
        if negb (bool_decide (is_Some parent))
           && bool_decide (existingRoot = assoc_id existingAssociation) then
          throw (mkError AssociationErrorC
                   (MsgSameName as_ (model_name (w !!! source))) None)
        else
          throw (mkError AssociationErrorC
                   (MsgIncompatible (assoc_as <$> parent) (type_name type) as_
                      (model_name (w !!! source)) (model_name (w !!! target))
                      (associationType existingAssociation) existingRoot
                      (reason_of incompatibilityStatus)) None)
  end.

(** Whether `assertAssociationUnique` lets a declaration through: the
    alias is free, or the association there is compatible and the call or
    the association belongs to a composite. *)
Definition reusable (w : World) (type : AssociationStatic) (source target : ModelRef)
    (options : Obj) (parent : option Association) : bool :=
  match model_associations (w !!! source) !! alias_of options with
  | None => true
  | Some existing =>
      (bool_decide (is_Some parent) || bool_decide (is_Some (parentAssociation existing)))
      && bool_decide (getAssociationsIncompatibilityStatus w existing type target options
                      = None)
  end.

(** `source.hooks.runSync(name, context, normalizedOptions)`, run only
    `if (normalizedOptions.hooks)`. *)
Definition runHooks (source : ModelRef) (name : HookName) (context : HookContext)
    (normalizedOptions : Obj) : M Obj :=
  if truthy (get normalizedOptions "hooks") then
    call (EvRunSync name) (runSync source name context normalizedOptions)
  else mret normalizedOptions.

(** The error that wraps a failure of the builder. *)
Definition definition_failed (type : AssociationStatic) (source target : ModelRef)
    (parent : option Association) (w : World) (normalizedOptions : Obj)
    (error : JsError) : JsError :=
  mkError AssociationErrorC
    (MsgDefinitionFailed (assoc_as <$> parent) (type_name type)
       (alias_of normalizedOptions)
       (model_name (w !!! source)) (model_name (w !!! target)))
    (Some error).

(** `defineAssociation(type, source, target, options, parent, normalizeOptions, construct)`.

    The two callbacks may write the store. `construct` receives the
    normalized options object and may change it: it returns the
    association together with the object as it left it, and so do the
    hooks. The getter `sequelize` that is defined on the normalized options
    is not enumerable: no spread, `omit` or `isEqual` sees it, and the
    value it returns is passed to the hooks in their context. *)
Definition defineAssociation (type : AssociationStatic) (source target : ModelRef)
    (options : Obj) (parent : option Association)
    (normalizeOptions : AssociationStatic → Obj → ModelRef → ModelRef →
                        World → Completion Obj * World)
    (construct : Obj → World → Completion (Association * Obj) * World)
    : M Association :=
  w ← world;
  if negb (isModelStatic w target) then
    throw (mkError ErrorC (MsgNotAModel (model_name (w !!! source)) (type_name type)) None)
  else
    assertAssociationModelIsDefined source;;
    assertAssociationModelIsDefined target;;
    normalizedOptions ← call EvNormalizeOptions (normalizeOptions type options source target);
    checkNamingCollision source (alias_of normalizedOptions);;
    assertAssociationUnique type source target normalizedOptions parent;;
    w ← world;
    let sequelize := model_sequelize (w !!! source) in
    normalizedOptions ←
      runHooks source beforeAssociate (hook_context type source target sequelize None)
        normalizedOptions;
    r ← try_catch
          (w ← world;
           match model_associations (w !!! source) !! alias_of normalizedOptions with
           | Some existing => mret (existing, normalizedOptions)
           | None => call EvConstruct (construct normalizedOptions)
           end)
          (λ error,
           w ← world;
           throw (definition_failed type source target parent w normalizedOptions error));
    let '(association, normalizedOptions) := r in
    normalizedOptions ←
      runHooks source afterAssociate
        (hook_context type source target sequelize (Some association))
        normalizedOptions;
    checkNamingCollision source (alias_of normalizedOptions);;
    mret association.

End Orchestrator.

(* ================================================================== *)
(** ** The three parts of a declaration *)
(* ================================================================== *)

(** `defineAssociation` cut in three, for the proofs: the checks, the
    step that builds or reuses, and the end. [defineAssociation_split]
    shows that the three in sequence are the function. *)
Section Parts.
Context `{Collaborators}.
Variables (type : AssociationStatic) (source target : ModelRef).
Variables (options : Obj) (parent : option Association).
Variable normalizeOptions :
  AssociationStatic → Obj → ModelRef → ModelRef → World → Completion Obj * World.
Variable construct : Obj → World → Completion (Association * Obj) * World.

(** The statements of `defineAssociation` up to `assertAssociationUnique`. *)
Definition validation : M Obj :=
  w ← world;
  if negb (isModelStatic w target) then
    throw (mkError ErrorC (MsgNotAModel (model_name (w !!! source)) (type_name type)) None)
  else
    assertAssociationModelIsDefined source;;
    assertAssociationModelIsDefined target;;
    normalizedOptions ← call EvNormalizeOptions (normalizeOptions type options source target);
    checkNamingCollision source (alias_of normalizedOptions);;
    assertAssociationUnique type source target normalizedOptions parent;;
    mret normalizedOptions.

(** The statements after the construction: the after-hook, the second
    collision check and the `return`. [sequelize] is the constant read
    before the hooks. *)
Definition conclusion (sequelize : option nat) (association : Association)
    (normalizedOptions : Obj) : M Association :=
  normalizedOptions ←
    runHooks source afterAssociate
      (hook_context type source target sequelize (Some association))
      normalizedOptions;
  checkNamingCollision source (alias_of normalizedOptions);;
  mret association.

(** The statements from the before-hook to the construction or reuse. *)
Definition construction (normalizedOptions : Obj) : M (option nat * (Association * Obj)) :=
  w ← world;
  let sequelize := model_sequelize (w !!! source) in
  normalizedOptions ←
    runHooks source beforeAssociate (hook_context type source target sequelize None)
      normalizedOptions;
  r ← try_catch
        (w ← world;
         match model_associations (w !!! source) !! alias_of normalizedOptions with
         | Some existing => mret (existing, normalizedOptions)
         | None => call EvConstruct (construct normalizedOptions)
         end)
        (λ error,
         w ← world;
         throw (definition_failed type source target parent w normalizedOptions error));
  mret (sequelize, r).

End Parts.

(** The log of a first half that passed. *)
Definition validated (normalizedOptions : Obj) : list Event :=
  [EvNormalizeOptions;
   EvCheckNamingCollision (alias_of normalizedOptions);
   EvAssertAssociationUnique (alias_of normalizedOptions)].

(* ================================================================== *)
(** ** The classifier as the specification words it *)
(* ================================================================== *)

(** The four rules of the equivalence classifier, "in order (first match
    wins)": a rule applies only when the rules before it do not. Deep
    structural equality of two option records is equality of the two maps. *)
Inductive classify_spec `{Collaborators} (w : World) (existing : Association)
    (newType : AssociationStatic) (newTarget : ModelRef) (newOptions : Obj)
    : option IncompatibilityStatus → Prop :=
| classify_types :
    associationType existing ≠ type_name newType →
    classify_spec w existing newType newTarget newOptions (Some DIFFERENT_TYPES)
| classify_targets :
    associationType existing = type_name newType →
    isSameInitialModel w (assoc_target existing) newTarget = false →
    classify_spec w existing newType newTarget newOptions (Some DIFFERENT_TARGETS)
| classify_options :
    associationType existing = type_name newType →
    isSameInitialModel w (assoc_target existing) newTarget = true →
    delete "inverse" (assoc_options existing) ≠ delete "inverse" newOptions →
    classify_spec w existing newType newTarget newOptions (Some DIFFERENT_OPTIONS)
| classify_none :
    associationType existing = type_name newType →
    isSameInitialModel w (assoc_target existing) newTarget = true →
    delete "inverse" (assoc_options existing) = delete "inverse" newOptions →
    classify_spec w existing newType newTarget newOptions None.

(* ================================================================== *)
(** ** Stores, callbacks and collaborators of the worked examples *)
(* ================================================================== *)

Definition set_associations (f : gmap string Association → gmap string Association)
    (m : ModelObj) : ModelObj :=
  {| model_name := model_name m; model_sequelize := model_sequelize m;
     model_attributes := model_attributes m; model_primaryKeys := model_primaryKeys m;
     model_tableName := model_tableName m; model_options_name := model_options_name m;
     model_associations := f (model_associations m) |}.

Definition set_attributes (f : gmap string JsVal → gmap string JsVal)
    (m : ModelObj) : ModelObj :=
  {| model_name := model_name m; model_sequelize := model_sequelize m;
     model_attributes := f (model_attributes m); model_primaryKeys := model_primaryKeys m;
     model_tableName := model_tableName m; model_options_name := model_options_name m;
     model_associations := model_associations m |}.

(** Modelled from the spec: the type-specific builder handed to
    `defineAssociation` (the association classes are not among the
    sources). It makes the association record of the data model, with
    `rootAssociation` the association itself when there is no parent and
    the root of the parent otherwise, and it stores the record in the
    registry of `source` under the resolved alias: the registration that
    the spec lists as the last step of a declaration and that
    `defineAssociation` itself never performs. [id] is the identity of the
    new object. *)
Definition construct_association (id : nat) (type : AssociationStatic)
    (source target : ModelRef) (parent : option Association)
    (options : Obj) (w : World) : Completion (Association * Obj) * World :=
  let association :=
    {| assoc_id := id; associationType := type_name type;
       assoc_source := source; assoc_target := target;
       assoc_as := alias_of options; assoc_options := options;
       parentAssociation := assoc_id <$> parent;
       rootAssociation := match parent with Some p => rootAssociation p | None => id end;
       accessors := ∅ |} in
  (Normal (association, options),
   <[source := set_associations (insert (alias_of options) association) (w !!! source)]> w).

Module Example.

(** Inflection by the letter s, enough for regular nouns. *)
Definition plural_s (s : string) : string := s ++ "s".

Fixpoint singular_s (s : string) : string :=
  match s with
  | "" => ""
  | String c rest =>
      if String.eqb rest "" then (if String.eqb s "s" then "" else s)
      else String c (singular_s rest)
  end.

(** Models are the references the store knows; a model is its own initial
    model. *)
Definition known_model (w : World) (r : ModelRef) : bool := bool_decide (is_Some (w !! r)).
Definition same_model (w : World) (a b : ModelRef) : bool := bool_decide (a = b).

(** No hook is registered. *)
Definition no_hooks (source : ModelRef) (name : HookName) (context : HookContext)
    (options : Obj) (w : World) : Completion Obj * World := (Normal options, w).

(** A `beforeAssociate` hook that gives the source model an attribute named
    as the alias. *)
Definition attribute_hook (source : ModelRef) (name : HookName) (context : HookContext)
    (options : Obj) (w : World) : Completion Obj * World :=
  match name with
  | beforeAssociate =>
      (Normal options,
       <[source := set_attributes (insert (alias_of options) (JObj ∅)) (w !!! source)]> w)
  | afterAssociate => (Normal options, w)
  end.


Definition quiet : Collaborators :=
  {| isModelStatic := known_model;
     isSameInitialModel := same_model;
     runSync := no_hooks;
     pluralize := plural_s;
     singularize := singular_s |}.

Definition with_attribute_hook : Collaborators :=
  {| isModelStatic := known_model;
     isSameInitialModel := same_model;
     runSync := attribute_hook;
     pluralize := plural_s;
     singularize := singular_s |}.


Definition HasMany : AssociationStatic := {| type_name := "HasMany"; isMultiAssociation := true |}.
Definition BelongsTo : AssociationStatic := {| type_name := "BelongsTo"; isMultiAssociation := false |}.

Definition user : ModelRef := 0.
Definition post : ModelRef := 1.

Definition User : ModelObj :=
  {| model_name := "User"; model_sequelize := Some 0;
     model_attributes := {[ "id" := JObj {[ "primaryKey" := JBool true ]};
                            "email" := JObj ∅ ]};
     model_primaryKeys := ["id"]; model_tableName := JStr "Users";
     model_options_name := JObj {[ "singular" := JStr "user"; "plural" := JStr "users" ]};
     model_associations := ∅ |}.

Definition Post : ModelObj :=
  {| model_name := "Post"; model_sequelize := Some 0;
     model_attributes := {[ "id" := JObj {[ "primaryKey" := JBool true ]} ]};
     model_primaryKeys := ["id"]; model_tableName := JStr "Posts";
     model_options_name := JObj {[ "singular" := JStr "post"; "plural" := JStr "posts" ]};
     model_associations := ∅ |}.

(** A model with a composite primary key. *)
Definition Membership : ModelObj :=
  {| model_name := "Membership"; model_sequelize := Some 0;
     model_attributes := {[ "userId" := JObj {[ "field" := JStr "user_id" ]};
                            "groupId" := JObj ∅ ]};
     model_primaryKeys := ["userId"; "groupId"]; model_tableName := JStr "Memberships";
     model_options_name := JObj {[ "singular" := JStr "membership";
                                   "plural" := JStr "memberships" ]};
     model_associations := ∅ |}.

Definition membership : ModelRef := 2.

Definition store : World := {[ user := User; post := Post; membership := Membership ]}.

(** `normalizeBaseAssociationOptions` as the `normalizeOptions` callback. *)
Definition normalize `{Collaborators} (type : AssociationStatic) (options : Obj)
    (source target : ModelRef) (w : World) : Completion Obj * World :=
  (normalizeBaseAssociationOptions w type options source target, w).

(** A composite association that declares its legs as children. *)
Definition through : Association :=
  {| assoc_id := 7; associationType := "BelongsToMany"; assoc_source := user;
     assoc_target := post; assoc_as := "taggedPosts"; assoc_options := ∅;
     parentAssociation := None; rootAssociation := 7; accessors := ∅ |}.

(** `User.hasMany(Post, { as: 'posts' })`, with its builder. *)
Definition hasMany_posts `{Collaborators} (parent : option Association) : M Association :=
  defineAssociation HasMany user post {[ "as" := JStr "posts" ]} parent
    normalize (construct_association 1 HasMany user post parent).

(** `User.belongsTo(Post, { as: 'posts' })`, with its builder. *)
Definition belongsTo_posts `{Collaborators} (parent : option Association) : M Association :=
  defineAssociation BelongsTo user post {[ "as" := JStr "posts" ]} parent
    normalize (construct_association 2 BelongsTo user post parent).

(** `User.hasMany(Post, { as: 'posts', hooks: true })`, with its builder. *)
Definition hasMany_posts_hooked `{Collaborators} : M Association :=
  defineAssociation HasMany user post {[ "as" := JStr "posts"; "hooks" := JBool true ]} None
    normalize (construct_association 1 HasMany user post None).

(** `User.hasMany(Post, { as: 'email' })`: the alias is an attribute of User. *)
Definition hasMany_email `{Collaborators} : M Association :=
  defineAssociation HasMany user post {[ "as" := JStr "email" ]} None
    normalize (construct_association 1 HasMany user post None).

(** The options of `{ as: 'posts' }` as `normalizeBaseAssociationOptions`
    returns them for a multi-valued association. *)
Definition posts_options : Obj :=
  {[ "as" := JStr "posts"; "foreignKey" := JObj ∅; "hooks" := JBool false;
     "name" := JObj {[ "plural" := JStr "posts"; "singular" := JStr "post" ]} ]}.

(** The options of `{ as: 'posts' }` normalized for a single-valued
    association. *)
Definition posts_options_single : Obj :=
  {[ "as" := JStr "posts"; "foreignKey" := JObj ∅; "hooks" := JBool false;
     "name" := JObj {[ "plural" := JStr "postss"; "singular" := JStr "posts" ]} ]}.

(** The options of `{ as: 'email' }` normalized for a multi-valued
    association. *)
Definition email_options : Obj :=
  {[ "as" := JStr "email"; "foreignKey" := JObj ∅; "hooks" := JBool false;
     "name" := JObj {[ "plural" := JStr "email"; "singular" := JStr "email" ]} ]}.

(** The same with `hooks: true`. *)
Definition posts_options_hooked : Obj := <["hooks" := JBool true]> posts_options.

(** The association the builder of [hasMany_posts] makes. *)
Definition posts_of (parent : option Association) : Association :=
  {| assoc_id := 1; associationType := "HasMany"; assoc_source := user;
     assoc_target := post; assoc_as := "posts"; assoc_options := posts_options;
     parentAssociation := assoc_id <$> parent;
     rootAssociation := match parent with Some p => rootAssociation p | None => 1 end;
     accessors := ∅ |}.

(** The store after a first `User.hasMany(Post, { as: 'posts' })`. *)
Definition after_hasMany_posts (parent : option Association) : World :=
  fst (snd (run (hasMany_posts (H:=quiet) parent) store)).



End Example.

(* ================================================================== *)
(** ** Definitions for the further properties *)
(* ================================================================== *)

Section Names.
Context `{Collaborators}.

(** The name pair and the alias that normalization resolves, when it
    resolves them. *)
Definition resolved_names (w : World) (associationType : AssociationStatic)
    (options : Obj) (target : ModelRef) : JsVal * JsVal :=
  let isMulti := isMultiAssociation associationType in
  let form := if isMulti then "plural" else "singular" in
  match get options "as" with
  | JStr s =>
      if String.eqb s "" then
        (model_options_name (w !!! target), prop (model_options_name (w !!! target)) form)
      else
        (JObj {[ "plural" := JStr (if isMulti then s else pluralize s);
                 "singular" := JStr (if isMulti then singularize s else s) ]},
         JStr s)
  | JObj n => (JObj n, get n form)
  | _ => (model_options_name (w !!! target), prop (model_options_name (w !!! target)) form)
  end.

End Names.

(** A primary key has no column to read when it is not an attribute, or
    is one that holds `null` or `undefined`. *)
Definition unreadable (attributes : gmap string JsVal) (primaryKey : string) : Prop :=
  attributes !! primaryKey = None
  ∨ attributes !! primaryKey = Some JUndefined
  ∨ attributes !! primaryKey = Some JNull.

Module Scenario.
Import Example.

(** A hook that throws when it is run as [failing], and does nothing
    otherwise. *)
Definition throwing_hook (failing : HookName) (source : ModelRef) (name : HookName)
    (context : HookContext) (options : Obj) (w : World) : Completion Obj * World :=
  if bool_decide (name = failing)
  then (Throw (mkError ErrorC (MsgOther "hook failed") None), w)
  else (Normal options, w).

Definition with_throwing_hook (failing : HookName) : Collaborators :=
  {| isModelStatic := known_model;
     isSameInitialModel := same_model;
     runSync := throwing_hook failing;
     pluralize := plural_s;
     singularize := singular_s |}.

(** A builder that fails before it has written anything. *)
Definition failing_builder (options : Obj) (w : World)
    : Completion (Association * Obj) * World :=
  (Throw (mkError ErrorC (MsgOther "builder failed") None), w).

(** `{ as: { plural: 'articles', singular: 'article' } }` *)
Definition articles : Obj := {[ "plural" := JStr "articles"; "singular" := JStr "article" ]}.

(** The association of [posts_of] declared with `inverse: 'author'`. *)
Definition posts_with_inverse : Association :=
  {| assoc_id := 3; associationType := "HasMany"; assoc_source := user;
     assoc_target := post; assoc_as := "posts";
     assoc_options := <["inverse" := JStr "author"]> posts_options;
     parentAssociation := None; rootAssociation := 3; accessors := ∅ |}.

End Scenario.

(* ================================================================== *)
(** ** Operator aliases: dialects/abstract/query-generator/operators.js *)
(* ================================================================== *)

(** A property key: a string, or a symbol, named by its key in the symbol
    registry (`Op.eq` is `Symbol.for('eq')`). *)
Inductive Key := KStr (s : string) | KSym (symbol : string).

#[export] Instance Key_eq_dec : EqDecision Key.
Proof. solve_decision. Defined.

(** What a where-object holds that is not a plain object. *)
Inductive Scalar :=
| SUndefined | SNull | SBool (b : bool) | SNum (n : Z) | SStr (s : string)
| SOther (id : nat).

(** A value of a where-object: a plain object, with its own enumerable
    properties in the order `Object.keys` lists the string ones, or
    anything else. *)
Inductive Where :=
| WLeaf (v : Scalar)
| WObj (entries : list (Key * Where)).

Abbreviation Entries := (list (Key * Where)).

(** `o[k]` on own properties. *)
Fixpoint own (k : Key) (o : Entries) : option Where :=
  match o with
  | [] => None
  | (k', v) :: rest => if decide (k = k') then Some v else own k rest
  end.

(** `o[k] = v` when `k` is not `__proto__`: the property is changed where
    it is, or added at the end. *)
Fixpoint assign (k : Key) (v : Where) (o : Entries) : Entries :=
  match o with
  | [] => [(k, v)]
  | (k', v') :: rest =>
      if decide (k = k') then (k, v) :: rest else (k', v') :: assign k v rest
  end.

(** `o[k] = v` on an object that inherits from `Object.prototype`: an
    assignment to `__proto__` goes to the setter of the prototype and adds
    no own property. *)
Definition set_property (k : Key) (v : Where) (o : Entries) : Entries :=
  if decide (k = KStr "__proto__") then o else assign k v o.

(** A value of the alias object, as `a || prop` and a property access use
    it: falsy, or the property key it converts to. *)
Inductive AliasVal := AliasFalsy | AliasKey (k : Key).

Abbreviation AliasMap := (gmap string AliasVal).

Section Operators.
(** `getOperators` of utils/format.js is not among the sources: it is taken
    as any function from an object to the symbols it calls its operators.
    [inherited prop] is what a truthy property that an object literal
    inherits from `Object.prototype` (`constructor`, `toString`, ...)
    converts to as a key. *)
Variable getOperators : Entries → list string.
Variable inherited : string → option Key.

(** `this.OperatorsAliasMap[prop] || prop` *)
Definition aliased (m : AliasMap) (prop : string) : Key :=
  match m !! prop with
  | Some (AliasKey k) => k
  | Some AliasFalsy => KStr prop
  | None => default (KStr prop) (inherited prop)
  end.

(** `setOperatorsAliases(aliases)`, for `aliases` an object of aliases or a
    falsy value ([None]); the result is the new `this.OperatorsAliasMap`. *)
Definition setOperatorsAliases (aliases : option AliasMap) : option AliasMap :=
  match aliases with
  | None => None
  | Some a => if decide (a = ∅) then None else Some a
  end.

(** The first loop of `_replaceAliases`, one operator. *)
Definition copy_operator (replaced : Entries) (obj : Entries) (op : string) : Entries :=
  set_property (KSym op) (default (WLeaf SUndefined) (own (KSym op) replaced)) obj.

(** The callback of `_.forOwn`, called on the string keys. *)
Definition copy_aliased (m : AliasMap) (obj : Entries) (entry : Key * Where) : Entries :=
  match entry with
  | (KStr prop, item) => set_property (aliased m prop) item obj
  | (KSym _, _) => obj
  end.

(** The body of `_replaceAliases(orig)` for an alias object [m], with
    [replace] standing for `_.isPlainObject(item) ? this._replaceAliases(item)
    : item`. The items are replaced first: the function reads nothing but
    the alias object, so `this._replaceAliases(item)` is the same value
    wherever the loops call it. *)
Definition replaceAliases_with (replace : Where → Where) (m : AliasMap) (orig : Entries)
    : Entries :=
  let replaced := map (λ entry, (entry.1, replace entry.2)) orig in
  let obj := fold_left (copy_operator replaced) (getOperators orig) [] in
  fold_left (copy_aliased m) replaced obj.

(** `this.OperatorsAliasMap`, [None] for `false`; it is `{}` until
    `setOperatorsAliases` is called. *)
Variable OperatorsAliasMap : option AliasMap.

(** `_.isPlainObject(item) ? this._replaceAliases(item) : item` *)
Fixpoint replaceItem (item : Where) : Where :=
  match item with
  | WObj orig =>
      match OperatorsAliasMap with
      | None => item
      | Some m => WObj (replaceAliases_with replaceItem m orig)
      end
  | WLeaf _ => item
  end.

(** `_replaceAliases(orig)` *)
Definition _replaceAliases (orig : Entries) : Entries :=
  match OperatorsAliasMap with
  | None => orig
  | Some m => replaceAliases_with replaceItem m orig
  end.

(** The item that the string keys of an object leave under [k]: that of
    the last key whose alias is [k]. *)
Fixpoint last_aliased (m : AliasMap) (k : Key) (entries : Entries) : option Where :=
  match entries with
  | [] => None
  | (KStr prop, item) :: rest =>
      match last_aliased m k rest with
      | Some later => Some later
      | None => if decide (aliased m prop = k) then Some item else None
      end
  | (KSym _, _) :: rest => last_aliased m k rest
  end.

End Operators.

Module OperatorExample.

(** The symbols of an object that are among a few operators of `Op`. *)
Definition operators_of (o : Entries) : list string :=
  omap (λ entry : Key * Where,
          match entry.1 with
          | KSym s => if bool_decide (s ∈ ["eq"; "gt"; "or"]) then Some s else None
          | KStr _ => None
          end) o.

(** What an object literal inherits: here its `constructor` only. *)
Definition of_Object (prop : string) : option Key :=
  if String.eqb prop "constructor" then Some (KStr "function Object() { [native code] }")
  else None.


(** `{ age: { $gt: 18, [Op.gt]: 21 }, [Symbol.for('mine')]: true }` *)
Definition adults : Entries :=
  [(KStr "age", WObj [(KStr "$gt", WLeaf (SNum 18)); (KSym "gt", WLeaf (SNum 21))]);
   (KSym "mine", WLeaf (SBool true))].

End OperatorExample.

(* ================================================================== *)
(** ** Logs and worked examples of the outcomes of a declaration *)
(* ================================================================== *)

(** The log of a hook that is run `if (normalizedOptions.hooks)`. *)
Definition hook_log (name : HookName) (normalizedOptions : Obj) : list Event :=
  if truthy (get normalizedOptions "hooks") then [EvRunSync name] else [].

Module MixinExample.
Import Example.

(** The association of `User.hasMany(Post, { as: 'posts' })` with three of
    its accessors. *)
Definition posts : Association :=
  {| assoc_id := 1; associationType := "HasMany"; assoc_source := user;
     assoc_target := post; assoc_as := "posts"; assoc_options := posts_options;
     parentAssociation := None; rootAssociation := 1;
     accessors := {[ "get" := "getPosts"; "count" := "countPosts"; "add" := "addPost" ]} |}.

(** A method `addPost` that the user wrote on the model. *)
Definition user_addPost : PropertyDescriptor :=
  {| enumerable := true; writable := true; configurable := true; value := UserValue 5 |}.

Definition prototype : Prototype := {[ "addPost" := user_addPost ]}.

(** `{ count: 'countAll' }` *)
Definition method_aliases : option (gmap string string) := Some {[ "count" := "countAll" ]}.

(** Calls as text. *)
Definition invoke_text (a : Association) (method : string) (args : list string) : string :=
  assoc_as a ++ "." ++ method ++ "(" ++ String.concat ", " args ++ ")".

Definition call_user_text (id : nat) (this : string) (params : list string) : string :=
  "user function".

End MixinExample.

Module Hooked.
Import Example.



(** The store after the `beforeAssociate` hook of [attribute_hook] has run
    for `User.hasMany(Post, { as: 'posts', hooks: true })`. *)
Definition after_attribute_hook : World :=
  snd (attribute_hook user beforeAssociate
         (hook_context HasMany user post (model_sequelize (store !!! user)) None)
         posts_options_hooked store).

(** The association the builder of [hasMany_posts_hooked] makes. *)
Definition posts_hooked : Association :=
  {| assoc_id := 1; associationType := "HasMany"; assoc_source := user;
     assoc_target := post; assoc_as := "posts"; assoc_options := posts_options_hooked;
     parentAssociation := None; rootAssociation := 1; accessors := ∅ |}.

(** The store after that builder has run on [after_attribute_hook]. *)
Definition after_attribute_hook_and_builder : World :=
  snd (construct_association 1 HasMany user post None posts_options_hooked
         after_attribute_hook).

End Hooked.

(* ================================================================== *)
(** ** Values: induction and deep equality *)
(* ================================================================== *)

Lemma js_size_lookup (o : Obj) k v :
  o !! k = Some v → js_size v < js_size (JObj o).
Proof.
  intros Hk. simpl.
  rewrite (map_fold_delete_L _ _ k v o); [lia| |done].
  intros; lia.
Qed.

(** Induction on a value with the hypothesis for every property of an
    object. *)
Lemma JsVal_deep_ind (P : JsVal → Prop) :
  P JUndefined → P JNull → (∀ b, P (JBool b)) → (∀ n, P (JNum n)) →
  (∀ s, P (JStr s)) →
  (∀ o : Obj, map_Forall (λ _, P) o → P (JObj o)) →
  ∀ v, P v.
Proof.
  intros Hu Hn Hb Hz Hs Ho v.
  remember (js_size v) as n eqn:En. revert v En.
  induction (lt_wf n) as [n _ IH]. intros v ->.
  destruct v; auto.
  apply Ho. intros k v Hk. eapply IH; [|reflexivity].
  by eapply js_size_lookup.
Qed.

Lemma map_fold_andb_true {A} (f : string → A → bool) (m : gmap string A) :
  map_fold (λ k a acc, f k a && acc) true m = true ↔
  map_Forall (λ k a, f k a = true) m.
Proof.
  induction m as [|k a m Hk Hfold IH] using map_first_key_ind.
  - rewrite map_fold_empty. split; [intros _; apply map_Forall_empty|done].
  - rewrite map_fold_insert_first_key by done.
    rewrite andb_true_iff, IH, map_Forall_insert by done. done.
Qed.

(** `isEqual` decides equality of values: two objects are deeply equal
    exactly when they are the same map. *)
Lemma isEqual_spec a b : isEqual a b = true ↔ a = b.
Proof.
  revert b.
  induction a as [| |x|x|x|x IH] using JsVal_deep_ind; intros [| |y|y|y|y]; simpl;
    try (split; [done|congruence]); try (split; congruence);
    try (rewrite bool_decide_eq_true; split; congruence).
  rewrite andb_true_iff, bool_decide_eq_true, map_fold_andb_true.
  split.
  - intros [Hsz Hall]. f_equal.
    assert (Hsub : x ⊆ y).
    { apply map_subseteq_spec. intros k v Hk.
      specialize (Hall k v Hk). simpl in Hall.
      destruct (y !! k) as [vb|] eqn:E; [|done].
      apply (IH k v Hk) in Hall. by subst. }
    apply map_subseteq_size_eq; [done|lia].
  - intros [= <-]. split; [done|].
    intros k v Hk. simpl. rewrite Hk. by apply (IH k v Hk).
Qed.

#[global] Arguments isEqual : simpl never.

Lemma lookup_removeUndefined (o : Obj) k :
  removeUndefined o !! k =
  match o !! k with
  | Some JUndefined => None
  | r => r
  end.
Proof.
  unfold removeUndefined.
  destruct (o !! k) as [v|] eqn:Hk.
  - destruct (is_undefined v) eqn:Hu.
    + destruct v; try discriminate.
      apply map_lookup_filter_None. right. intros x Hx. simpl.
      rewrite Hk in Hx. injection Hx as <-. done.
    + transitivity (Some v); [|by destruct v].
      apply map_lookup_filter_Some. done.
  - apply map_lookup_filter_None. by left.
Qed.

(* ================================================================== *)
(** ** The equivalence classifier *)
(* ================================================================== *)

Section Classifier.
Context `{Collaborators}.

Lemma omit_isEqual (o1 o2 : Obj) :
  isEqual (JObj (omit o1 "inverse")) (JObj (omit o2 "inverse")) = true ↔
  delete "inverse" o1 = delete "inverse" o2.
Proof. rewrite isEqual_spec. unfold omit. split; congruence. Qed.

(** C3. The classifier returns the first status that applies, in the
    order types, targets, options, and `null` when none does: its result is
    the one the four rules of the specification give, and no other. It
    reads the existing association only through its type, its target and
    its options, and it returns a status and nothing else: it has no store
    to write to. *)
Theorem classifier_first_match (w : World) (existing : Association)
    (newType : AssociationStatic) (newTarget : ModelRef) (newOptions : Obj) :
  (∀ status,
     getAssociationsIncompatibilityStatus w existing newType newTarget newOptions = status
     ↔ classify_spec w existing newType newTarget newOptions status)
  ∧ (∀ other,
       associationType other = associationType existing →
       assoc_target other = assoc_target existing →
       assoc_options other = assoc_options existing →
       getAssociationsIncompatibilityStatus w other newType newTarget newOptions
       = getAssociationsIncompatibilityStatus w existing newType newTarget newOptions).
Proof.
  split.
  - intros status. unfold getAssociationsIncompatibilityStatus.
    destruct (String.eqb (associationType existing) (type_name newType)) eqn:Ety; simpl.
    + apply String.eqb_eq in Ety.
      destruct (isSameInitialModel w (assoc_target existing) newTarget) eqn:Etg; simpl.
      * destruct (isEqual _ _) eqn:Eop; simpl.
        -- apply omit_isEqual in Eop. split.
           ++ intros <-. by constructor.
           ++ inversion 1; congruence.
        -- assert (delete "inverse" (assoc_options existing) ≠ delete "inverse" newOptions)
             as Hne.
           { intros Heq. apply omit_isEqual in Heq. congruence. }
           split.
           ++ intros <-. by constructor.
           ++ inversion 1; congruence.
      * split.
        -- intros <-. by constructor.
        -- inversion 1; congruence.
    + apply String.eqb_neq in Ety. split.
      * intros <-. by constructor.
      * inversion 1; congruence.
  - intros other Hty Htg Hop. unfold getAssociationsIncompatibilityStatus.
    by rewrite Hty, Htg, Hop.
Qed.

End Classifier.

(* ================================================================== *)
(** ** Foreign-key normalization *)
(* ================================================================== *)

Lemma normalizeForeignKeyOptions_lookup (foreignKey : JsVal) k :
  typeof_string foreignKey = false →
  normalizeForeignKeyOptions foreignKey !! k =
  if bool_decide (k = "fieldName") then None
  else if bool_decide (k = "name") then
    let name := coalesce (prop foreignKey "name") (prop foreignKey "fieldName") in
    if is_undefined name then None else Some name
  else removeUndefined (spread foreignKey) !! k.
Proof.
  intros Hstr.
  assert (normalizeForeignKeyOptions foreignKey =
          removeUndefined
            (<["fieldName" := JUndefined]>
               (<["name" := coalesce (prop foreignKey "name") (prop foreignKey "fieldName")]>
                  (spread foreignKey)))) as ->.
  { by destruct foreignKey. }
  rewrite !lookup_removeUndefined.
  case_bool_decide as Hf.
  - subst k. by rewrite lookup_insert_eq.
  - rewrite lookup_insert_ne by done.
    case_bool_decide as Hn.
    + subst k. rewrite lookup_insert_eq. simpl.
      by destruct (coalesce _ _).
    + by rewrite lookup_insert_ne.
Qed.

(** C7 (as amended). A string normalizes to `{ name: <string> }`; the
    string and the object `{ name: <string> }` normalize to equal values;
    for an object, `fieldName` is dropped from the result, `name` is
    `name ?? fieldName` when that is not `undefined` and is absent
    otherwise, and every other key is kept unless its value is `undefined`.
    So `name` is present exactly for a string and for an input whose `name`
    or `fieldName` yields a value. *)
Theorem normalizeForeignKeyOptions_spec :
  (∀ s, normalizeForeignKeyOptions (JStr s) = {[ "name" := JStr s ]})
  ∧ (∀ s, normalizeForeignKeyOptions (JStr s)
          = normalizeForeignKeyOptions (JObj {[ "name" := JStr s ]}))
  ∧ (∀ o : Obj,
       normalizeForeignKeyOptions (JObj o) !! "fieldName" = None
       ∧ normalizeForeignKeyOptions (JObj o) !! "name"
         = (if is_undefined (coalesce (get o "name") (get o "fieldName")) then None
            else Some (coalesce (get o "name") (get o "fieldName")))
       ∧ ∀ k, k ≠ "name" → k ≠ "fieldName" →
              normalizeForeignKeyOptions (JObj o) !! k = removeUndefined o !! k)
  ∧ (∀ foreignKey,
       is_Some (normalizeForeignKeyOptions foreignKey !! "name")
       ↔ typeof_string foreignKey = true
         ∨ is_undefined (coalesce (prop foreignKey "name") (prop foreignKey "fieldName"))
           = false).
Proof.
  split; [done|]. split; [|split].
  - intros s. apply map_eq. intros k.
    rewrite (normalizeForeignKeyOptions_lookup (JObj _)) by done. simpl.
    repeat case_bool_decide; subst; try done.
  - intros o. repeat split.
    + by rewrite normalizeForeignKeyOptions_lookup.
    + by rewrite normalizeForeignKeyOptions_lookup.
    + intros k Hn Hf. rewrite normalizeForeignKeyOptions_lookup by done.
      by rewrite !bool_decide_eq_false_2.
  - intros foreignKey. destruct (typeof_string foreignKey) eqn:Hs.
    + destruct foreignKey; try discriminate. simpl.
      rewrite lookup_singleton_eq. split; eauto.
    + rewrite normalizeForeignKeyOptions_lookup by done. simpl.
      destruct (is_undefined _); split; intros Hx.
      * by destruct Hx.
      * by destruct Hx.
      * by right.
      * eauto.
Qed.

(** C7, as stated, fails: without a foreign key, and for an object that
    gives neither `name` nor `fieldName`, the normalized options have no
    `name` key. *)
Lemma normalizeForeignKeyOptions_name_absent :
  normalizeForeignKeyOptions JUndefined !! "name" = None
  ∧ normalizeForeignKeyOptions (JObj {[ "onDelete" := JStr "CASCADE" ]}) !! "name" = None
  ∧ normalizeForeignKeyOptions (JObj {[ "onDelete" := JStr "CASCADE" ]})
    = {[ "onDelete" := JStr "CASCADE" ]}.
Proof. repeat split; vm_compute; reflexivity. Qed.

(* ================================================================== *)
(** ** Alias and name-pair resolution *)
(* ================================================================== *)

Section Naming.
Context `{Collaborators}.

(** C6 (as amended). When normalization succeeds and `as` is a non-empty
    string, the string is the registry key; a multi-valued kind keeps the
    string as `name.plural` and takes `singularize(as)` as `name.singular`;
    a single-valued kind keeps the string as `name.singular` and takes
    `pluralize(as)` as `name.plural`. *)
Theorem normalize_string_alias (w : World) (associationType : AssociationStatic)
    (options : Obj) (source target : ModelRef) (s : string) :
  options !! "as" = Some (JStr s) →
  s ≠ "" →
  options !! "onDelete" = None →
  options !! "onUpdate" = None →
  options !! "constraints" = None →
  options !! "foreignKeyConstraint" = None →
  ∃ normalized,
    normalizeBaseAssociationOptions w associationType options source target
    = Normal normalized
    ∧ normalized !! "as" = Some (JStr s)
    ∧ alias_of normalized = s
    ∧ normalized !! "name"
      = Some (JObj {[ "plural" :=
                        JStr (if isMultiAssociation associationType then s
                              else pluralize s);
                      "singular" :=
                        JStr (if isMultiAssociation associationType then singularize s
                              else s) ]}).
Proof.
  intros Has Hne HoD HoU Hc Hf.
  unfold normalizeBaseAssociationOptions, has_key.
  rewrite HoD, HoU, Hc, Hf.
  rewrite !bool_decide_eq_false_2 by (intros [? ?]; discriminate). cbn [orb].
  assert (get options "as" = JStr s) as -> by (unfold get; by rewrite Has).
  assert (truthy (JStr s) = true) as ->.
  { simpl. apply negb_true_iff, String.eqb_neq. done. }
  cbn [isPlainObject].
  eexists. split; [reflexivity|].
  assert (∀ o : Obj, (<["name" := JObj {[ "plural" :=
                        JStr (if isMultiAssociation associationType then s
                              else pluralize s);
                      "singular" :=
                        JStr (if isMultiAssociation associationType then singularize s
                              else s) ]}]> (<["as" := JStr s]> o)) !! "as"
                     = Some (JStr s)) as Hlook.
  { intros o. rewrite lookup_insert_ne by done. apply lookup_insert_eq. }
  repeat split.
  - rewrite lookup_removeUndefined, Hlook. done.
  - unfold alias_of, get. rewrite lookup_removeUndefined, Hlook. done.
  - rewrite lookup_removeUndefined, lookup_insert_eq. done.
Qed.

End Naming.

(** The two cases the specification names: a multi-valued declaration
    with `as: "tags"` and a single-valued one with `as: "owner"`. *)
Lemma normalize_string_alias_witness :
  (∃ normalized,
     normalizeBaseAssociationOptions (H:=Example.quiet) Example.store Example.HasMany
       {[ "as" := JStr "tags" ]} Example.user Example.post = Normal normalized
     ∧ normalized !! "as" = Some (JStr "tags")
     ∧ alias_of normalized = "tags"
     ∧ normalized !! "name"
       = Some (JObj {[ "plural" := JStr "tags";
                       "singular" := JStr (Example.singular_s "tags") ]}))
  ∧ (∃ normalized,
       normalizeBaseAssociationOptions (H:=Example.quiet) Example.store Example.BelongsTo
         {[ "as" := JStr "owner" ]} Example.user Example.post = Normal normalized
       ∧ normalized !! "as" = Some (JStr "owner")
       ∧ alias_of normalized = "owner"
       ∧ normalized !! "name"
         = Some (JObj {[ "plural" := JStr (Example.plural_s "owner");
                         "singular" := JStr "owner" ]})).
Proof.
  split.
  - apply (normalize_string_alias (H:=Example.quiet) Example.store Example.HasMany
             {[ "as" := JStr "tags" ]} Example.user Example.post "tags");
      [reflexivity | discriminate | reflexivity..].
  - apply (normalize_string_alias (H:=Example.quiet) Example.store Example.BelongsTo
             {[ "as" := JStr "owner" ]} Example.user Example.post "owner");
      [reflexivity | discriminate | reflexivity..].
Defined.

(** C6, as stated, fails for a multi-valued kind: `name.plural` is the
    given string, not its pluralization. With `as: "tag"` the plural is
    "tag" while `pluralize("tag")` is "tags". And the empty string is
    falsy: with `as: ""` the registry key is the name of the target. *)
Lemma normalize_multi_plural_not_pluralized :
  (∃ normalized,
     normalizeBaseAssociationOptions (H:=Example.quiet) Example.store Example.HasMany
       {[ "as" := JStr "tag" ]} Example.user Example.post = Normal normalized
     ∧ prop (get normalized "name") "plural" = JStr "tag"
     ∧ pluralize (Collaborators:=Example.quiet) "tag" = "tags")
  ∧ (∃ normalized,
       normalizeBaseAssociationOptions (H:=Example.quiet) Example.store Example.BelongsTo
         {[ "as" := JStr "" ]} Example.user Example.post = Normal normalized
       ∧ get normalized "as" = JStr "post").
Proof. split; eexists; repeat split; vm_compute; reflexivity. Qed.

(* ================================================================== *)
(** ** The constraint deriver *)
(* ================================================================== *)




(* ================================================================== *)
(** ** The accessor mixin never shadows *)
(* ================================================================== *)

Section MixinFacts.
Context {Value : Type}.
Variable invoke : Association → string → list Value → Value.
Variable call_user : nat → Value → list Value → Value.
Variable association : Association.
Variable aliases : option (gmap string string).

Lemma mixinMethod_own (p : Prototype) method name d :
  p !! name = Some d → mixinMethod association aliases p method !! name = Some d.
Proof.
  intros Hd. unfold mixinMethod. case_bool_decide as Hown; [done|].
  rewrite lookup_insert_ne; [done|].
  intros <-. apply Hown. by rewrite Hd.
Qed.

Lemma mixinMethod_other (p : Prototype) method name :
  targetMethodName association method ≠ name →
  mixinMethod association aliases p method !! name = p !! name.
Proof.
  intros Hne. unfold mixinMethod. case_bool_decide; [done|].
  by rewrite lookup_insert_ne.
Qed.

Lemma mixinMethod_fresh (p : Prototype) method :
  p !! targetMethodName association method = None →
  mixinMethod association aliases p method !! targetMethodName association method
  = Some (forwarder association aliases method).
Proof.
  intros Hnone. unfold mixinMethod. rewrite Hnone.
  rewrite bool_decide_eq_false_2 by (intros [? ?]; discriminate).
  apply lookup_insert_eq.
Qed.

Lemma mixinMethods_own methods : ∀ (p : Prototype) name d,
  p !! name = Some d → mixinMethods association p methods aliases !! name = Some d.
Proof.
  induction methods as [|method rest IH]; intros p name d Hd; [done|].
  apply IH. by apply mixinMethod_own.
Qed.

Lemma mixinMethods_other methods name : ∀ p : Prototype,
  Forall (λ method, targetMethodName association method ≠ name) methods →
  mixinMethods association p methods aliases !! name = p !! name.
Proof.
  induction methods as [|method rest IH]; intros p Hall; [done|].
  inversion Hall as [|? ? Hm Hrest]; subst.
  unfold mixinMethods in *. simpl. rewrite IH by done.
  by apply mixinMethod_other.
Qed.

Lemma mixinMethods_first methods name : ∀ p : Prototype,
  p !! name = None →
  Exists (λ method, targetMethodName association method = name) methods →
  ∃ before first after,
    methods = (before ++ first :: after)%list
    ∧ Forall (λ method, targetMethodName association method ≠ name) before
    ∧ targetMethodName association first = name
    ∧ mixinMethods association p methods aliases !! name = Some (forwarder association aliases first).
Proof.
  induction methods as [|method rest IH]; intros p Hnone Hex.
  - inversion Hex.
  - destruct (decide (targetMethodName association method = name)) as [Heq|Hne].
    + exists [], method, rest. repeat split; [constructor|done|].
      unfold mixinMethods. simpl. apply mixinMethods_own.
      subst name. by apply mixinMethod_fresh.
    + destruct (IH (mixinMethod association aliases p method)) as
        (before & first & after & -> & Hbefore & Hfirst & Hfinal).
      * by rewrite mixinMethod_other.
      * inversion Hex; subst; [contradiction|done].
      * exists (method :: before), first, after.
        repeat split; [by constructor|done|done].
Qed.

(** C9. A name the prototype already owns keeps its property through the
    whole call, so a user's method is never shadowed. A listed method whose
    accessor name, `association.accessors[method]`, the prototype does not
    own ends up with that name holding the function made for the first
    listed method with that accessor name: not enumerable, and calling it
    on an instance calls the method of the association that
    `aliases?.[method] || method` names, with the instance as first
    argument and the call's arguments after it. A name that is the
    accessor name of no listed method is left as it was. *)
Theorem mixinMethods_never_shadows (mixinTargetPrototype : Prototype)
    (methods : list string) :
  let name_of (method : string) : string :=
    match accessors association !! method with
    | Some name => name
    | None => "undefined"
    end in
  let real_of (method : string) : string :=
    match aliases with
    | Some al =>
        match al !! method with
        | Some alias => if String.eqb alias "" then method else alias
        | None => method
        end
    | None => method
    end in
  (∀ name d,
     mixinTargetPrototype !! name = Some d →
     mixinMethods association mixinTargetPrototype methods aliases !! name = Some d)
  ∧ (∀ method,
       method ∈ methods →
       mixinTargetPrototype !! name_of method = None →
       ∃ before first after d,
         methods = (before ++ first :: after)%list
         ∧ Forall (λ m, name_of m ≠ name_of method) before
         ∧ name_of first = name_of method
         ∧ mixinMethods association mixinTargetPrototype methods aliases
             !! name_of method = Some d
         ∧ enumerable d = false
         ∧ value d = Forwarder association (real_of first)
         ∧ ∀ this params,
             call_property invoke call_user d this params
             = invoke association (real_of first) (this :: params))
  ∧ (∀ name,
       Forall (λ method, name_of method ≠ name) methods →
       mixinMethods association mixinTargetPrototype methods aliases !! name
       = mixinTargetPrototype !! name).
Proof.
  cbv zeta. split; [|split].
  - intros name d. apply mixinMethods_own.
  - intros method Hin Hnone.
    destruct (mixinMethods_first methods
                (targetMethodName association method) mixinTargetPrototype Hnone)
      as (before & first & after & Hsplit & Hbefore & Hfirst & Hfinal).
    { apply Exists_exists. by exists method. }
    exists before, first, after, (forwarder association aliases first).
    split; [exact Hsplit|]. split; [exact Hbefore|]. split; [exact Hfirst|].
    split; [exact Hfinal|]. repeat split.
  - intros name. apply mixinMethods_other.
Qed.

End MixinFacts.

(** The accessors `get`, `count` and `add` mixed into a prototype that has
    an `addPost` of its own, with `count` forwarded to `countAll`: `addPost`
    stays the user's, `countPosts` calls `countAll` on the association with
    the instance first. *)
Lemma mixinMethods_never_shadows_witness :
  mixinMethods MixinExample.posts MixinExample.prototype ["get"; "count"; "add"]
    MixinExample.method_aliases !! "addPost"
  = Some MixinExample.user_addPost
  ∧ ∃ d,
      mixinMethods MixinExample.posts MixinExample.prototype ["get"; "count"; "add"]
        MixinExample.method_aliases !! "countPosts" = Some d
      ∧ enumerable d = false
      ∧ call_property MixinExample.invoke_text MixinExample.call_user_text d
          "user1" ["{}"]
        = "posts.countAll(user1, {})".
Proof.
  pose proof (mixinMethods_never_shadows MixinExample.invoke_text
                MixinExample.call_user_text MixinExample.posts
                MixinExample.method_aliases MixinExample.prototype
                ["get"; "count"; "add"]) as Hmixin.
  cbv zeta in Hmixin. destruct Hmixin as (Hown & Hfresh & _).
  split.
  - apply Hown. reflexivity.
  - destruct (Hfresh "count") as (before & first & after & d & Hsplit & Hbefore & Hfirst
                                  & Hfinal & Henum & Hvalue & Hcall).
    + apply list_elem_of_further, list_elem_of_here.
    + reflexivity.
    + exists d. split; [exact Hfinal|]. split; [exact Henum|].
      rewrite Hcall.
      assert (first = "count") as ->.
      { destruct before as [|b0 before].
        - by injection Hsplit as <- _.
        - injection Hsplit as <- Hsplit.
          inversion Hbefore as [|? ? Hne Hrest]; subst.
          destruct before as [|b1 before].
          + by injection Hsplit as <- _.
          + injection Hsplit as <- Hsplit.
            inversion Hrest as [|? ? Hne1 _]; subst. by destruct Hne1. }
      reflexivity.
Defined.

(* ================================================================== *)
(** ** Running the checks *)
(* ================================================================== *)

(** Unfolds the monad operations in the goal. *)
Ltac unfold_M :=
  unfold mbind, M_bind, mret, M_ret, log, world, throw, call, try_catch; cbn.

Section Checks.
Context `{Collaborators}.

Lemma bind_run {A B} (m : M A) (f : A → M B) (st : State) :
  (m ≫= f) st =
  match m st with
  | (Normal a, st') => f a st'
  | (Throw e, st') => (Throw e, st')
  end.
Proof. reflexivity. Qed.

Lemma checkNamingCollision_run (source : ModelRef) (alias : string) (w : World) t :
  checkNamingCollision source alias (w, t) =
  (if bool_decide (is_Some (model_attributes (w !!! source) !! alias))
   then Throw (naming_collision w source alias) else Normal (),
   (w, (t ++ [EvCheckNamingCollision alias])%list)).
Proof.
  unfold checkNamingCollision, naming_collision. unfold_M.
  by destruct (bool_decide _).
Qed.

Lemma checkNamingCollision_free (source : ModelRef) (alias : string) (w : World) t :
  model_attributes (w !!! source) !! alias = None →
  checkNamingCollision source alias (w, t)
  = (Normal (), (w, (t ++ [EvCheckNamingCollision alias])%list)).
Proof.
  intros Hfree. rewrite checkNamingCollision_run, Hfree.
  by rewrite bool_decide_eq_false_2 by (intros [? ?]; discriminate).
Qed.

Lemma assertAssociationModelIsDefined_run (model : ModelRef) (w : World) t :
  assertAssociationModelIsDefined model (w, t) =
  (match model_sequelize (w !!! model) with
   | None => Throw (mkError ErrorC (MsgModelNotDefined (model_name (w !!! model))) None)
   | Some _ => Normal ()
   end, (w, t)).
Proof.
  unfold assertAssociationModelIsDefined. unfold_M.
  by destruct (model_sequelize _).
Qed.

(** `assertAssociationUnique` writes nothing, returns when the declaration
    is [reusable] and throws an `AssociationError` when it is not. *)
Lemma assertAssociationUnique_run (type : AssociationStatic) (source target : ModelRef)
    (options : Obj) (parent : option Association) (w : World) t :
  ∃ r,
    assertAssociationUnique type source target options parent (w, t)
    = (r, (w, (t ++ [EvAssertAssociationUnique (alias_of options)])%list))
    ∧ (reusable w type source target options parent = true → r = Normal ())
    ∧ (reusable w type source target options parent = false →
       ∃ msg, r = Throw (mkError AssociationErrorC msg None)).
Proof.
  unfold assertAssociationUnique, reusable. unfold_M.
  destruct (model_associations (w !!! source) !! alias_of options) as [existing|]; cbn.
  - destruct ((bool_decide (is_Some parent)
               || bool_decide (is_Some (parentAssociation existing)))
              && bool_decide (getAssociationsIncompatibilityStatus w existing type
                                target options = None)); cbn.
    + eexists. split; [reflexivity|]. split; [done|discriminate].
    + destruct (negb (bool_decide (is_Some parent))
                && bool_decide (rootAssociation existing = assoc_id existing)); cbn;
        (eexists; split; [reflexivity|]; split; [discriminate|eauto]).
  - eexists. split; [reflexivity|]. split; [done|discriminate].
Qed.

Lemma runHooks_run (source : ModelRef) (name : HookName) (context : HookContext)
    (options : Obj) (w : World) t :
  runHooks source name context options (w, t) =
  if truthy (get options "hooks") then
    ((runSync source name context options w).1,
     ((runSync source name context options w).2, (t ++ [EvRunSync name])%list))
  else (Normal options, (w, t)).
Proof.
  unfold runHooks. destruct (truthy _); [|done].
  unfold_M. by destruct (runSync _ _ _ _ _).
Qed.

End Checks.

(* ================================================================== *)
(** ** The three parts in sequence *)
(* ================================================================== *)

Section Declaration.
Context `{Collaborators}.
Variables (type : AssociationStatic) (source target : ModelRef).
Variables (options : Obj) (parent : option Association).
Variable normalizeOptions :
  AssociationStatic → Obj → ModelRef → ModelRef → World → Completion Obj * World.
Variable construct : Obj → World → Completion (Association * Obj) * World.

Lemma defineAssociation_split (st : State) :
  defineAssociation type source target options parent normalizeOptions construct st
  = (normalizedOptions ← validation type source target options parent normalizeOptions;
     r ← construction type source target parent construct normalizedOptions;
     conclusion type source target r.1 r.2.1 r.2.2) st.
Proof.
  unfold defineAssociation, validation, construction, conclusion.
  destruct st as [w t].
  unfold mbind, M_bind, mret, M_ret, world, throw. cbn [fst snd].
  destruct (negb (isModelStatic w target)); [done|].
  destruct (assertAssociationModelIsDefined source (w, t)) as [[[]|e] st1]; [|done].
  destruct (assertAssociationModelIsDefined target st1) as [[[]|e] st2]; [|done].
  destruct (call EvNormalizeOptions _ st2) as [[opts|e] st3]; [|done].
  destruct (checkNamingCollision source (alias_of opts) st3) as [[[]|e] st4]; [|done].
  destruct (assertAssociationUnique type source target opts parent st4)
    as [[[]|e] st5]; [|done].
  destruct (runHooks source beforeAssociate _ opts st5) as [[opts1|e] st6]; [|done].
  destruct (try_catch _ _ st6) as [[[a opts2]|e] st7]; done.
Qed.

End Declaration.

Section Halves.
Context `{Collaborators}.
Variables (type : AssociationStatic) (source target : ModelRef).
Variables (options : Obj) (parent : option Association).
Variable normalizeOptions :
  AssociationStatic → Obj → ModelRef → ModelRef → World → Completion Obj * World.
Variable construct : Obj → World → Completion (Association * Obj) * World.

Lemma validation_upto_normalize (w : World) t :
  isModelStatic w target = true →
  is_Some (model_sequelize (w !!! source)) →
  is_Some (model_sequelize (w !!! target)) →
  validation type source target options parent normalizeOptions (w, t)
  = (normalizedOptions ←
       call EvNormalizeOptions (normalizeOptions type options source target);
     checkNamingCollision source (alias_of normalizedOptions);;
     assertAssociationUnique type source target normalizedOptions parent;;
     mret normalizedOptions) (w, t).
Proof.
  intros Hm [s1 Hs1] [s2 Hs2]. unfold validation.
  unfold mbind at 1, M_bind at 1, world. cbn [fst snd].
  rewrite Hm. cbn [negb].
  rewrite bind_run, assertAssociationModelIsDefined_run, Hs1.
  rewrite bind_run, assertAssociationModelIsDefined_run, Hs2.
  done.
Qed.

(** The checks let the declaration through. *)
Lemma validation_passes (w wn : World) t normalizedOptions :
  isModelStatic w target = true →
  is_Some (model_sequelize (w !!! source)) →
  is_Some (model_sequelize (w !!! target)) →
  normalizeOptions type options source target w = (Normal normalizedOptions, wn) →
  model_attributes (wn !!! source) !! alias_of normalizedOptions = None →
  reusable wn type source target normalizedOptions parent = true →
  validation type source target options parent normalizeOptions (w, t)
  = (Normal normalizedOptions,
     (wn, (t ++ [EvNormalizeOptions;
                 EvCheckNamingCollision (alias_of normalizedOptions);
                 EvAssertAssociationUnique (alias_of normalizedOptions)])%list)).
Proof.
  intros Hm Hs1 Hs2 Hn Hfree Hre.
  rewrite validation_upto_normalize by done.
  rewrite bind_run. unfold call at 1. cbn [fst snd]. rewrite Hn.
  rewrite bind_run, checkNamingCollision_free by done.
  rewrite bind_run.
  destruct (assertAssociationUnique_run type source target normalizedOptions parent wn
              (t ++ [EvNormalizeOptions] ++
               [EvCheckNamingCollision (alias_of normalizedOptions)])%list)
    as (r & Hrun & Hok & _).
  rewrite <- !app_assoc in *. rewrite Hrun, (Hok Hre).
  cbn. done.
Qed.

(** The alias names an attribute: the first collision check throws. *)
Lemma validation_collides (w wn : World) t normalizedOptions :
  isModelStatic w target = true →
  is_Some (model_sequelize (w !!! source)) →
  is_Some (model_sequelize (w !!! target)) →
  normalizeOptions type options source target w = (Normal normalizedOptions, wn) →
  is_Some (model_attributes (wn !!! source) !! alias_of normalizedOptions) →
  validation type source target options parent normalizeOptions (w, t)
  = (Throw (naming_collision wn source (alias_of normalizedOptions)),
     (wn, (t ++ [EvNormalizeOptions;
                 EvCheckNamingCollision (alias_of normalizedOptions)])%list)).
Proof.
  intros Hm Hs1 Hs2 Hn Hattr.
  rewrite validation_upto_normalize by done.
  rewrite bind_run. unfold call at 1. cbn [fst snd]. rewrite Hn.
  rewrite bind_run, checkNamingCollision_run.
  rewrite bool_decide_eq_true_2 by done.
  rewrite <- app_assoc. done.
Qed.

(** The alias is taken and the declaration is not reusable: the
    uniqueness check throws an `AssociationError`. *)
Lemma validation_conflicts (w wn : World) t normalizedOptions :
  isModelStatic w target = true →
  is_Some (model_sequelize (w !!! source)) →
  is_Some (model_sequelize (w !!! target)) →
  normalizeOptions type options source target w = (Normal normalizedOptions, wn) →
  model_attributes (wn !!! source) !! alias_of normalizedOptions = None →
  reusable wn type source target normalizedOptions parent = false →
  ∃ msg,
    validation type source target options parent normalizeOptions (w, t)
    = (Throw (mkError AssociationErrorC msg None),
       (wn, (t ++ [EvNormalizeOptions;
                   EvCheckNamingCollision (alias_of normalizedOptions);
                   EvAssertAssociationUnique (alias_of normalizedOptions)])%list)).
Proof.
  intros Hm Hs1 Hs2 Hn Hfree Hre.
  rewrite validation_upto_normalize by done.
  rewrite bind_run. unfold call at 1. cbn [fst snd]. rewrite Hn.
  rewrite bind_run, checkNamingCollision_free by done.
  rewrite bind_run.
  destruct (assertAssociationUnique_run type source target normalizedOptions parent wn
              (t ++ [EvNormalizeOptions] ++
               [EvCheckNamingCollision (alias_of normalizedOptions)])%list)
    as (r & Hrun & _ & Hbad).
  destruct (Hbad Hre) as [msg ->].
  rewrite <- !app_assoc in *. rewrite Hrun.
  exists msg. done.
Qed.

(** Every way the first half can end. It calls no hook and no builder; it
    leaves the store as the normalizer left it, or untouched when the
    normalizer was not reached. *)
Lemma validation_outcomes (w : World) r w' t' :
  validation type source target options parent normalizeOptions (w, []) = (r, (w', t')) →
  (∃ e, r = Throw e ∧ w' = w ∧ t' = [])
  ∨ (w' = (normalizeOptions type options source target w).2
     ∧ ((∃ e, r = Throw e ∧ t' = [EvNormalizeOptions])
        ∨ (∃ e alias, r = Throw e
                      ∧ t' = [EvNormalizeOptions; EvCheckNamingCollision alias])
        ∨ (∃ e alias, r = Throw e
                      ∧ t' = [EvNormalizeOptions; EvCheckNamingCollision alias;
                              EvAssertAssociationUnique alias])
        ∨ (∃ normalizedOptions,
             r = Normal normalizedOptions
             ∧ t' = [EvNormalizeOptions;
                     EvCheckNamingCollision (alias_of normalizedOptions);
                     EvAssertAssociationUnique (alias_of normalizedOptions)]))).
Proof.
  intros Hrun.
  destruct (isModelStatic w target) eqn:Hm; cycle 1.
  { left. unfold validation in Hrun. unfold mbind at 1, M_bind at 1, world in Hrun.
    cbn [fst snd] in Hrun. rewrite Hm in Hrun. cbn in Hrun.
    injection Hrun as <- <- <-. eauto. }
  destruct (model_sequelize (w !!! source)) as [s1|] eqn:Hs1; cycle 1.
  { left. unfold validation in Hrun. unfold mbind at 1, M_bind at 1, world in Hrun.
    cbn [fst snd] in Hrun. rewrite Hm in Hrun. cbn [negb] in Hrun.
    rewrite bind_run, assertAssociationModelIsDefined_run, Hs1 in Hrun.
    injection Hrun as <- <- <-. eauto. }
  destruct (model_sequelize (w !!! target)) as [s2|] eqn:Hs2; cycle 1.
  { left. unfold validation in Hrun. unfold mbind at 1, M_bind at 1, world in Hrun.
    cbn [fst snd] in Hrun. rewrite Hm in Hrun. cbn [negb] in Hrun.
    rewrite bind_run, assertAssociationModelIsDefined_run, Hs1 in Hrun.
    rewrite bind_run, assertAssociationModelIsDefined_run, Hs2 in Hrun.
    injection Hrun as <- <- <-. eauto. }
  right.
  destruct (normalizeOptions type options source target w) as [[opts|e] wn] eqn:Hn;
    cycle 1.
  { rewrite validation_upto_normalize in Hrun by (rewrite ?Hs1, ?Hs2; eauto).
    rewrite bind_run in Hrun. unfold call at 1 in Hrun. cbn [fst snd] in Hrun.
    rewrite Hn in Hrun. injection Hrun as <- <- <-. split; [done|]. left. eauto. }
  cbn [snd].
  destruct (model_attributes (wn !!! source) !! alias_of opts) as [attr|] eqn:Hattr.
  { rewrite (validation_collides w wn [] opts) in Hrun
      by (rewrite ?Hs1, ?Hs2, ?Hattr; eauto).
    injection Hrun as <- <- <-. split; [done|]. right. left. eauto. }
  destruct (reusable wn type source target opts parent) eqn:Hre.
  - rewrite (validation_passes w wn [] opts) in Hrun by (rewrite ?Hs1, ?Hs2; eauto).
    injection Hrun as <- <- <-. split; [done|]. do 3 right. eauto.
  - destruct (validation_conflicts w wn [] opts) as [msg Hv];
      try (rewrite ?Hs1, ?Hs2; eauto).
    rewrite Hv in Hrun.
    injection Hrun as <- <- <-. split; [done|]. right. right. left. eauto.
Qed.

End Halves.

Section SecondHalf.
Context `{Collaborators}.
Variables (type : AssociationStatic) (source target : ModelRef).
Variable parent : option Association.
Variable construct : Obj → World → Completion (Association * Obj) * World.

(** The before-hook threw: the declaration stops there. *)
Lemma construction_hook_throws normalizedOptions (w : World) t e st1 :
  runHooks source beforeAssociate (hook_context type source target (model_sequelize (w !!! source)) None)
    normalizedOptions (w, t) = (Throw e, st1) →
  construction type source target parent construct normalizedOptions (w, t)
  = (Throw e, st1).
Proof.
  intros Hhook. unfold construction.
  unfold mbind at 1, M_bind at 1, world. cbn [fst snd].
  rewrite bind_run, Hhook. done.
Qed.

(** The alias is taken when the builder would run: the association there
    is the one the declaration goes on with, and the builder is not
    called. *)
Lemma construction_reuses normalizedOptions (w : World) t options1 w1 t1 existing :
  runHooks source beforeAssociate (hook_context type source target (model_sequelize (w !!! source)) None)
    normalizedOptions (w, t) = (Normal options1, (w1, t1)) →
  model_associations (w1 !!! source) !! alias_of options1 = Some existing →
  construction type source target parent construct normalizedOptions (w, t)
  = (Normal (model_sequelize (w !!! source), (existing, options1)), (w1, t1)).
Proof.
  intros Hhook Hreg. unfold construction.
  unfold mbind at 1, M_bind at 1, world. cbn [fst snd].
  rewrite bind_run, Hhook.
  rewrite bind_run. unfold try_catch.
  unfold mbind at 1, M_bind at 1, world. cbn [fst snd].
  rewrite Hreg. done.
Qed.

(** The alias is free when the builder would run: the builder is called,
    and an error it throws is wrapped in an `AssociationError`. *)
Lemma construction_builds normalizedOptions (w : World) t options1 w1 t1 :
  runHooks source beforeAssociate (hook_context type source target (model_sequelize (w !!! source)) None)
    normalizedOptions (w, t) = (Normal options1, (w1, t1)) →
  model_associations (w1 !!! source) !! alias_of options1 = None →
  construction type source target parent construct normalizedOptions (w, t)
  = match construct options1 w1 with
    | (Normal r, w2) =>
        (Normal (model_sequelize (w !!! source), r), (w2, (t1 ++ [EvConstruct])%list))
    | (Throw error, w2) =>
        (Throw (definition_failed type source target parent w2 options1 error),
         (w2, (t1 ++ [EvConstruct])%list))
    end.
Proof.
  intros Hhook Hreg. unfold construction.
  unfold mbind at 1, M_bind at 1, world. cbn [fst snd].
  rewrite bind_run, Hhook.
  rewrite bind_run. unfold try_catch.
  unfold mbind at 1, M_bind at 1, world. cbn [fst snd].
  rewrite Hreg. unfold call. cbn [fst snd].
  destruct (construct options1 w1) as [[r|error] w2]; done.
Qed.

(** Every way the middle of a declaration can end: all it logs are calls
    of a hook or of the builder, and when it makes no such call it leaves
    the store as it was. *)
Lemma construction_outcomes normalizedOptions (w : World) t r w' t' :
  construction type source target parent construct normalizedOptions (w, t)
  = (r, (w', t')) →
  ∃ mid, t' = (t ++ mid)%list
         ∧ Forall (λ ev, is_callback ev = true) mid
         ∧ (mid = [] → w' = w)
         ∧ (∀ e, r = Throw e → mid ≠ []).
Proof.
  intros Hrun.
  destruct (runHooks source beforeAssociate (hook_context type source target (model_sequelize (w !!! source)) None)
              normalizedOptions (w, t)) as [[options1|e] [w1 t1]] eqn:Hhook.
  - assert (∃ mid, t1 = (t ++ mid)%list ∧ Forall (λ ev, is_callback ev = true) mid
                   ∧ (mid = [] → w1 = w)) as (mid1 & -> & Hmid1 & Hw1).
    { rewrite runHooks_run in Hhook. destruct (truthy _).
      - injection Hhook as _ _ <-. exists [EvRunSync beforeAssociate].
        repeat split; [by repeat constructor|discriminate].
      - injection Hhook as _ <- <-. exists []. by rewrite app_nil_r. }
    destruct (model_associations (w1 !!! source) !! alias_of options1)
      as [existing|] eqn:Hreg.
    + rewrite (construction_reuses _ _ _ _ _ _ _ Hhook Hreg) in Hrun.
      injection Hrun as <- <- <-. exists mid1. repeat split; [done..|discriminate].
    + rewrite (construction_builds _ _ _ _ _ _ Hhook Hreg) in Hrun.
      exists (mid1 ++ [EvConstruct])%list.
      destruct (construct options1 w1) as [[r0|error] w2];
        injection Hrun as <- <- <-; rewrite app_assoc;
        (repeat split;
         [apply Forall_app; split; [done|by repeat constructor]
         |intros Hnil; by destruct mid1
         |intros ? _ Hnil; by destruct mid1]).
  - rewrite (construction_hook_throws _ _ _ _ _ Hhook) in Hrun.
    injection Hrun as <- <- <-.
    rewrite runHooks_run in Hhook. destruct (truthy _); [|discriminate].
    injection Hhook as _ _ <-. exists [EvRunSync beforeAssociate].
    repeat split; [by repeat constructor|discriminate|discriminate].
Qed.

(** Every way the end of a declaration can go: the after-hook throws, or
    the second collision check is run and decides. *)
Lemma conclusion_outcomes sequelize association normalizedOptions (w : World) t r w' t' :
  conclusion type source target sequelize association normalizedOptions (w, t)
  = (r, (w', t')) →
  (∃ e, r = Throw e ∧ t' = (t ++ [EvRunSync afterAssociate])%list)
  ∨ (∃ mid alias,
       t' = (t ++ mid ++ [EvCheckNamingCollision alias])%list
       ∧ (mid = [] ∧ w' = w ∨ mid = [EvRunSync afterAssociate])
       ∧ r = if bool_decide (is_Some (model_attributes (w' !!! source) !! alias))
             then Throw (naming_collision w' source alias)
             else Normal association).
Proof.
  unfold conclusion. rewrite bind_run, runHooks_run.
  destruct (truthy (get normalizedOptions "hooks")).
  - destruct (runSync _ _ _ _ _) as [[options2|e] w2]; cbn [fst snd].
    + rewrite bind_run, checkNamingCollision_run.
      intros Hrun. right. exists [EvRunSync afterAssociate], (alias_of options2).
      destruct (bool_decide _) eqn:Hattr; injection Hrun as <- <- <-;
        rewrite Hattr, <- app_assoc; (split; [done|]; split; [by right|done]).
    + intros Hrun. injection Hrun as <- <- <-. left. eauto.
  - rewrite bind_run, checkNamingCollision_run.
    intros Hrun. right. exists [], (alias_of normalizedOptions).
    destruct (bool_decide _) eqn:Hattr; injection Hrun as <- <- <-;
      rewrite Hattr; (split; [done|]; split; [by left|done]).
Qed.

(** The end of a declaration returns the association it was given, or
    throws; and it does not call the builder. *)
Lemma conclusion_returns sequelize association normalizedOptions (w : World) t r w' t' :
  conclusion type source target sequelize association normalizedOptions (w, t)
  = (r, (w', t')) →
  (∀ a, r = Normal a → a = association) ∧ (EvConstruct ∈ t' → EvConstruct ∈ t).
Proof.
  intros Hrun. apply conclusion_outcomes in Hrun.
  destruct Hrun as [(e & -> & ->)|(mid & alias & -> & Hmid & ->)].
  - split; [discriminate|]. intros Hin.
    apply elem_of_app in Hin as [Hin|Hin]; [done|].
    apply list_elem_of_singleton in Hin. discriminate.
  - split.
    + intros a. destruct (bool_decide _); [discriminate|]. by intros [= <-].
    + intros Hin. apply elem_of_app in Hin as [Hin|Hin]; [done|].
      apply elem_of_app in Hin as [Hin|Hin].
      * destruct Hmid as [[-> _]| ->]; [by apply not_elem_of_nil in Hin|].
        apply list_elem_of_singleton in Hin. discriminate.
      * apply list_elem_of_singleton in Hin. discriminate.
Qed.

End SecondHalf.

(* ================================================================== *)
(** ** Declarations *)
(* ================================================================== *)

Lemma checks_app (t1 t2 : list Event) : checks (t1 ++ t2) = checks t1 + checks t2.
Proof. unfold checks. by rewrite List.filter_app, length_app. Qed.

Lemma checks_callbacks (t : list Event) :
  Forall (λ ev, is_callback ev = true) t → checks t = 0.
Proof.
  induction 1 as [|ev t Hev _ IH]; [done|].
  unfold checks in *. simpl. by destruct ev.
Qed.

Section Declarations.
Context `{Collaborators}.
Variables (type : AssociationStatic) (source target : ModelRef).
Variables (options : Obj) (parent : option Association).
Variable normalizeOptions :
  AssociationStatic → Obj → ModelRef → ModelRef → World → Completion Obj * World.
Variable construct : Obj → World → Completion (Association * Obj) * World.

#[local] Abbreviation declare :=
  (defineAssociation type source target options parent normalizeOptions construct).

Lemma declare_run (w : World) :
  run declare w
  = (normalizedOptions ← validation type source target options parent normalizeOptions;
     r ← construction type source target parent construct normalizedOptions;
     conclusion type source target r.1 r.2.1 r.2.2) (w, []).
Proof. unfold run. apply defineAssociation_split. Qed.

(** Every way a declaration can end. Either it throws in its first half,
    having called no hook and no builder and run at most one collision
    check, and the store is as the normalizer left it (untouched when the
    normalizer was not reached); or it gets through the first half, and then
    it either throws in a hook or in the builder, or it reaches the second
    collision check, which decides. *)
Lemma declaration_outcomes (w : World) r w' t' :
  run declare w = (r, (w', t')) →
  ((∃ e, r = Throw e)
   ∧ Forall (λ ev, is_callback ev = false) t'
   ∧ (checks t' ≤ 1)%nat
   ∧ w' = if bool_decide (EvNormalizeOptions ∈ t')
          then (normalizeOptions type options source target w).2 else w)
  ∨ (∃ alias mid,
       Forall (λ ev, is_callback ev = true) mid
       ∧ (mid = [] → w' = (normalizeOptions type options source target w).2)
       ∧ ((∃ e, r = Throw e ∧ mid ≠ []
                ∧ t' = ([EvNormalizeOptions; EvCheckNamingCollision alias;
                         EvAssertAssociationUnique alias] ++ mid)%list)
          ∨ (∃ alias2 association,
               t' = ([EvNormalizeOptions; EvCheckNamingCollision alias;
                      EvAssertAssociationUnique alias] ++ mid
                     ++ [EvCheckNamingCollision alias2])%list
               ∧ r = if bool_decide
                          (is_Some (model_attributes (w' !!! source) !! alias2))
                     then Throw (naming_collision w' source alias2)
                     else Normal association))).
Proof.
  rewrite declare_run, bind_run.
  destruct (validation _ _ _ _ _ _ (w, [])) as [[opts|e] [wv tv]] eqn:Hv;
    apply validation_outcomes in Hv.
  - destruct Hv as [(e & [=] & _)|[-> Hv]].
    destruct Hv as [(e & [=] & _)|[(e & ? & [=] & _)|[(e & ? & [=] & _)|Hv]]].
    destruct Hv as (opts' & [= <-] & ->).
    rewrite bind_run.
    destruct (construction _ _ _ _ _ _ _) as [[rk|e] [wk tk]] eqn:Hk;
      apply construction_outcomes in Hk as (mid1 & -> & Hmid1 & Hw1 & Hthrow).
    + intros Hc. apply conclusion_outcomes in Hc.
      right. destruct Hc as [(e & -> & ->)|(mid2 & alias2 & -> & Hmid2 & ->)].
      * exists (alias_of opts), (mid1 ++ [EvRunSync afterAssociate])%list.
        split; [apply Forall_app; split; [done|by repeat constructor]|].
        split; [intros Hnil; by destruct mid1|].
        left. exists e. split; [done|]. split; [intros Hnil; by destruct mid1|].
        by rewrite <- !app_assoc.
      * exists (alias_of opts), (mid1 ++ mid2)%list.
        split.
        { apply Forall_app. split; [done|].
          destruct Hmid2 as [[-> _]| ->]; by repeat constructor. }
        split.
        { intros Hnil. apply app_eq_nil in Hnil as [-> ->].
          destruct Hmid2 as [[_ ->]|[=]]. by apply Hw1. }
        right. exists alias2, rk.2.1. split; [|done].
        by rewrite <- !app_assoc.
    + intros [= <- <- <-]. right. exists (alias_of opts), mid1.
      split; [done|]. split; [done|].
      left. exists e. split; [done|]. split; [by eapply Hthrow|done].
  - intros [= <- <- <-]. left. split; [eauto|].
    destruct Hv as [(e' & _ & -> & ->)|[-> Hv]].
    + split; [constructor|]. split; [unfold checks; simpl; lia|].
      by rewrite bool_decide_eq_false_2 by apply not_elem_of_nil.
    + rewrite bool_decide_eq_true_2; cycle 1.
      { destruct Hv as [(? & _ & ->)|[(? & ? & _ & ->)|[(? & ? & _ & ->)|(? & _ & ->)]]];
          apply list_elem_of_here. }
      destruct Hv as [(? & _ & ->)|[(? & ? & _ & ->)|[(? & ? & _ & ->)|(? & _ & ->)]]];
        (split; [by repeat constructor|]; split; [unfold checks; simpl; lia|done]).
Qed.

End Declarations.

Section Claims.
Context `{Collaborators}.
Variables (type : AssociationStatic) (source target : ModelRef).
Variables (options : Obj) (parent : option Association).
Variable normalizeOptions :
  AssociationStatic → Obj → ModelRef → ModelRef → World → Completion Obj * World.
Variable construct : Obj → World → Completion (Association * Obj) * World.

#[local] Abbreviation declare :=
  (defineAssociation type source target options parent normalizeOptions construct).

Lemma unique_reusable (w : World) normalizedOptions t :
  (assertAssociationUnique type source target normalizedOptions parent (w, t)).1
  = Normal () →
  reusable w type source target normalizedOptions parent = true.
Proof.
  intros Hok.
  destruct (assertAssociationUnique_run type source target normalizedOptions parent w t)
    as (r & Hrun & _ & Hbad).
  rewrite Hrun in Hok. cbn in Hok. subst r.
  destruct (reusable w type source target normalizedOptions parent); [done|].
  destruct Hbad as [msg [=]]. done.
Qed.

Lemma reusable_taken (w : World) normalizedOptions existing :
  model_associations (w !!! source) !! alias_of normalizedOptions = Some existing →
  reusable w type source target normalizedOptions parent
  = (bool_decide (is_Some parent) || bool_decide (is_Some (parentAssociation existing)))
    && bool_decide (getAssociationsIncompatibilityStatus w existing type target
                      normalizedOptions = None).
Proof. intros Hreg. unfold reusable. by rewrite Hreg. Qed.

End Claims.

(* ================================================================== *)
(** ** Worked declarations *)
(* ================================================================== *)

Section Worked.
Import Example.

#[local] Existing Instance quiet.


(** C2, as stated, fails twice. A classification of `null` is not always
    reusable: without a parent, and with an existing association that has
    none, the check throws. And a classification other than `null` is not
    tolerated inside a composite: with a parent given and an existing
    association that has a parent, a declaration of another type throws. *)
Lemma reuse_policy_counterexample :
  (getAssociationsIncompatibilityStatus (after_hasMany_posts None) (posts_of None)
     HasMany post posts_options = None
   ∧ model_associations (after_hasMany_posts None !!! user) !! "posts"
     = Some (posts_of None)
   ∧ fst (assertAssociationUnique HasMany user post posts_options None
            (after_hasMany_posts None, []))
     = Throw (mkError AssociationErrorC (MsgSameName "posts" "User") None))
  ∧ (getAssociationsIncompatibilityStatus (after_hasMany_posts (Some through))
       (posts_of (Some through)) BelongsTo post posts_options_single
     = Some DIFFERENT_TYPES
     ∧ model_associations (after_hasMany_posts (Some through) !!! user) !! "posts"
       = Some (posts_of (Some through))
     ∧ parentAssociation (posts_of (Some through)) = Some 7
     ∧ fst (run (belongsTo_posts (Some through)) (after_hasMany_posts (Some through)))
       = Throw (mkError AssociationErrorC
                  (MsgIncompatible (Some "taggedPosts") "BelongsTo" "posts" "User" "Post"
                     "HasMany" 7 TypesDiffer) None)).
Proof. repeat split; vm_compute; reflexivity. Qed.

(** C4, as stated, fails: a declaration can throw after the builder has
    registered the association. With hooks on and a `beforeAssociate` hook
    that gives User an attribute `posts`, `User.hasMany(Post, { as: 'posts',
    hooks: true })` runs the hook and the builder and then throws at the
    second collision check; nothing is undone, and the registry of User,
    empty before the call, holds the new association after it. *)
Lemma failed_declaration_keeps_registration :
  fst (run (hasMany_posts_hooked (H:=with_attribute_hook)) store)
  = Throw (mkError ErrorC (MsgNamingCollision "posts" "User") None)
  ∧ snd (snd (run (hasMany_posts_hooked (H:=with_attribute_hook)) store))
    = [EvNormalizeOptions; EvCheckNamingCollision "posts";
       EvAssertAssociationUnique "posts"; EvRunSync beforeAssociate; EvConstruct;
       EvRunSync afterAssociate; EvCheckNamingCollision "posts"]
  ∧ model_associations (store !!! user) = ∅
  ∧ assoc_id <$> (model_associations
                    (fst (snd (run (hasMany_posts_hooked (H:=with_attribute_hook))
                                 store)) !!! user) !! "posts")
    = Some 1.
Proof. repeat split; vm_compute; reflexivity. Qed.

End Worked.

(* ================================================================== *)
(** * Further properties of the code *)
(* ================================================================== *)

#[local] Set Warnings "-clear-no-such-hyp".

(* ================================================================== *)
(** ** Normalization *)
(* ================================================================== *)

Lemma removeUndefined_clean (o : Obj) k : removeUndefined o !! k ≠ Some JUndefined.
Proof.
  rewrite lookup_removeUndefined.
  destruct (o !! k) as [[]|]; discriminate.
Qed.

Lemma normalizeForeignKeyOptions_clean (foreignKey : JsVal) k :
  normalizeForeignKeyOptions foreignKey !! k ≠ Some JUndefined.
Proof.
  destruct (typeof_string foreignKey) eqn:Hs.
  - destruct foreignKey; try discriminate Hs. cbn [normalizeForeignKeyOptions].
    destruct (decide (k = "name")) as [->|Hne].
    + rewrite lookup_singleton_eq. intros [=].
    + rewrite lookup_singleton_ne by done. intros [=].
  - rewrite normalizeForeignKeyOptions_lookup by done.
    case_bool_decide; [intros [=]|].
    case_bool_decide; [|apply removeUndefined_clean].
    cbv zeta. destruct (coalesce _ _); intros [=].
Qed.

(** X1. Foreign-key normalization is idempotent, but for one input: options
    already normalized normalize to themselves exactly when their `name`
    is not `null`. (`name: null` survives a first pass when `name` and
    `fieldName` are both `null`; a second pass then drops it, `null ??
    undefined` being `undefined`.) *)
Theorem normalizeForeignKeyOptions_idempotent (foreignKey : JsVal) :
  normalizeForeignKeyOptions (JObj (normalizeForeignKeyOptions foreignKey))
  = normalizeForeignKeyOptions foreignKey
  ↔ normalizeForeignKeyOptions foreignKey !! "name" ≠ Some JNull.
Proof.
  pose proof (normalizeForeignKeyOptions_clean foreignKey) as Hclean.
  assert (normalizeForeignKeyOptions foreignKey !! "fieldName" = None) as Hfield.
  { destruct (typeof_string foreignKey) eqn:Hs.
    - destruct foreignKey; try discriminate Hs. done.
    - by rewrite normalizeForeignKeyOptions_lookup. }
  revert Hclean Hfield.
  generalize (normalizeForeignKeyOptions foreignKey). intros r Hclean Hfield.
  assert (∀ k, normalizeForeignKeyOptions (JObj r) !! k =
               if bool_decide (k = "name") then
                 match r !! "name" with
                 | Some JNull | None => None
                 | Some v => Some v
                 end
               else r !! k) as Hlook.
  { intros k. rewrite normalizeForeignKeyOptions_lookup by done.
    case_bool_decide as Hf; [subst k; by rewrite Hfield|].
    case_bool_decide as Hn.
    - cbv zeta. cbn [prop]. unfold get. rewrite Hfield. cbn [default].
      specialize (Hclean "name").
      destruct (r !! "name") as [[]|]; done.
    - cbn [spread]. rewrite lookup_removeUndefined.
      specialize (Hclean k). destruct (r !! k) as [[]|]; done. }
  split.
  - intros Heq Hnull.
    pose proof (Hlook "name") as Hname. rewrite Heq, Hnull in Hname. done.
  - intros Hnull. apply map_eq. intros k. rewrite Hlook.
    case_bool_decide as Hn; [subst k|done].
    specialize (Hclean "name"). destruct (r !! "name") as [[]|]; done.
Qed.

Section NormalizeMore.
Context `{Collaborators}.

Lemma has_key_false (o : Obj) k : o !! k = None → has_key o k = false.
Proof.
  intros Hk. unfold has_key. rewrite Hk.
  apply bool_decide_eq_false_2. intros [? ?]. discriminate.
Qed.

Lemma has_key_true (o : Obj) k : is_Some (o !! k) → has_key o k = true.
Proof. intros Hk. unfold has_key. by apply bool_decide_eq_true_2. Qed.

(** When the options are accepted, the result is the options with the
    four normalized keys put in and the undefined-valued keys taken out. *)
Lemma normalizeBaseAssociationOptions_accepted (w : World)
    (associationType : AssociationStatic) (options : Obj) (source target : ModelRef) :
  options !! "onDelete" = None →
  options !! "onUpdate" = None →
  options !! "constraints" = None →
  options !! "foreignKeyConstraint" = None →
  (if truthy (get options "as")
   then isPlainObject (get options "as") || typeof_string (get options "as")
   else negb (nullish (model_options_name (w !!! target)))) = true →
  normalizeBaseAssociationOptions w associationType options source target
  = Normal (removeUndefined
              (<["name" := (resolved_names w associationType options target).1]>
                 (<["as" := (resolved_names w associationType options target).2]>
                    (<["hooks" := coalesce (get options "hooks") (JBool false)]>
                       (<["foreignKey" :=
                            JObj (normalizeForeignKeyOptions (get options "foreignKey"))]>
                          options))))).
Proof.
  intros HoD HoU Hc Hf Has.
  unfold normalizeBaseAssociationOptions, resolved_names.
  rewrite !has_key_false by done. cbn [orb].
  destruct (get options "as") as [| |b|n|s|n] eqn:Eas; cbn [truthy isPlainObject] in *.
  - apply negb_true_iff in Has. rewrite Has.
    by destruct (isMultiAssociation associationType).
  - apply negb_true_iff in Has. rewrite Has.
    by destruct (isMultiAssociation associationType).
  - destruct b; [discriminate Has|].
    apply negb_true_iff in Has. rewrite Has.
    by destruct (isMultiAssociation associationType).
  - destruct (negb (n =? 0)%Z); [discriminate Has|].
    apply negb_true_iff in Has. rewrite Has.
    by destruct (isMultiAssociation associationType).
  - destruct (String.eqb s ""); cbn [negb] in *.
    + apply negb_true_iff in Has. rewrite Has.
      by destruct (isMultiAssociation associationType).
    + done.
  - unfold prop. by destruct (isMultiAssociation associationType).
Qed.

(** X2. What normalization refuses, and in which order. A legacy key counts
    as soon as it is a key of the options, whatever it holds: `onDelete`
    or `onUpdate` first, then `constraints`, then `foreignKeyConstraint`,
    each with an `Error` that names the new option. Then an `as` that is
    truthy but neither a plain object nor a string fails the assertion, and
    a missing `as` on a target without `options.name` is a `TypeError`.
    Everything else is accepted. *)
Theorem normalizeBaseAssociationOptions_refusals (w : World)
    (associationType : AssociationStatic) (options : Obj) (source target : ModelRef) :
  (is_Some (options !! "onDelete") ∨ is_Some (options !! "onUpdate") →
   normalizeBaseAssociationOptions w associationType options source target
   = Throw (mkError ErrorC MsgOnDeleteOnUpdateMoved None))
  ∧ (options !! "onDelete" = None → options !! "onUpdate" = None →
     (is_Some (options !! "constraints") →
      normalizeBaseAssociationOptions w associationType options source target
      = Throw (mkError ErrorC MsgConstraintsRenamed None))
     ∧ (options !! "constraints" = None →
        (is_Some (options !! "foreignKeyConstraint") →
         normalizeBaseAssociationOptions w associationType options source target
         = Throw (mkError ErrorC MsgForeignKeyConstraintRenamed None))
        ∧ (options !! "foreignKeyConstraint" = None →
           (truthy (get options "as") = true →
            isPlainObject (get options "as") || typeof_string (get options "as") = false →
            normalizeBaseAssociationOptions w associationType options source target
            = Throw (mkError AssertionErrorC MsgAssertion None))
           ∧ (truthy (get options "as") = false →
              nullish (model_options_name (w !!! target)) = true →
              ∃ property,
                normalizeBaseAssociationOptions w associationType options source target
                = Throw (mkError TypeErrorC (MsgUndefinedProperty property) None))
           ∧ ((if truthy (get options "as")
               then isPlainObject (get options "as") || typeof_string (get options "as")
               else negb (nullish (model_options_name (w !!! target)))) = true →
              ∃ normalized,
                normalizeBaseAssociationOptions w associationType options source target
                = Normal normalized)))).
Proof.
  split.
  - intros Hlegacy. unfold normalizeBaseAssociationOptions.
    destruct Hlegacy as [Hk|Hk]; rewrite (has_key_true _ _ Hk); [done|].
    by rewrite orb_true_r.
  - intros HoD HoU. split.
    + intros Hk. unfold normalizeBaseAssociationOptions.
      rewrite !has_key_false by done. by rewrite (has_key_true _ _ Hk).
    + intros Hc. split.
      * intros Hk. unfold normalizeBaseAssociationOptions.
        rewrite !has_key_false by done. by rewrite (has_key_true _ _ Hk).
      * intros Hf. split; [|split].
        -- intros Htruthy Hkind. unfold normalizeBaseAssociationOptions.
           rewrite !has_key_false by done. cbn [orb]. rewrite Htruthy.
           destruct (get options "as"); try discriminate Hkind; done.
        -- intros Hfalsy Hnull. unfold normalizeBaseAssociationOptions.
           rewrite !has_key_false by done. cbn [orb]. rewrite Hfalsy, Hnull.
           eauto.
        -- intros Hok. eexists.
           by apply normalizeBaseAssociationOptions_accepted.
Qed.

Lemma has_key_None (o : Obj) k : has_key o k = false → o !! k = None.
Proof.
  unfold has_key. intros Hk. apply bool_decide_eq_false_1 in Hk.
  destruct (o !! k); [|done]. exfalso. eauto.
Qed.

(** Accepted options are the ones none of the refusals applies to. *)
Lemma normalizeBaseAssociationOptions_Normal_inv (w : World)
    (associationType : AssociationStatic) (options : Obj) (source target : ModelRef)
    normalized :
  normalizeBaseAssociationOptions w associationType options source target
  = Normal normalized →
  options !! "onDelete" = None
  ∧ options !! "onUpdate" = None
  ∧ options !! "constraints" = None
  ∧ options !! "foreignKeyConstraint" = None
  ∧ (if truthy (get options "as")
     then isPlainObject (get options "as") || typeof_string (get options "as")
     else negb (nullish (model_options_name (w !!! target)))) = true.
Proof.
  unfold normalizeBaseAssociationOptions.
  destruct (has_key options "onDelete") eqn:HoD; [discriminate|].
  destruct (has_key options "onUpdate") eqn:HoU; [discriminate|].
  destruct (has_key options "constraints") eqn:Hc; [discriminate|].
  destruct (has_key options "foreignKeyConstraint") eqn:Hf; [discriminate|].
  cbn [orb]. intros Hrun.
  repeat (split; [by apply has_key_None|]).
  destruct (truthy (get options "as")).
  - destruct (get options "as"); try done; discriminate Hrun.
  - destruct (nullish (model_options_name (w !!! target))); [discriminate Hrun|done].
Qed.

(** X3. An alias given as an object `{ singular, plural }` is the name pair as
    it is, and the registry key is its `plural` for a multi-valued kind and
    its `singular` otherwise. An object without that form leaves `as`
    undefined: the key is dropped from the result, and the alias the
    orchestrator reads is the string "undefined". *)
Theorem normalize_object_alias (w : World) (associationType : AssociationStatic)
    (options : Obj) (source target : ModelRef) (names : Obj) :
  options !! "as" = Some (JObj names) →
  options !! "onDelete" = None →
  options !! "onUpdate" = None →
  options !! "constraints" = None →
  options !! "foreignKeyConstraint" = None →
  ∃ normalized,
    normalizeBaseAssociationOptions w associationType options source target
    = Normal normalized
    ∧ normalized !! "name" = Some (JObj names)
    ∧ normalized !! "as"
      = names !! (if isMultiAssociation associationType then "plural" else "singular")
        ≫= (λ v, if is_undefined v then None else Some v)
    ∧ alias_of normalized
      = toPropertyKey
          (get names (if isMultiAssociation associationType then "plural" else "singular")).
Proof.
  intros Has HoD HoU Hc Hf.
  assert (get options "as" = JObj names) as Eas by (unfold get; by rewrite Has).
  eexists. split.
  { apply normalizeBaseAssociationOptions_accepted; try done. by rewrite Eas. }
  unfold resolved_names. rewrite Eas. cbn [fst snd].
  split; [|split].
  - rewrite lookup_removeUndefined, lookup_insert_eq. done.
  - rewrite lookup_removeUndefined, lookup_insert_ne, lookup_insert_eq by done.
    unfold get. destruct (names !! _) as [[]|]; done.
  - unfold alias_of. unfold get at 1.
    rewrite lookup_removeUndefined, lookup_insert_ne, lookup_insert_eq by done.
    by destruct (get names _).
Qed.

(** X4. Without an alias (no `as`, or a falsy one such as the empty string),
    the name pair is `target.options.name` and the registry key is its
    `plural` for a multi-valued kind and its `singular` otherwise. *)
Theorem normalize_default_alias (w : World) (associationType : AssociationStatic)
    (options : Obj) (source target : ModelRef) :
  truthy (get options "as") = false →
  nullish (model_options_name (w !!! target)) = false →
  options !! "onDelete" = None →
  options !! "onUpdate" = None →
  options !! "constraints" = None →
  options !! "foreignKeyConstraint" = None →
  ∃ normalized,
    normalizeBaseAssociationOptions w associationType options source target
    = Normal normalized
    ∧ normalized !! "name" = Some (model_options_name (w !!! target))
    ∧ alias_of normalized
      = toPropertyKey
          (prop (model_options_name (w !!! target))
             (if isMultiAssociation associationType then "plural" else "singular")).
Proof.
  intros Hfalsy Hname HoD HoU Hc Hf.
  eexists. split.
  { apply normalizeBaseAssociationOptions_accepted; try done.
    by rewrite Hfalsy, Hname. }
  assert (resolved_names w associationType options target
          = (model_options_name (w !!! target),
             prop (model_options_name (w !!! target))
               (if isMultiAssociation associationType then "plural" else "singular")))
    as ->.
  { unfold resolved_names.
    destruct (get options "as") as [| |b|n|s|n]; try done.
    cbn in Hfalsy. apply negb_false_iff in Hfalsy. by rewrite Hfalsy. }
  cbn [fst snd]. split.
  - rewrite lookup_removeUndefined, lookup_insert_eq.
    by destruct (model_options_name (w !!! target)).
  - unfold alias_of. unfold get at 1.
    rewrite lookup_removeUndefined, lookup_insert_ne, lookup_insert_eq by done.
    by destruct (prop _ _).
Qed.

(** X5. What normalization does to the rest of the options. In every accepted
    result `hooks` is present and is `options.hooks ?? false`, `foreignKey`
    is present and is an object, the normalized foreign key; every other
    option of the caller is carried over unless it holds `undefined`; and no
    key of the result holds `undefined`. *)
Theorem normalize_keeps_other_options (w : World) (associationType : AssociationStatic)
    (options : Obj) (source target : ModelRef) (normalized : Obj) :
  normalizeBaseAssociationOptions w associationType options source target
  = Normal normalized →
  normalized !! "hooks" = Some (coalesce (get options "hooks") (JBool false))
  ∧ nullish (get normalized "hooks") = false
  ∧ normalized !! "foreignKey"
    = Some (JObj (normalizeForeignKeyOptions (get options "foreignKey")))
  ∧ (∀ k, k ≠ "as" → k ≠ "name" → k ≠ "hooks" → k ≠ "foreignKey" →
          normalized !! k = removeUndefined options !! k)
  ∧ (∀ k, normalized !! k ≠ Some JUndefined).
Proof.
  intros Hrun.
  destruct (normalizeBaseAssociationOptions_Normal_inv _ _ _ _ _ _ Hrun)
    as (HoD & HoU & Hc & Hf & Has).
  rewrite normalizeBaseAssociationOptions_accepted in Hrun by done.
  injection Hrun as <-.
  assert (nullish (coalesce (get options "hooks") (JBool false)) = false) as Hhooks.
  { unfold coalesce. by destruct (get options "hooks"). }
  assert (removeUndefined
            (<["name" := (resolved_names w associationType options target).1]>
               (<["as" := (resolved_names w associationType options target).2]>
                  (<["hooks" := coalesce (get options "hooks") (JBool false)]>
                     (<["foreignKey" :=
                          JObj (normalizeForeignKeyOptions (get options "foreignKey"))]>
                        options)))) !! "hooks"
          = Some (coalesce (get options "hooks") (JBool false))) as Hlook.
  { rewrite lookup_removeUndefined, !lookup_insert_ne, lookup_insert_eq by done.
    by destruct (coalesce _ _). }
  split; [done|]. split.
  { unfold get at 1. by rewrite Hlook. }
  split.
  { rewrite lookup_removeUndefined, !lookup_insert_ne, lookup_insert_eq by done. done. }
  split.
  - intros k H1 H2 H3 H4.
    rewrite !lookup_removeUndefined. by rewrite !lookup_insert_ne.
  - intros k. apply removeUndefined_clean.
Qed.

End NormalizeMore.

(* ================================================================== *)
(** ** Further properties of the classifier and of the constraint deriver *)
(* ================================================================== *)

(** X6. The `inverse` option never weighs on the classification: two existing
    associations of the same type and target whose options agree apart from
    `inverse`, compared with two option records that agree apart from
    `inverse`, get the same status. *)
Theorem classifier_ignores_inverse `{Collaborators} (w : World)
    (existing other : Association) (newType : AssociationStatic) (newTarget : ModelRef)
    (options1 options2 : Obj) :
  associationType other = associationType existing →
  assoc_target other = assoc_target existing →
  delete "inverse" (assoc_options other) = delete "inverse" (assoc_options existing) →
  delete "inverse" options1 = delete "inverse" options2 →
  getAssociationsIncompatibilityStatus w other newType newTarget options1
  = getAssociationsIncompatibilityStatus w existing newType newTarget options2.
Proof.
  intros Hty Htg Hop Hnew. unfold getAssociationsIncompatibilityStatus, omit.
  by rewrite Hty, Htg, Hop, Hnew.
Qed.

Lemma primaryKeyColumns_throws (attributes : gmap string JsVal) (keys : list string) :
  (∃ e, primaryKeyColumns attributes keys = Throw e)
  ↔ Exists (unreadable attributes) keys.
Proof.
  induction keys as [|pk rest IH]; simpl.
  - split; [intros [e [=]]|inversion 1].
  - rewrite Exists_cons, <- IH. unfold unreadable.
    destruct (attributes !! pk) as [[| |b|n|s|o]|] eqn:Hpk;
      try (split; [intros _; left; by eauto|by eauto]);
      destruct (primaryKeyColumns attributes rest) as [columns|e0];
      (split;
       [intros [e He]; first [discriminate He|right; by eauto]
       |intros [[[=]|[[=]|[=]]]|[e He]]; first [discriminate He|by eauto]]).
Qed.

(** X7. `addForeignKeyConstraints` throws exactly when constraints are not
    switched off and some primary key of the source has no column to read,
    and what it throws is the `TypeError` of that read. With
    `foreignKeyConstraints: false` it never throws. *)
Theorem addForeignKeyConstraints_throws (w : World) (newAttribute : Obj)
    (source : ModelRef) (options : Obj) (key : string) :
  ((∃ e, addForeignKeyConstraints w newAttribute source options key = Throw e)
   ↔ get options "foreignKeyConstraints" ≠ JBool false
     ∧ Exists (unreadable (model_attributes (w !!! source)))
              (model_primaryKeys (w !!! source)))
  ∧ (∀ e, addForeignKeyConstraints w newAttribute source options key = Throw e →
          e = mkError TypeErrorC (MsgUndefinedProperty "field") None).
Proof.
  assert (∀ attributes keys e,
            primaryKeyColumns attributes keys = Throw e →
            e = mkError TypeErrorC (MsgUndefinedProperty "field") None) as Hkind.
  { intros attributes keys e. induction keys as [|pk rest IH]; simpl; [discriminate|].
    destruct (attributes !! pk) as [attribute|]; [|by intros [= <-]].
    destruct (primaryKeyColumns attributes rest) as [columns|e'];
      destruct attribute; try discriminate; try (by intros [= <-]);
      intros [= <-]; by apply IH. }
  unfold addForeignKeyConstraints.
  destruct (is_not_false (get options "foreignKeyConstraints")) eqn:Hon.
  - assert (get options "foreignKeyConstraints" ≠ JBool false) as Hne.
    { intros Heq. by rewrite Heq in Hon. }
    pose proof (primaryKeyColumns_throws (model_attributes (w !!! source))
                  (model_primaryKeys (w !!! source))) as Hthrows.
    destruct (primaryKeyColumns _ _) as [columns|e0] eqn:Hpk.
    + split.
      * split.
        -- intros [e He]. destruct (_ || _); discriminate He.
        -- intros [_ Hex]. apply Hthrows in Hex as [e [=]].
      * intros e He. destruct (_ || _); discriminate He.
    + split.
      * split; [|eauto]. intros _. split; [done|]. apply Hthrows. eauto.
      * intros e [= <-]. by eapply Hkind.
  - assert (get options "foreignKeyConstraints" = JBool false) as Heq.
    { destruct (get options "foreignKeyConstraints") as [| |[]| | |]; done. }
    split; [|discriminate].
    split; [intros [e [=]]|]. intros [Hne _]. done.
Qed.

Lemma get_insert_eq (o : Obj) k v : get (<[k := v]> o) k = v.
Proof. unfold get. by rewrite lookup_insert_eq. Qed.

Lemma get_insert_ne (o : Obj) k k' v : k ≠ k' → get (<[k := v]> o) k' = get o k'.
Proof. intros Hne. unfold get. by rewrite lookup_insert_ne. Qed.

Lemma coalesce_absorbs (x d : JsVal) :
  nullish d = false → coalesce (coalesce x d) d = coalesce x d.
Proof. intros Hd. unfold coalesce. destruct (nullish x) eqn:Hx; by rewrite ?Hd, ?Hx. Qed.

(** X8. `addForeignKeyConstraints` is idempotent: applied to the attribute it
    returned, it returns it again. The defaults it fills in are kept,
    because the `onDelete` and `onUpdate` it leaves are never `null` or
    `undefined`. *)
Theorem addForeignKeyConstraints_idempotent (w : World) (newAttribute attribute : Obj)
    (source : ModelRef) (options : Obj) (key : string) :
  addForeignKeyConstraints w newAttribute source options key = Normal attribute →
  addForeignKeyConstraints w attribute source options key = Normal attribute.
Proof.
  unfold addForeignKeyConstraints.
  destruct (is_not_false (get options "foreignKeyConstraints")); [|done].
  destruct (primaryKeyColumns _ _) as [primaryKeys|e]; [|discriminate].
  destruct (_ || _); [|done].
  intros [= <-]. f_equal.
  set (references := JObj _).
  assert (∀ a : Obj, nullish (default_onDelete a) = false) as Hdel.
  { intros a. unfold default_onDelete. by destruct (is_not_false _). }
  assert (∀ (a : Obj) v, default_onDelete (<["references" := v]> a) = default_onDelete a)
    as Hdel_ref.
  { intros a v. unfold default_onDelete. by rewrite get_insert_ne. }
  assert (∀ (a : Obj) v, default_onDelete (<["onDelete" := v]> a) = default_onDelete a)
    as Hdel_del.
  { intros a v. unfold default_onDelete. by rewrite get_insert_ne. }
  assert (∀ (a : Obj) v, default_onDelete (<["onUpdate" := v]> a) = default_onDelete a)
    as Hdel_upd.
  { intros a v. unfold default_onDelete. by rewrite get_insert_ne. }
  apply map_eq. intros k.
  destruct (decide (k = "onUpdate")) as [->|Hu].
  { rewrite !lookup_insert_eq. f_equal.
    rewrite !(get_insert_ne _ "onDelete" "onUpdate") by done.
    rewrite !(get_insert_ne _ "references" "onUpdate") by done.
    rewrite get_insert_eq. by apply coalesce_absorbs. }
  rewrite !(lookup_insert_ne _ "onUpdate") by done.
  destruct (decide (k = "onDelete")) as [->|Hd].
  { rewrite !lookup_insert_eq. f_equal.
    repeat first [rewrite Hdel_ref | rewrite Hdel_upd | rewrite Hdel_del].
    rewrite !(get_insert_ne _ "references" "onDelete") by done.
    rewrite !(get_insert_ne _ "onUpdate" "onDelete") by done.
    rewrite get_insert_eq. by apply coalesce_absorbs. }
  rewrite !(lookup_insert_ne _ "onDelete") by done.
  destruct (decide (k = "references")) as [->|Hr].
  { by rewrite !lookup_insert_eq. }
  by rewrite !lookup_insert_ne.
Qed.

(* ================================================================== *)
(** ** Further properties of the accessor mixin *)
(* ================================================================== *)

Section MixinMore.
Variable association : Association.

Lemma mixinMethods_owned (p : Prototype) methods aliases method :
  method ∈ methods →
  is_Some (mixinMethods association p methods aliases !! targetMethodName association method).
Proof.
  intros Hin.
  destruct (p !! targetMethodName association method) as [d|] eqn:Hp.
  - erewrite mixinMethods_own; eauto.
  - destruct (mixinMethods_first association aliases methods
                (targetMethodName association method) p Hp)
      as (? & first & ? & _ & _ & _ & ->); [|eauto].
    apply Exists_exists. eauto.
Qed.

Lemma mixinMethods_nothing_to_do methods : ∀ (p : Prototype) aliases,
  Forall (λ method, is_Some (p !! targetMethodName association method)) methods →
  mixinMethods association p methods aliases = p.
Proof.
  induction methods as [|method rest IH]; intros p aliases Hall; [done|].
  inversion Hall as [|? ? Hown Hrest]; subst.
  unfold mixinMethods in *. simpl.
  unfold mixinMethod at 2. rewrite bool_decide_eq_true_2 by done.
  by apply IH.
Qed.

(** X9. Mixing the same methods in a second time changes nothing, whatever
    alias map the second call is given: after the first call the prototype
    owns every accessor name, so every turn of the loop is skipped. More
    generally a call does nothing to a prototype that owns all the names
    its methods resolve to. *)
Theorem mixinMethods_idempotent (mixinTargetPrototype : Prototype)
    (methods : list string) (aliases aliases' : option (gmap string string)) :
  mixinMethods association
    (mixinMethods association mixinTargetPrototype methods aliases) methods aliases'
  = mixinMethods association mixinTargetPrototype methods aliases
  ∧ (Forall (λ method,
               is_Some (mixinTargetPrototype !! targetMethodName association method))
            methods →
     mixinMethods association mixinTargetPrototype methods aliases
     = mixinTargetPrototype).
Proof.
  split.
  - apply mixinMethods_nothing_to_do. apply Forall_forall.
    intros method Hin. by apply mixinMethods_owned.
  - apply mixinMethods_nothing_to_do.
Qed.

Lemma mixinMethod_dom (p : Prototype) aliases method :
  dom (mixinMethod association aliases p method)
  = dom p ∪ {[ targetMethodName association method ]}.
Proof.
  unfold mixinMethod. case_bool_decide as Hown.
  - apply elem_of_dom in Hown. set_solver.
  - rewrite dom_insert_L. set_solver.
Qed.

(** X10. The names a prototype owns after the call are the ones it owned
    before and the accessor names, `association.accessors[method]`, of the
    listed methods, no more; and every property the call added is the
    forwarder of one of the listed methods with that accessor name to the
    method of this association that `aliases?.[method] || method` names:
    non-enumerable, non-writable and non-configurable. *)
Theorem mixinMethods_dom (mixinTargetPrototype : Prototype)
    (methods : list string) (aliases : option (gmap string string)) :
  let name_of (method : string) : string :=
    match accessors association !! method with
    | Some name => name
    | None => "undefined"
    end in
  let real_of (method : string) : string :=
    match aliases with
    | Some al =>
        match al !! method with
        | Some alias => if String.eqb alias "" then method else alias
        | None => method
        end
    | None => method
    end in
  dom (mixinMethods association mixinTargetPrototype methods aliases)
  = dom mixinTargetPrototype ∪ list_to_set (name_of <$> methods)
  ∧ (∀ name d,
       mixinMethods association mixinTargetPrototype methods aliases !! name = Some d →
       mixinTargetPrototype !! name = None →
       ∃ method, method ∈ methods
                 ∧ name_of method = name
                 ∧ d = {| enumerable := false; writable := false; configurable := false;
                          value := Forwarder association (real_of method) |}).
Proof.
  cbv zeta. split.
  - revert mixinTargetPrototype.
    induction methods as [|method rest IH]; intros p.
    + unfold mixinMethods. simpl. set_solver.
    + unfold mixinMethods in *. simpl. rewrite IH, mixinMethod_dom.
      unfold targetMethodName. set_solver.
  - intros name d Hfinal Hnone.
    destruct (decide (Exists (λ method, targetMethodName association method = name)
                        methods)) as [Hex|Hnex].
    + destruct (mixinMethods_first association aliases methods name
                  mixinTargetPrototype Hnone Hex)
        as (before & first & after & -> & _ & Hname & Hlook).
      rewrite Hlook in Hfinal. injection Hfinal as <-.
      exists first. split; [|split; [exact Hname|reflexivity]].
      apply elem_of_app. right. apply list_elem_of_here.
    + rewrite mixinMethods_other in Hfinal; [congruence|].
      apply Forall_forall. intros method Hin Heq. apply Hnex.
      apply Exists_exists. eauto.
Qed.

End MixinMore.

(** The same call as above: the prototype owns `addPost`, `getPosts` and
    `countPosts` afterwards, and `getPosts` is the forwarder to `get`. *)
Lemma mixinMethods_dom_witness :
  dom (mixinMethods MixinExample.posts MixinExample.prototype ["get"; "count"; "add"]
         MixinExample.method_aliases)
  = ({[ "addPost"; "getPosts"; "countPosts" ]} : gset string)
  ∧ mixinMethods MixinExample.posts MixinExample.prototype ["get"; "count"; "add"]
      MixinExample.method_aliases !! "getPosts"
    = Some {| enumerable := false; writable := false; configurable := false;
              value := Forwarder MixinExample.posts "get" |}.
Proof.
  pose proof (mixinMethods_dom MixinExample.posts MixinExample.prototype
                ["get"; "count"; "add"] MixinExample.method_aliases) as Hdom.
  cbv zeta in Hdom. destruct Hdom as [Hnames Hadded].
  split.
  - rewrite Hnames. vm_compute. reflexivity.
  - destruct (mixinMethods MixinExample.posts MixinExample.prototype
                ["get"; "count"; "add"] MixinExample.method_aliases !! "getPosts")
      as [d|] eqn:Hd.
    + destruct (Hadded "getPosts" d Hd) as (method & Hin & Hname & ->); [reflexivity|].
      assert (method = "get") as ->; [|reflexivity].
      repeat (apply elem_of_cons in Hin as [->|Hin]); try discriminate Hname; [done|].
      by apply not_elem_of_nil in Hin.
    + apply not_elem_of_dom in Hd. exfalso. apply Hd. rewrite Hnames.
      vm_compute. reflexivity.
Defined.

(* ================================================================== *)
(** ** Further properties of a declaration *)
(* ================================================================== *)

Section DeclarationMore.
Context `{Collaborators}.
Variables (type : AssociationStatic) (source target : ModelRef).
Variables (options : Obj) (parent : option Association).
Variable normalizeOptions :
  AssociationStatic → Obj → ModelRef → ModelRef → World → Completion Obj * World.
Variable construct : Obj → World → Completion (Association * Obj) * World.

#[local] Abbreviation declare :=
  (defineAssociation type source target options parent normalizeOptions construct).

(** X11. The three guards of a declaration, in their order: a target that is
    not a model is refused first, then a source that is not initialised,
    then a target that is not. Each throws a plain `Error`, before the
    normalizer or anything else is called, and the store is untouched. *)
Theorem declaration_guards (w : World) :
  (isModelStatic w target = false →
   run declare w
   = (Throw (mkError ErrorC (MsgNotAModel (model_name (w !!! source)) (type_name type))
               None), (w, [])))
  ∧ (isModelStatic w target = true →
     (model_sequelize (w !!! source) = None →
      run declare w
      = (Throw (mkError ErrorC (MsgModelNotDefined (model_name (w !!! source))) None),
         (w, [])))
     ∧ (is_Some (model_sequelize (w !!! source)) →
        model_sequelize (w !!! target) = None →
        run declare w
        = (Throw (mkError ErrorC (MsgModelNotDefined (model_name (w !!! target))) None),
           (w, [])))).
Proof.
  split; [|intros Hm; split].
  - intros Hm. rewrite declare_run, bind_run. unfold validation.
    unfold mbind at 1, M_bind at 1, world. cbn [fst snd]. by rewrite Hm.
  - intros Hs1. rewrite declare_run, bind_run. unfold validation.
    unfold mbind at 1, M_bind at 1, world. cbn [fst snd]. rewrite Hm. cbn [negb].
    by rewrite bind_run, assertAssociationModelIsDefined_run, Hs1.
  - intros [s1 Hs1] Hs2. rewrite declare_run, bind_run. unfold validation.
    unfold mbind at 1, M_bind at 1, world. cbn [fst snd]. rewrite Hm. cbn [negb].
    rewrite bind_run, assertAssociationModelIsDefined_run, Hs1.
    by rewrite bind_run, assertAssociationModelIsDefined_run, Hs2.
Qed.

(** X12. An error thrown by the normalizer reaches the caller as it is, not
    wrapped; no check has run, and the store is as the normalizer left
    it. *)
Theorem normalizer_error_propagates (w wn : World) (e : JsError) :
  isModelStatic w target = true →
  is_Some (model_sequelize (w !!! source)) →
  is_Some (model_sequelize (w !!! target)) →
  normalizeOptions type options source target w = (Throw e, wn) →
  run declare w = (Throw e, (wn, [EvNormalizeOptions])).
Proof.
  intros Hm Hs1 Hs2 Hn.
  rewrite declare_run, bind_run, validation_upto_normalize by done.
  rewrite bind_run. unfold call. cbn [fst snd]. by rewrite Hn.
Qed.

(** X13. An error thrown by a hook reaches the caller as it is, not wrapped in
    an `AssociationError`. When the before-hook throws, the builder is not
    called. When the after-hook throws, what the builder and the hooks
    wrote stays. *)
Theorem hook_error_propagates (w wn : World) (normalizedOptions : Obj) :
  isModelStatic w target = true →
  is_Some (model_sequelize (w !!! source)) →
  is_Some (model_sequelize (w !!! target)) →
  normalizeOptions type options source target w = (Normal normalizedOptions, wn) →
  model_attributes (wn !!! source) !! alias_of normalizedOptions = None →
  model_associations (wn !!! source) !! alias_of normalizedOptions = None →
  truthy (get normalizedOptions "hooks") = true →
  (∀ e w1,
     runSync source beforeAssociate
       (hook_context type source target (model_sequelize (wn !!! source)) None)
       normalizedOptions wn = (Throw e, w1) →
     run declare w
     = (Throw e, (w1, (validated normalizedOptions ++ [EvRunSync beforeAssociate])%list)))
  ∧ (∀ options1 w1 association options2 w2 e w3,
       runSync source beforeAssociate
         (hook_context type source target (model_sequelize (wn !!! source)) None)
         normalizedOptions wn = (Normal options1, w1) →
       model_associations (w1 !!! source) !! alias_of options1 = None →
       construct options1 w1 = (Normal (association, options2), w2) →
       truthy (get options2 "hooks") = true →
       runSync source afterAssociate
         (hook_context type source target (model_sequelize (wn !!! source))
            (Some association))
         options2 w2 = (Throw e, w3) →
       run declare w
       = (Throw e,
          (w3, (validated normalizedOptions
                ++ [EvRunSync beforeAssociate; EvConstruct; EvRunSync afterAssociate])%list))).
Proof.
  intros Hm Hs1 Hs2 Hn Hfree Hreg Hon.
  assert (reusable wn type source target normalizedOptions parent = true) as Hre.
  { unfold reusable. by rewrite Hreg. }
  assert (run declare w
          = (r ← construction type source target parent construct normalizedOptions;
             conclusion type source target r.1 r.2.1 r.2.2)
              (wn, validated normalizedOptions)) as Hrun.
  { rewrite declare_run, bind_run.
    by rewrite (validation_passes _ _ _ _ _ _ w wn [] normalizedOptions). }
  split.
  - intros e w1 Hbefore. rewrite Hrun, bind_run.
    erewrite construction_hook_throws; [done|].
    rewrite runHooks_run, Hon, Hbefore. done.
  - intros options1 w1 association options2 w2 e w3 Hbefore Hreg1 Hbuild Hon2 Hafter.
    rewrite Hrun, bind_run.
    erewrite construction_builds; [| |exact Hreg1]; cycle 1.
    { rewrite runHooks_run, Hon, Hbefore. done. }
    rewrite Hbuild. cbn [fst snd]. unfold conclusion.
    rewrite bind_run, runHooks_run, Hon2, Hafter. cbn [fst snd].
    by rewrite <- !app_assoc.
Qed.

(** X14. A first declaration: with a free alias and hooks off, the declaration
    calls the builder once, between the two collision checks, returns the
    association the builder returned and leaves the store as the builder left
    it, provided the alias names no attribute then. *)
Theorem fresh_declaration (w wn w2 : World) (normalizedOptions options2 : Obj)
    (association : Association) :
  isModelStatic w target = true →
  is_Some (model_sequelize (w !!! source)) →
  is_Some (model_sequelize (w !!! target)) →
  normalizeOptions type options source target w = (Normal normalizedOptions, wn) →
  model_attributes (wn !!! source) !! alias_of normalizedOptions = None →
  model_associations (wn !!! source) !! alias_of normalizedOptions = None →
  truthy (get normalizedOptions "hooks") = false →
  construct normalizedOptions wn = (Normal (association, options2), w2) →
  truthy (get options2 "hooks") = false →
  model_attributes (w2 !!! source) !! alias_of options2 = None →
  run declare w
  = (Normal association,
     (w2, (validated normalizedOptions
           ++ [EvConstruct; EvCheckNamingCollision (alias_of options2)])%list)).
Proof.
  intros Hm Hs1 Hs2 Hn Hfree Hreg Hoff Hbuild Hoff2 Hfree2.
  assert (reusable wn type source target normalizedOptions parent = true) as Hre.
  { unfold reusable. by rewrite Hreg. }
  rewrite declare_run, bind_run.
  rewrite (validation_passes _ _ _ _ _ _ w wn [] normalizedOptions) by done.
  rewrite bind_run.
  erewrite construction_builds; [| |exact Hreg]; cycle 1.
  { rewrite runHooks_run, Hoff. done. }
  rewrite Hbuild. cbn [fst snd]. unfold conclusion.
  rewrite bind_run, runHooks_run, Hoff2.
  rewrite bind_run, checkNamingCollision_free by done.
  reflexivity.
Qed.

Lemma callbacks_app (t1 t2 : list Event) :
  List.filter is_callback (t1 ++ t2)
  = (List.filter is_callback t1 ++ List.filter is_callback t2)%list.
Proof. apply List.filter_app. Qed.

(** The calls the middle of a declaration makes: the before-hook, then
    the builder, each at most once. *)
Lemma construction_callbacks normalizedOptions (w : World) t r w' t' :
  construction type source target parent construct normalizedOptions (w, t)
  = (r, (w', t')) →
  ∃ mid, t' = (t ++ mid)%list
         ∧ (mid = [] ∨ mid = [EvRunSync beforeAssociate] ∨ mid = [EvConstruct]
            ∨ mid = [EvRunSync beforeAssociate; EvConstruct])
         ∧ (EvRunSync beforeAssociate ∈ mid → truthy (get normalizedOptions "hooks") = true).
Proof.
  intros Hrun.
  destruct (runHooks source beforeAssociate
              (hook_context type source target (model_sequelize (w !!! source)) None)
              normalizedOptions (w, t)) as [[options1|e] [w1 t1]] eqn:Hhook.
  - assert (∃ mid, t1 = (t ++ mid)%list
                   ∧ (mid = [] ∧ truthy (get normalizedOptions "hooks") = false
                      ∨ mid = [EvRunSync beforeAssociate]
                        ∧ truthy (get normalizedOptions "hooks") = true))
      as (mid1 & -> & Hmid1).
    { rewrite runHooks_run in Hhook. destruct (truthy _).
      - injection Hhook as _ _ <-. exists [EvRunSync beforeAssociate]. eauto.
      - injection Hhook as _ <- <-. exists []. rewrite app_nil_r. eauto. }
    destruct (model_associations (w1 !!! source) !! alias_of options1)
      as [existing|] eqn:Hreg.
    + rewrite (construction_reuses _ _ _ _ _ _ _ _ _ _ _ _ Hhook Hreg) in Hrun.
      injection Hrun as <- <- <-. exists mid1.
      split; [done|]. destruct Hmid1 as [[-> Hoff]|[-> Hon]].
      * split; [eauto|]. intros Hin. by apply not_elem_of_nil in Hin.
      * split; eauto.
    + rewrite (construction_builds _ _ _ _ _ _ _ _ _ _ _ Hhook Hreg) in Hrun.
      exists (mid1 ++ [EvConstruct])%list.
      assert (t' = ((t ++ mid1) ++ [EvConstruct])%list) as ->.
      { by destruct (construct options1 w1) as [[r0|error] w2];
          injection Hrun as <- <- <-. }
      split; [by rewrite app_assoc|].
      destruct Hmid1 as [[-> Hoff]|[-> Hon]].
      * split; [eauto|]. intros Hin. apply list_elem_of_singleton in Hin. discriminate.
      * split; [do 3 right; done|done].
  - rewrite (construction_hook_throws _ _ _ _ _ _ _ _ _ _ Hhook) in Hrun.
    injection Hrun as <- <- <-.
    rewrite runHooks_run in Hhook. destruct (truthy _) eqn:Hon; [|discriminate].
    injection Hhook as _ _ <-. exists [EvRunSync beforeAssociate]. eauto.
Qed.

(** A first half that returns has passed the three guards and the two
    checks on the options the normalizer returned. *)
Lemma validation_Normal_inv (w : World) t opts st :
  validation type source target options parent normalizeOptions (w, t) = (Normal opts, st) →
  ∃ wn, normalizeOptions type options source target w = (Normal opts, wn)
        ∧ st = (wn, (t ++ validated opts)%list).
Proof.
  intros Hrun.
  destruct (isModelStatic w target) eqn:Hm; cycle 1.
  { unfold validation in Hrun. unfold mbind at 1, M_bind at 1, world in Hrun.
    cbn [fst snd] in Hrun. rewrite Hm in Hrun. discriminate Hrun. }
  destruct (model_sequelize (w !!! source)) as [s1|] eqn:Hs1; cycle 1.
  { unfold validation in Hrun. unfold mbind at 1, M_bind at 1, world in Hrun.
    cbn [fst snd] in Hrun. rewrite Hm in Hrun. cbn [negb] in Hrun.
    rewrite bind_run, assertAssociationModelIsDefined_run, Hs1 in Hrun.
    discriminate Hrun. }
  destruct (model_sequelize (w !!! target)) as [s2|] eqn:Hs2; cycle 1.
  { unfold validation in Hrun. unfold mbind at 1, M_bind at 1, world in Hrun.
    cbn [fst snd] in Hrun. rewrite Hm in Hrun. cbn [negb] in Hrun.
    rewrite bind_run, assertAssociationModelIsDefined_run, Hs1 in Hrun.
    rewrite bind_run, assertAssociationModelIsDefined_run, Hs2 in Hrun.
    discriminate Hrun. }
  destruct (normalizeOptions type options source target w) as [[o|e] wn] eqn:Hn;
    cycle 1.
  { rewrite validation_upto_normalize in Hrun by (rewrite ?Hs1, ?Hs2; eauto).
    rewrite bind_run in Hrun. unfold call at 1 in Hrun. cbn [fst snd] in Hrun.
    rewrite Hn in Hrun. discriminate Hrun. }
  destruct (model_attributes (wn !!! source) !! alias_of o) as [attr|] eqn:Hattr.
  { rewrite (validation_collides _ _ _ _ _ _ w wn t o) in Hrun
      by (rewrite ?Hs1, ?Hs2, ?Hattr; eauto).
    discriminate Hrun. }
  destruct (reusable wn type source target o parent) eqn:Hre.
  - rewrite (validation_passes _ _ _ _ _ _ w wn t o) in Hrun
      by (rewrite ?Hs1, ?Hs2; eauto).
    injection Hrun as <- <-. eauto.
  - destruct (validation_conflicts type source target options parent normalizeOptions
                w wn t o) as [msg Hv]; try (rewrite ?Hs1, ?Hs2; eauto).
    rewrite Hv in Hrun. discriminate Hrun.
Qed.

(** The calls the end of a declaration makes: the after-hook at most
    once, and the second collision check last when it is reached. *)
Lemma conclusion_callbacks sequelize association normalizedOptions (w : World) t r w' t' :
  conclusion type source target sequelize association normalizedOptions (w, t)
  = (r, (w', t')) →
  ∃ tail, t' = (t ++ tail)%list
          ∧ (List.filter is_callback tail = []
             ∨ List.filter is_callback tail = [EvRunSync afterAssociate])
          ∧ EvRunSync beforeAssociate ∉ tail.
Proof.
  intros Hrun. apply conclusion_outcomes in Hrun.
  destruct Hrun as [(e & -> & ->)|(mid & alias & -> & Hmid & ->)].
  - exists [EvRunSync afterAssociate]. split; [done|]. split; [by right|].
    intros Hin. apply list_elem_of_singleton in Hin. discriminate.
  - exists (mid ++ [EvCheckNamingCollision alias])%list. split; [done|].
    destruct Hmid as [[-> _]| ->]; (split; [cbn; eauto|]); intros Hin;
      repeat (apply elem_of_cons in Hin as [[=]|Hin]); by apply not_elem_of_nil in Hin.
Qed.

(** X16. `defineAssociation` writes nothing of its own: in a declaration
    whose normalizer, hooks and builder leave the store as they find it,
    the store after the call is the store before it, however the call
    ends. Every write of a declaration is a write of a callback. *)
Theorem declaration_writes_nothing_itself (w : World) :
  (∀ w0, snd (normalizeOptions type options source target w0) = w0) →
  (∀ name context o w0, snd (runSync source name context o w0) = w0) →
  (∀ o w0, snd (construct o w0) = w0) →
  fst (snd (run declare w)) = w.
Proof.
  intros Hnorm Hhooks Hbuild.
  assert (∀ name context o w0 t r w1 t1,
            runHooks source name context o (w0, t) = (r, (w1, t1)) → w1 = w0) as Hrh.
  { intros name context o w0 t r w1 t1. rewrite runHooks_run.
    destruct (truthy _); intros [= _ <- _]; [apply Hhooks|done]. }
  rewrite declare_run, bind_run.
  destruct (validation type source target options parent normalizeOptions (w, []))
    as [[opts|e] [wv tv]] eqn:Hv.
  - apply validation_Normal_inv in Hv as (wn & Hn & [= -> ->]).
    assert (wn = w) as ->.
    { specialize (Hnorm w). by rewrite Hn in Hnorm. }
    rewrite bind_run.
    destruct (construction _ _ _ _ _ _ _) as [rk [wk tk]] eqn:Hk.
    assert (wk = w) as ->.
    { destruct (runHooks source beforeAssociate
                  (hook_context type source target (model_sequelize (w !!! source)) None)
                  opts (w, ([] ++ validated opts)%list))
        as [[options1|e] [w1 t1]] eqn:Hhook.
      - pose proof (Hrh _ _ _ _ _ _ _ _ Hhook) as ->.
        destruct (model_associations (w !!! source) !! alias_of options1)
          as [existing|] eqn:Hreg.
        + rewrite (construction_reuses _ _ _ _ _ _ _ _ _ _ _ _ Hhook Hreg) in Hk.
          by injection Hk as _ <- _.
        + rewrite (construction_builds _ _ _ _ _ _ _ _ _ _ _ Hhook Hreg) in Hk.
          specialize (Hbuild options1 w).
          destruct (construct options1 w) as [[r0|error] w2]; cbn in Hbuild; subst w2;
            by injection Hk as _ <- _.
      - pose proof (Hrh _ _ _ _ _ _ _ _ Hhook) as ->.
        rewrite (construction_hook_throws _ _ _ _ _ _ _ _ _ _ Hhook) in Hk.
        by injection Hk as _ <- _. }
    destruct rk as [rk|e]; [|done].
    destruct (conclusion _ _ _ _ _ _ _) as [r' [w' t']] eqn:Hc. cbn [fst snd].
    unfold conclusion in Hc. rewrite bind_run in Hc.
    destruct (runHooks source afterAssociate _ _ _) as [[options2|e] [w2 t2]] eqn:Hafter.
    + pose proof (Hrh _ _ _ _ _ _ _ _ Hafter) as ->.
      rewrite bind_run, checkNamingCollision_run in Hc.
      destruct (bool_decide _); by injection Hc as _ <- _.
    + pose proof (Hrh _ _ _ _ _ _ _ _ Hafter) as ->. by injection Hc as _ <- _.
  - cbn [fst snd].
    apply validation_outcomes in Hv as [(? & _ & -> & _)|[-> _]]; [done|apply Hnorm].
Qed.

Lemma validation_reaches_uniqueness (w wn : World) t normalizedOptions :
  isModelStatic w target = true →
  is_Some (model_sequelize (w !!! source)) →
  is_Some (model_sequelize (w !!! target)) →
  normalizeOptions type options source target w = (Normal normalizedOptions, wn) →
  model_attributes (wn !!! source) !! alias_of normalizedOptions = None →
  validation type source target options parent normalizeOptions (w, t)
  = (assertAssociationUnique type source target normalizedOptions parent;;
     mret normalizedOptions)
      (wn, (t ++ [EvNormalizeOptions;
                  EvCheckNamingCollision (alias_of normalizedOptions)])%list).
Proof.
  intros Hm Hs1 Hs2 Hn Hfree.
  rewrite validation_upto_normalize by done.
  rewrite bind_run. unfold call at 1. cbn [fst snd]. rewrite Hn.
  rewrite bind_run, checkNamingCollision_free by done.
  by rewrite <- app_assoc.
Qed.

(** X17. Two top-level declarations under one alias: a declaration without a
    parent that finds, under its alias, an association that is its own
    root and has no parent always fails, with the `AssociationError` that
    two associations have the same name, whether the two are of the same
    type, target and options or not. The message that names what differs
    is not the one a top-level redeclaration gets. *)
Theorem top_level_redeclaration_fails (w wn : World) (normalizedOptions : Obj)
    (existing : Association) :
  isModelStatic w target = true →
  is_Some (model_sequelize (w !!! source)) →
  is_Some (model_sequelize (w !!! target)) →
  normalizeOptions type options source target w = (Normal normalizedOptions, wn) →
  model_attributes (wn !!! source) !! alias_of normalizedOptions = None →
  model_associations (wn !!! source) !! alias_of normalizedOptions = Some existing →
  parent = None →
  parentAssociation existing = None →
  rootAssociation existing = assoc_id existing →
  run declare w
  = (Throw (mkError AssociationErrorC
              (MsgSameName (alias_of normalizedOptions) (model_name (wn !!! source)))
              None),
     (wn, validated normalizedOptions)).
Proof.
  intros Hm Hs1 Hs2 Hn Hfree Hreg Hparent Hnoparent Hroot.
  rewrite declare_run, bind_run.
  rewrite (validation_reaches_uniqueness w wn [] normalizedOptions) by done.
  rewrite bind_run. unfold assertAssociationUnique. unfold_M.
  rewrite Hreg, Hparent, Hnoparent, Hroot.
  rewrite (bool_decide_eq_false_2 (is_Some (@None Association)))
    by (intros [? ?]; discriminate).
  rewrite (bool_decide_eq_false_2 (is_Some (@None nat)))
    by (intros [? ?]; discriminate).
  rewrite (bool_decide_eq_true_2 (assoc_id existing = assoc_id existing)) by done.
  reflexivity.
Qed.

(** X18. A leg declared for a composite that clashes with the association
    under its alias: with a parent given and a classification other than
    `null`, the declaration fails with the `AssociationError` that
    describes the clash, naming the parent, the two types, and the category
    of the difference: types, targets or options, as classified. *)
Theorem composite_clash_diagnostic (w wn : World) (normalizedOptions : Obj)
    (existing p : Association) (status : IncompatibilityStatus) :
  isModelStatic w target = true →
  is_Some (model_sequelize (w !!! source)) →
  is_Some (model_sequelize (w !!! target)) →
  normalizeOptions type options source target w = (Normal normalizedOptions, wn) →
  model_attributes (wn !!! source) !! alias_of normalizedOptions = None →
  model_associations (wn !!! source) !! alias_of normalizedOptions = Some existing →
  parent = Some p →
  getAssociationsIncompatibilityStatus wn existing type target normalizedOptions
  = Some status →
  run declare w
  = (Throw (mkError AssociationErrorC
              (MsgIncompatible (Some (assoc_as p)) (type_name type)
                 (alias_of normalizedOptions)
                 (model_name (wn !!! source)) (model_name (wn !!! target))
                 (associationType existing) (rootAssociation existing)
                 match status with
                 | DIFFERENT_TYPES => TypesDiffer
                 | DIFFERENT_TARGETS => TargetsDiffer
                 | DIFFERENT_OPTIONS => OptionsNotReconcilable
                 end)
              None),
     (wn, validated normalizedOptions)).
Proof.
  intros Hm Hs1 Hs2 Hn Hfree Hreg Hparent Hstatus.
  rewrite declare_run, bind_run.
  rewrite (validation_reaches_uniqueness w wn [] normalizedOptions) by done.
  rewrite bind_run. unfold assertAssociationUnique. unfold_M.
  rewrite Hreg, Hparent, Hstatus.
  rewrite (bool_decide_eq_false_2 (Some status = None)) by discriminate.
  rewrite andb_false_r.
  rewrite (bool_decide_eq_true_2 (is_Some (Some p))) by eauto.
  cbn [negb andb fmap option_fmap option_map].
  by destruct status.
Qed.

End DeclarationMore.

(* ================================================================== *)
(** ** The further properties at work *)
(* ================================================================== *)

Section MoreWorked.
Import Example Scenario.

#[local] Existing Instance quiet.

(** `User.hasMany(Post, { as: { plural: 'articles', singular: 'article' } })`
    is registered under "articles". *)
Lemma normalize_object_alias_witness :
  ∃ normalized,
    normalizeBaseAssociationOptions store HasMany {[ "as" := JObj articles ]} user post
    = Normal normalized
    ∧ normalized !! "name" = Some (JObj articles)
    ∧ normalized !! "as" = Some (JStr "articles")
    ∧ alias_of normalized = "articles".
Proof.
  apply (normalize_object_alias store HasMany {[ "as" := JObj articles ]} user post articles);
    reflexivity.
Defined.

(** `User.belongsTo(Post)` is registered under "post", the singular of
    the target. *)
Lemma normalize_default_alias_witness :
  ∃ normalized,
    normalizeBaseAssociationOptions store BelongsTo ∅ user post = Normal normalized
    ∧ normalized !! "name"
      = Some (JObj {[ "singular" := JStr "post"; "plural" := JStr "posts" ]})
    ∧ alias_of normalized = "post".
Proof.
  apply (normalize_default_alias store BelongsTo ∅ user post); reflexivity.
Defined.

(** `{ as: 'posts', scope: undefined, through: 'likes' }`: `through` is
    carried over, `scope` is dropped. *)
Lemma normalize_keeps_other_options_witness :
  <["through" := JStr "likes"]> posts_options !! "hooks" = Some (JBool false)
  ∧ <["through" := JStr "likes"]> posts_options !! "through" = Some (JStr "likes")
  ∧ <["through" := JStr "likes"]> posts_options !! "scope" = None.
Proof.
  pose proof (normalize_keeps_other_options store HasMany
                {[ "as" := JStr "posts"; "scope" := JUndefined; "through" := JStr "likes" ]}
                user post (<["through" := JStr "likes"]> posts_options)) as Hkeeps.
  destruct Hkeeps as (Hhooks & _ & _ & Hothers & _); [vm_compute; reflexivity |].
  split; [exact Hhooks |]. split.
  - rewrite (Hothers "through") by discriminate. reflexivity.
  - rewrite (Hothers "scope") by discriminate. reflexivity.
Defined.

(** The association declared with `inverse: 'author'` is classified as the
    one declared without, against options with and without `inverse`. *)
Lemma classifier_ignores_inverse_witness :
  getAssociationsIncompatibilityStatus store posts_with_inverse HasMany post
    (<["inverse" := JStr "writer"]> posts_options)
  = getAssociationsIncompatibilityStatus store (posts_of None) HasMany post posts_options.
Proof.
  apply (classifier_ignores_inverse store (posts_of None) posts_with_inverse HasMany post
           (<["inverse" := JStr "writer"]> posts_options) posts_options).
  - reflexivity.
  - reflexivity.
  - vm_compute. reflexivity.
  - vm_compute. reflexivity.
Defined.

(** The attribute made for `{ onDelete: 'RESTRICT' }` goes through
    unchanged a second time. *)
Lemma addForeignKeyConstraints_idempotent_witness :
  addForeignKeyConstraints store
    {[ "references" := JObj {[ "model" := JStr "Users"; "key" := JStr "id" ]};
       "onDelete" := JStr "RESTRICT"; "onUpdate" := JStr "CASCADE" ]} user ∅ "id"
  = Normal {[ "references" := JObj {[ "model" := JStr "Users"; "key" := JStr "id" ]};
              "onDelete" := JStr "RESTRICT"; "onUpdate" := JStr "CASCADE" ]}.
Proof.
  apply (addForeignKeyConstraints_idempotent store {[ "onDelete" := JStr "RESTRICT" ]}).
  vm_compute. reflexivity.
Defined.

(** `User.hasMany(Post, { onDelete: 'CASCADE' })`: the error of the
    normalizer is the error of the declaration. *)
Lemma normalizer_error_propagates_witness :
  run (defineAssociation HasMany user post {[ "onDelete" := JStr "CASCADE" ]} None
         normalize (construct_association 1 HasMany user post None)) store
  = (Throw (mkError ErrorC MsgOnDeleteOnUpdateMoved None), (store, [EvNormalizeOptions])).
Proof.
  apply (normalizer_error_propagates HasMany user post {[ "onDelete" := JStr "CASCADE" ]}
           None normalize (construct_association 1 HasMany user post None) store store).
  - reflexivity.
  - eexists. reflexivity.
  - eexists. reflexivity.
  - reflexivity.
Defined.

(** `User.hasMany(Post, { as: 'posts', hooks: true })` with a failing
    `beforeAssociate` hook, and with a failing `afterAssociate` hook: the
    second leaves the association registered. *)
Lemma hook_error_propagates_witness :
  run (hasMany_posts_hooked (H:=with_throwing_hook beforeAssociate)) store
  = (Throw (mkError ErrorC (MsgOther "hook failed") None),
     (store, (validated posts_options_hooked ++ [EvRunSync beforeAssociate])%list))
  ∧ run (hasMany_posts_hooked (H:=with_throwing_hook afterAssociate)) store
    = (Throw (mkError ErrorC (MsgOther "hook failed") None),
       (<[user := set_associations
                    (insert "posts"
                       {| assoc_id := 1; associationType := "HasMany"; assoc_source := user;
                          assoc_target := post; assoc_as := "posts";
                          assoc_options := posts_options_hooked;
                          parentAssociation := None; rootAssociation := 1;
                          accessors := ∅ |}) User]> store,
        (validated posts_options_hooked
         ++ [EvRunSync beforeAssociate; EvConstruct; EvRunSync afterAssociate])%list)).
Proof.
  split.
  - refine (proj1 (hook_error_propagates (H:=with_throwing_hook beforeAssociate)
                     HasMany user post {[ "as" := JStr "posts"; "hooks" := JBool true ]} None
                     normalize (construct_association 1 HasMany user post None)
                     store store posts_options_hooked _ _ _ _ _ _ _) _ _ _).
    + reflexivity.
    + eexists. reflexivity.
    + eexists. reflexivity.
    + vm_compute. reflexivity.
    + vm_compute. reflexivity.
    + vm_compute. reflexivity.
    + vm_compute. reflexivity.
    + reflexivity.
  - refine (proj2 (hook_error_propagates (H:=with_throwing_hook afterAssociate)
                     HasMany user post {[ "as" := JStr "posts"; "hooks" := JBool true ]} None
                     normalize (construct_association 1 HasMany user post None)
                     store store posts_options_hooked _ _ _ _ _ _ _)
              posts_options_hooked store _ posts_options_hooked _ _ _ _ _ _ _ _).
    + reflexivity.
    + eexists. reflexivity.
    + eexists. reflexivity.
    + vm_compute. reflexivity.
    + vm_compute. reflexivity.
    + vm_compute. reflexivity.
    + vm_compute. reflexivity.
    + reflexivity.
    + vm_compute. reflexivity.
    + vm_compute. reflexivity.
    + vm_compute. reflexivity.
    + reflexivity.
Defined.

(** A first `User.hasMany(Post, { as: 'posts' })`. *)
Lemma fresh_declaration_witness :
  run (hasMany_posts None) store
  = (Normal (posts_of None),
     (after_hasMany_posts None,
      (validated posts_options ++ [EvConstruct; EvCheckNamingCollision "posts"])%list)).
Proof.
  apply (fresh_declaration HasMany user post {[ "as" := JStr "posts" ]} None normalize
           (construct_association 1 HasMany user post None)
           store store (after_hasMany_posts None) posts_options posts_options (posts_of None)).
  - reflexivity.
  - eexists. reflexivity.
  - eexists. reflexivity.
  - vm_compute. reflexivity.
  - vm_compute. reflexivity.
  - vm_compute. reflexivity.
  - reflexivity.
  - vm_compute. reflexivity.
  - reflexivity.
  - vm_compute. reflexivity.
Defined.

(** `User.hasMany(Post, { as: 'posts' })` with a builder that fails
    before writing: the store is as before. *)
Lemma declaration_writes_nothing_itself_witness :
  fst (snd (run (defineAssociation HasMany user post {[ "as" := JStr "posts" ]} None
                   normalize failing_builder) store))
  = store.
Proof.
  apply (declaration_writes_nothing_itself HasMany user post {[ "as" := JStr "posts" ]}
           None normalize failing_builder store).
  - intros w0. reflexivity.
  - intros name context o w0. reflexivity.
  - intros o w0. reflexivity.
Defined.

(** `User.belongsTo(Post, { as: 'posts' })` after
    `User.hasMany(Post, { as: 'posts' })`: the error does not say that the
    types differ. *)
Lemma top_level_redeclaration_fails_witness :
  run (belongsTo_posts None) (after_hasMany_posts None)
  = (Throw (mkError AssociationErrorC (MsgSameName "posts" "User") None),
     (after_hasMany_posts None, validated posts_options_single)).
Proof.
  apply (top_level_redeclaration_fails BelongsTo user post {[ "as" := JStr "posts" ]} None
           normalize (construct_association 2 BelongsTo user post None)
           (after_hasMany_posts None) (after_hasMany_posts None) posts_options_single
           (posts_of None)).
  - reflexivity.
  - eexists. reflexivity.
  - eexists. reflexivity.
  - vm_compute. reflexivity.
  - vm_compute. reflexivity.
  - vm_compute. reflexivity.
  - reflexivity.
  - reflexivity.
  - reflexivity.
Defined.

(** The same clash between two legs of the composite "taggedPosts". *)
Lemma composite_clash_diagnostic_witness :
  run (belongsTo_posts (Some through)) (after_hasMany_posts (Some through))
  = (Throw (mkError AssociationErrorC
              (MsgIncompatible (Some "taggedPosts") "BelongsTo" "posts" "User" "Post"
                 "HasMany" 7 TypesDiffer) None),
     (after_hasMany_posts (Some through), validated posts_options_single)).
Proof.
  apply (composite_clash_diagnostic BelongsTo user post {[ "as" := JStr "posts" ]}
           (Some through) normalize (construct_association 2 BelongsTo user post (Some through))
           (after_hasMany_posts (Some through)) (after_hasMany_posts (Some through))
           posts_options_single (posts_of (Some through)) through DIFFERENT_TYPES).
  - reflexivity.
  - eexists. reflexivity.
  - eexists. reflexivity.
  - vm_compute. reflexivity.
  - vm_compute. reflexivity.
  - vm_compute. reflexivity.
  - reflexivity.
  - vm_compute. reflexivity.
Defined.

End MoreWorked.

(* ================================================================== *)
(** ** Operator aliases *)
(* ================================================================== *)

Lemma own_assign_eq k v o : own k (assign k v o) = Some v.
Proof.
  induction o as [| [k' v'] rest IH]; cbn.
  - by rewrite decide_True.
  - destruct (decide (k = k')) as [-> | Hne]; cbn.
    + by rewrite decide_True.
    + by rewrite decide_False.
Qed.

Lemma own_assign_ne k k' v o : k ≠ k' → own k' (assign k v o) = own k' o.
Proof.
  intros Hne. induction o as [| [k'' v''] rest IH]; cbn.
  - rewrite decide_False; [done | congruence].
  - destruct (decide (k = k'')) as [-> | Hne']; cbn.
    + rewrite !decide_False; [done | congruence | congruence].
    + destruct (decide (k' = k'')); [done | apply IH].
Qed.

Lemma own_None k o : own k o = None ↔ k ∉ o.*1.
Proof.
  induction o as [| [k' v'] rest IH]; cbn.
  - split; [intros _; apply not_elem_of_nil | done].
  - rewrite not_elem_of_cons. destruct (decide (k = k')) as [-> | Hne].
    + split; [done | intros [? _]; done].
    + rewrite IH. tauto.
Qed.

Lemma own_is_Some k o : is_Some (own k o) ↔ k ∈ o.*1.
Proof.
  pose proof (own_None k o) as Hnone. destruct (own k o) as [v |].
  - split; [| by eauto]. intros _. destruct (decide (k ∈ o.*1)) as [Hin | Hnin]; [done |].
    by apply Hnone in Hnin.
  - split; [by intros [? [=]] |]. intros Hin. by destruct (proj1 Hnone).
Qed.

Lemma own_set_property k k' v o :
  k' ≠ KStr "__proto__" →
  own k' (set_property k v o) = if decide (k = k') then Some v else own k' o.
Proof.
  intros Hproto. unfold set_property.
  destruct (decide (k = KStr "__proto__")) as [-> | Hk].
  - rewrite decide_False; [done | congruence].
  - destruct (decide (k = k')) as [-> | Hne]; [apply own_assign_eq | by apply own_assign_ne].
Qed.

Lemma own_set_property_proto k v o :
  own (KStr "__proto__") (set_property k v o) = own (KStr "__proto__") o.
Proof.
  unfold set_property. destruct (decide (k = KStr "__proto__")); [done |].
  by apply own_assign_ne.
Qed.

Section OperatorFacts.
Variable getOperators : Entries → list string.
Variable inherited : string → option Key.

Lemma own_replaced (replace : Where → Where) k (orig : Entries) :
  own k (map (λ entry, (entry.1, replace entry.2)) orig) = replace <$> own k orig.
Proof.
  induction orig as [| [k' v] rest IH]; cbn; [done |].
  destruct (decide (k = k')); [done | apply IH].
Qed.

Lemma last_aliased_replaced (replace : Where → Where) m k (orig : Entries) :
  last_aliased inherited m k (map (λ entry, (entry.1, replace entry.2)) orig)
  = replace <$> last_aliased inherited m k orig.
Proof.
  induction orig as [| [[prop | s] v] rest IH]; cbn; [done | | apply IH].
  rewrite IH. destruct (last_aliased inherited m k rest); cbn; [done |].
  by destruct (decide _).
Qed.

Lemma own_copy_aliased m k entries : ∀ obj,
  k ≠ KStr "__proto__" →
  own k (fold_left (copy_aliased inherited m) entries obj)
  = match last_aliased inherited m k entries with
    | Some item => Some item
    | None => own k obj
    end.
Proof.
  induction entries as [| [[prop | s] v] rest IH]; intros obj Hk; cbn; [done | | by apply IH].
  rewrite IH by done. destruct (last_aliased inherited m k rest); [done |].
  rewrite own_set_property by done. by destruct (decide _).
Qed.

Lemma own_copy_aliased_proto m entries : ∀ obj,
  own (KStr "__proto__") (fold_left (copy_aliased inherited m) entries obj)
  = own (KStr "__proto__") obj.
Proof.
  induction entries as [| [[prop | s] v] rest IH]; intros obj; cbn; [done | | apply IH].
  rewrite IH. apply own_set_property_proto.
Qed.

Lemma own_copy_operator replaced operators k : ∀ obj,
  own k (fold_left (copy_operator replaced) operators obj)
  = match k with
    | KSym s =>
        if decide (s ∈ operators)
        then Some (default (WLeaf SUndefined) (own k replaced))
        else own k obj
    | KStr _ => own k obj
    end.
Proof.
  induction operators as [| op rest IH]; intros obj; cbn.
  - destruct k; [done |]. rewrite decide_False; [done | apply not_elem_of_nil].
  - rewrite IH. unfold copy_operator. destruct k as [p | s].
    + unfold set_property. rewrite decide_False by done. by apply own_assign_ne.
    + destruct (decide (s ∈ rest)) as [Hin | Hnin].
      * rewrite decide_True; [done | by right].
      * rewrite own_set_property by done.
        destruct (decide (op = s)) as [-> | Hne].
        -- rewrite !decide_True; [done | left | done].
        -- rewrite !decide_False; [done | | congruence].
           rewrite not_elem_of_cons. split; [congruence | done].
Qed.


Lemma last_aliased_None m k (entries : Entries) :
  last_aliased inherited m k entries = None
  ↔ ∀ prop, KStr prop ∈ entries.*1 → aliased inherited m prop ≠ k.
Proof.
  induction entries as [| [[prop | s] v] rest IH]; cbn.
  - split; [intros _ ? Hin; by apply elem_of_nil in Hin | done].
  - destruct (last_aliased inherited m k rest) as [later |].
    + split; [done |]. intros Hall. apply IH. intros q Hq. apply Hall. by right.
    + destruct (decide (aliased inherited m prop = k)) as [Heq | Hne].
      * split; [done |]. intros Hall. destruct (Hall prop); [left | done].
      * split; [| done]. intros _ q [[= ->] | Hq]%elem_of_cons; [done |].
        by apply IH.
  - rewrite IH. split; intros Hall q Hq.
    + apply elem_of_cons in Hq as [[=] | Hq]. by apply Hall.
    + apply Hall. by right.
Qed.

Lemma last_aliased_Some m k (entries : Entries) item :
  last_aliased inherited m k entries = Some item →
  ∃ prop, KStr prop ∈ entries.*1 ∧ aliased inherited m prop = k.
Proof.
  induction entries as [| [[prop | s] v] rest IH]; cbn; [done | |].
  - destruct (last_aliased inherited m k rest) as [later |].
    + intros Heq. destruct (IH Heq) as (q & Hq & Hal). exists q. split; [by right | done].
    + destruct (decide (aliased inherited m prop = k)); [| done].
      intros _. exists prop. split; [left | done].
  - intros Hsome. destruct (IH Hsome) as (q & Hq & Hal). exists q. split; [by right | done].
Qed.

Lemma replaceAliases_own (m : AliasMap) (orig : Entries) (k : Key) :
  own k (_replaceAliases getOperators inherited (Some m) orig)
  = if decide (k = KStr "__proto__") then None
    else match last_aliased inherited m k orig with
         | Some item => Some (replaceItem getOperators inherited (Some m) item)
         | None =>
             match k with
             | KSym s =>
                 if decide (s ∈ getOperators orig)
                 then Some (default (WLeaf SUndefined)
                              (replaceItem getOperators inherited (Some m) <$> own k orig))
                 else None
             | KStr _ => None
             end
         end.
Proof.
  unfold _replaceAliases, replaceAliases_with.
  destruct (decide (k = KStr "__proto__")) as [-> | Hk].
  - rewrite own_copy_aliased_proto, own_copy_operator. done.
  - rewrite own_copy_aliased by done. rewrite last_aliased_replaced.
    destruct (last_aliased inherited m k orig); cbn; [done |].
    rewrite own_copy_operator, own_replaced. destruct k as [p | s]; [done |].
    destruct (decide _); [| done]. by destruct (own (KSym s) orig).
Qed.


(** X20. The keys of the result: the operators of the object, as `getOperators`
    lists them, and the aliases of its string keys; never `__proto__`, and
    no other symbol of the object. *)
Theorem replaceAliases_keys (m : AliasMap) (orig : Entries) (k : Key) :
  k ∈ (_replaceAliases getOperators inherited (Some m) orig).*1
  ↔ k ≠ KStr "__proto__" ∧
    ((∃ op, k = KSym op ∧ op ∈ getOperators orig) ∨
     (∃ prop, KStr prop ∈ orig.*1 ∧ aliased inherited m prop = k)).
Proof.
  rewrite <- own_is_Some, replaceAliases_own.
  pose proof (last_aliased_None m k orig) as Hlast.
  destruct (decide (k = KStr "__proto__")) as [-> | Hk].
  - split; [by intros [? [=]] | by intros [? _]].
  - destruct (last_aliased inherited m k orig) as [item |] eqn:Hitem.
    + split; [| by eauto]. intros _. split; [done |]. right. by eapply last_aliased_Some.
    + destruct Hlast as [Hnone _]. specialize (Hnone eq_refl).
      destruct k as [p | s].
      * split; [by intros [? [=]] |].
        intros [_ [(op & [=] & _) | (q & Hq & Hal)]]. by destruct (Hnone q).
      * destruct (decide (s ∈ getOperators orig)) as [Hin | Hnin].
        -- split; [| by eauto]. intros _. split; [done |]. left. eauto.
        -- split; [by intros [? [=]] |].
           intros [_ [(op & [= ->] & Hop) | (q & Hq & Hal)]]; [done |].
           by destruct (Hnone q).
Qed.



(** X23. Switching the aliases off: after `setOperatorsAliases` with a falsy
    argument or an object without keys, `_replaceAliases` returns its
    argument as it is. *)
Theorem aliases_switched_off (aliases : option AliasMap) (orig : Entries) :
  aliases = None ∨ aliases = Some ∅ →
  _replaceAliases getOperators inherited (setOperatorsAliases aliases) orig = orig.
Proof. by intros [-> | ->]. Qed.

End OperatorFacts.



(** `setOperatorsAliases({})` and `setOperatorsAliases(null)` switch the
    aliases off. *)
Lemma aliases_switched_off_witness :
  _replaceAliases OperatorExample.operators_of OperatorExample.of_Object
    (setOperatorsAliases (Some ∅)) OperatorExample.adults = OperatorExample.adults
  ∧ _replaceAliases OperatorExample.operators_of OperatorExample.of_Object
      (setOperatorsAliases None) OperatorExample.adults = OperatorExample.adults.
Proof.
  split.
  - apply (aliases_switched_off OperatorExample.operators_of OperatorExample.of_Object
             (Some ∅) OperatorExample.adults). right. reflexivity.
  - apply (aliases_switched_off OperatorExample.operators_of OperatorExample.of_Object
             None OperatorExample.adults). left. reflexivity.
Defined.

(* ================================================================== *)
(** ** A declaration, callback by callback *)
(* ================================================================== *)

Section Steps.
Context `{Collaborators}.
Variables (type : AssociationStatic) (source target : ModelRef).
Variables (options : Obj) (parent : option Association).
Variable normalizeOptions :
  AssociationStatic → Obj → ModelRef → ModelRef → World → Completion Obj * World.
Variable construct : Obj → World → Completion (Association * Obj) * World.

#[local] Abbreviation declare :=
  (defineAssociation type source target options parent normalizeOptions construct).

(** A declaration that gets through its checks goes on from the store the
    normalizer left. *)
Lemma declaration_passes (w wn : World) normalizedOptions :
  isModelStatic w target = true →
  is_Some (model_sequelize (w !!! source)) →
  is_Some (model_sequelize (w !!! target)) →
  normalizeOptions type options source target w = (Normal normalizedOptions, wn) →
  model_attributes (wn !!! source) !! alias_of normalizedOptions = None →
  reusable wn type source target normalizedOptions parent = true →
  run declare w
  = (r ← construction type source target parent construct normalizedOptions;
     conclusion type source target r.1 r.2.1 r.2.2)
      (wn, validated normalizedOptions).
Proof.
  intros Hm Hs1 Hs2 Hn Hfree Hre. rewrite declare_run, bind_run.
  by rewrite (validation_passes _ _ _ _ _ _ w wn [] normalizedOptions).
Qed.

(** The middle of a declaration in terms of what the before-hook and the
    builder do. *)
Lemma construction_run normalizedOptions (w : World) t :
  construction type source target parent construct normalizedOptions (w, t)
  = match (if truthy (get normalizedOptions "hooks")
           then runSync source beforeAssociate
                  (hook_context type source target (model_sequelize (w !!! source)) None)
                  normalizedOptions w
           else (Normal normalizedOptions, w)) with
    | (Throw e, w1) => (Throw e, (w1, (t ++ [EvRunSync beforeAssociate])%list))
    | (Normal options1, w1) =>
        let t1 := (t ++ hook_log beforeAssociate normalizedOptions)%list in
        match model_associations (w1 !!! source) !! alias_of options1 with
        | Some existing =>
            (Normal (model_sequelize (w !!! source), (existing, options1)), (w1, t1))
        | None =>
            match construct options1 w1 with
            | (Normal r, w2) =>
                (Normal (model_sequelize (w !!! source), r),
                 (w2, (t1 ++ [EvConstruct])%list))
            | (Throw error, w2) =>
                (Throw (definition_failed type source target parent w2 options1 error),
                 (w2, (t1 ++ [EvConstruct])%list))
            end
        end
    end.
Proof.
  pose proof (runHooks_run source beforeAssociate
                (hook_context type source target (model_sequelize (w !!! source)) None)
                normalizedOptions w t) as Hhook.
  unfold hook_log. destruct (truthy (get normalizedOptions "hooks")).
  - destruct (runSync source beforeAssociate _ normalizedOptions w) as [[options1|e] w1];
      cbn [fst snd] in Hhook.
    + destruct (model_associations (w1 !!! source) !! alias_of options1)
        as [existing|] eqn:Hreg.
      * by rewrite (construction_reuses _ _ _ _ _ _ _ _ _ _ _ _ Hhook Hreg).
      * by rewrite (construction_builds _ _ _ _ _ _ _ _ _ _ _ Hhook Hreg).
    + by rewrite (construction_hook_throws _ _ _ _ _ _ _ _ _ _ Hhook).
  - rewrite app_nil_r.
    destruct (model_associations (w !!! source) !! alias_of normalizedOptions)
      as [existing|] eqn:Hreg.
    + by rewrite (construction_reuses _ _ _ _ _ _ _ _ _ _ _ _ Hhook Hreg).
    + by rewrite (construction_builds _ _ _ _ _ _ _ _ _ _ _ Hhook Hreg).
Qed.

(** The end of a declaration in terms of what the after-hook does. *)
Lemma conclusion_run sequelize association normalizedOptions (w : World) t :
  conclusion type source target sequelize association normalizedOptions (w, t)
  = match (if truthy (get normalizedOptions "hooks")
           then runSync source afterAssociate
                  (hook_context type source target sequelize (Some association))
                  normalizedOptions w
           else (Normal normalizedOptions, w)) with
    | (Throw e, w3) => (Throw e, (w3, (t ++ [EvRunSync afterAssociate])%list))
    | (Normal options3, w3) =>
        (if bool_decide (is_Some (model_attributes (w3 !!! source) !! alias_of options3))
         then Throw (naming_collision w3 source (alias_of options3))
         else Normal association,
         (w3, (t ++ hook_log afterAssociate normalizedOptions
               ++ [EvCheckNamingCollision (alias_of options3)])%list))
    end.
Proof.
  unfold conclusion, hook_log. rewrite bind_run, runHooks_run.
  destruct (truthy (get normalizedOptions "hooks")).
  - destruct (runSync source afterAssociate _ normalizedOptions w) as [[options3|e] w3];
      cbn [fst snd]; [|done].
    rewrite bind_run, checkNamingCollision_run.
    rewrite <- app_assoc. by destruct (bool_decide _).
  - rewrite bind_run, checkNamingCollision_run. by destruct (bool_decide _).
Qed.

(** What a declaration that got through its checks has established. *)
Lemma validation_Normal_facts (w : World) t opts st :
  validation type source target options parent normalizeOptions (w, t) = (Normal opts, st) →
  isModelStatic w target = true
  ∧ is_Some (model_sequelize (w !!! source))
  ∧ is_Some (model_sequelize (w !!! target))
  ∧ ∃ wn, normalizeOptions type options source target w = (Normal opts, wn)
          ∧ model_attributes (wn !!! source) !! alias_of opts = None
          ∧ reusable wn type source target opts parent = true
          ∧ st = (wn, (t ++ validated opts)%list).
Proof.
  intros Hrun.
  destruct (isModelStatic w target) eqn:Hm; cycle 1.
  { unfold validation in Hrun. unfold mbind at 1, M_bind at 1, world in Hrun.
    cbn [fst snd] in Hrun. rewrite Hm in Hrun. discriminate Hrun. }
  destruct (model_sequelize (w !!! source)) as [s1|] eqn:Hs1; cycle 1.
  { unfold validation in Hrun. unfold mbind at 1, M_bind at 1, world in Hrun.
    cbn [fst snd] in Hrun. rewrite Hm in Hrun. cbn [negb] in Hrun.
    rewrite bind_run, assertAssociationModelIsDefined_run, Hs1 in Hrun.
    discriminate Hrun. }
  destruct (model_sequelize (w !!! target)) as [s2|] eqn:Hs2; cycle 1.
  { unfold validation in Hrun. unfold mbind at 1, M_bind at 1, world in Hrun.
    cbn [fst snd] in Hrun. rewrite Hm in Hrun. cbn [negb] in Hrun.
    rewrite bind_run, assertAssociationModelIsDefined_run, Hs1 in Hrun.
    rewrite bind_run, assertAssociationModelIsDefined_run, Hs2 in Hrun.
    discriminate Hrun. }
  split; [done|]. split; [eauto|]. split; [eauto|].
  destruct (normalizeOptions type options source target w) as [[o|e] wn] eqn:Hn;
    cycle 1.
  { rewrite validation_upto_normalize in Hrun by (rewrite ?Hs1, ?Hs2; eauto).
    rewrite bind_run in Hrun. unfold call at 1 in Hrun. cbn [fst snd] in Hrun.
    rewrite Hn in Hrun. discriminate Hrun. }
  destruct (model_attributes (wn !!! source) !! alias_of o) as [attr|] eqn:Hattr.
  { rewrite (validation_collides _ _ _ _ _ _ w wn t o) in Hrun
      by (rewrite ?Hs1, ?Hs2, ?Hattr; eauto).
    discriminate Hrun. }
  destruct (reusable wn type source target o parent) eqn:Hre.
  - rewrite (validation_passes _ _ _ _ _ _ w wn t o) in Hrun
      by (rewrite ?Hs1, ?Hs2; eauto).
    injection Hrun as <- <-. exists wn. by rewrite Hattr.
  - destruct (validation_conflicts type source target options parent normalizeOptions
                w wn t o) as [msg Hv]; try (rewrite ?Hs1, ?Hs2; eauto).
    rewrite Hv in Hrun. discriminate Hrun.
Qed.

Lemma hook_log_no_construct name o : EvConstruct ∉ hook_log name o.
Proof.
  unfold hook_log. destruct (truthy _); [|apply not_elem_of_nil].
  intros Hin. apply list_elem_of_singleton in Hin. discriminate Hin.
Qed.

Lemma validated_no_construct o : EvConstruct ∉ validated o.
Proof.
  intros Hin. unfold validated in Hin.
  repeat (apply elem_of_cons in Hin as [[=]|Hin]). by apply not_elem_of_nil in Hin.
Qed.

(** The whole of a declaration that got through its checks, in terms of
    what the hooks and the builder do. *)
Lemma declaration_run (w wn : World) normalizedOptions :
  isModelStatic w target = true →
  is_Some (model_sequelize (w !!! source)) →
  is_Some (model_sequelize (w !!! target)) →
  normalizeOptions type options source target w = (Normal normalizedOptions, wn) →
  model_attributes (wn !!! source) !! alias_of normalizedOptions = None →
  reusable wn type source target normalizedOptions parent = true →
  run declare w
  = match (if truthy (get normalizedOptions "hooks")
           then runSync source beforeAssociate
                  (hook_context type source target (model_sequelize (wn !!! source)) None)
                  normalizedOptions wn
           else (Normal normalizedOptions, wn)) with
    | (Throw e, w1) =>
        (Throw e, (w1, (validated normalizedOptions ++ [EvRunSync beforeAssociate])%list))
    | (Normal options1, w1) =>
        let t1 := (validated normalizedOptions
                   ++ hook_log beforeAssociate normalizedOptions)%list in
        let after association options2 w2 t2 :=
          match (if truthy (get options2 "hooks")
                 then runSync source afterAssociate
                        (hook_context type source target (model_sequelize (wn !!! source))
                           (Some association))
                        options2 w2
                 else (Normal options2, w2)) with
          | (Throw e, w3) => (Throw e, (w3, (t2 ++ [EvRunSync afterAssociate])%list))
          | (Normal options3, w3) =>
              (if bool_decide
                    (is_Some (model_attributes (w3 !!! source) !! alias_of options3))
               then Throw (naming_collision w3 source (alias_of options3))
               else Normal association,
               (w3, (t2 ++ hook_log afterAssociate options2
                     ++ [EvCheckNamingCollision (alias_of options3)])%list))
          end in
        match model_associations (w1 !!! source) !! alias_of options1 with
        | Some existing => after existing options1 w1 t1
        | None =>
            match construct options1 w1 with
            | (Normal (association, options2), w2) =>
                after association options2 w2 (t1 ++ [EvConstruct])%list
            | (Throw error, w2) =>
                (Throw (definition_failed type source target parent w2 options1 error),
                 (w2, (t1 ++ [EvConstruct])%list))
            end
        end
    end.
Proof.
  intros Hm Hs1 Hs2 Hn Hfree Hre.
  rewrite (declaration_passes w wn normalizedOptions) by done.
  rewrite bind_run, construction_run. cbn [app].
  destruct (if truthy (get normalizedOptions "hooks") then _ else _)
    as [[options1|e] w1]; [|done].
  cbv zeta.
  destruct (model_associations (w1 !!! source) !! alias_of options1) as [existing|].
  - cbn [fst snd]. apply conclusion_run.
  - destruct (construct options1 w1) as [[[association options2]|error] w2]; [|done].
    cbn [fst snd]. apply conclusion_run.
Qed.

End Steps.

(* ================================================================== *)
(** ** The claims on the outcomes of a declaration *)
(* ================================================================== *)

(** Closes a goal with a hypothesis [Hin] that finds an event in a log
    that does not hold it. *)
Ltac not_logged Hin :=
  repeat first [ apply elem_of_app in Hin as [Hin|Hin]
               | apply elem_of_cons in Hin as [Hin|Hin] ];
  first [ discriminate Hin | by apply not_elem_of_nil in Hin | done ].


Section Outcomes.
Context `{Collaborators}.
Variables (type : AssociationStatic) (source target : ModelRef).
Variables (options : Obj) (parent : option Association).
Variable normalizeOptions :
  AssociationStatic → Obj → ModelRef → ModelRef → World → Completion Obj * World.
Variable construct : Obj → World → Completion (Association * Obj) * World.

#[local] Abbreviation declare :=
  (defineAssociation type source target options parent normalizeOptions construct).

(** C5. A declaration whose resolved alias is the name of an attribute of
    the source throws the naming-collision error at the first check, before
    anything else is done and whatever the association type. The check is
    run twice in a declaration that gets through: every declaration that
    runs fewer than two checks has thrown, and one that runs two ran the
    first before every hook and the builder and the second after them. The
    second check is on the alias as the options hold it after the hooks and
    the builder, in the store as they left it: when the before-hook, the
    builder (or the reuse) and the after-hook have returned, the declaration
    throws the naming-collision error if that alias names an attribute of
    the source then, as after a hook has added one, and returns the
    association otherwise. *)
Theorem collision_checked_before_and_after (w : World) :
  (∀ normalizedOptions wn,
     isModelStatic w target = true →
     is_Some (model_sequelize (w !!! source)) →
     is_Some (model_sequelize (w !!! target)) →
     normalizeOptions type options source target w = (Normal normalizedOptions, wn) →
     is_Some (model_attributes (wn !!! source) !! alias_of normalizedOptions) →
     run declare w
     = (Throw (naming_collision wn source (alias_of normalizedOptions)),
        (wn, [EvNormalizeOptions; EvCheckNamingCollision (alias_of normalizedOptions)])))
  ∧ (∀ r w' t',
       run declare w = (r, (w', t')) →
       ((checks t' < 2)%nat ∧ ∃ e, r = Throw e)
       ∨ (checks t' = 2
          ∧ ∃ alias mid alias2,
              t' = ([EvNormalizeOptions; EvCheckNamingCollision alias;
                     EvAssertAssociationUnique alias] ++ mid
                    ++ [EvCheckNamingCollision alias2])%list
              ∧ Forall (λ ev, is_callback ev = true) mid
              ∧ if bool_decide (is_Some (model_attributes (w' !!! source) !! alias2))
                then r = Throw (naming_collision w' source alias2)
                else ∃ association, r = Normal association))
  ∧ (∀ normalizedOptions wn options1 w1 association options2 w2 options3 w3,
       isModelStatic w target = true →
       is_Some (model_sequelize (w !!! source)) →
       is_Some (model_sequelize (w !!! target)) →
       normalizeOptions type options source target w = (Normal normalizedOptions, wn) →
       model_attributes (wn !!! source) !! alias_of normalizedOptions = None →
       fst (assertAssociationUnique type source target normalizedOptions parent (wn, []))
       = Normal () →
       (if truthy (get normalizedOptions "hooks")
        then runSync source beforeAssociate
               (hook_context type source target (model_sequelize (wn !!! source)) None)
               normalizedOptions wn
        else (Normal normalizedOptions, wn)) = (Normal options1, w1) →
       match model_associations (w1 !!! source) !! alias_of options1 with
       | Some existing => (Normal (existing, options1), w1)
       | None => construct options1 w1
       end = (Normal (association, options2), w2) →
       (if truthy (get options2 "hooks")
        then runSync source afterAssociate
               (hook_context type source target (model_sequelize (wn !!! source))
                  (Some association))
               options2 w2
        else (Normal options2, w2)) = (Normal options3, w3) →
       List.filter is_check (snd (snd (run declare w)))
       = [EvCheckNamingCollision (alias_of normalizedOptions);
          EvCheckNamingCollision (alias_of options3)]
       ∧ fst (snd (run declare w)) = w3
       ∧ fst (run declare w)
         = if bool_decide (is_Some (model_attributes (w3 !!! source) !! alias_of options3))
           then Throw (naming_collision w3 source (alias_of options3))
           else Normal association).
Proof.
  split; [|split].
  - intros normalizedOptions wn Hm Hs1 Hs2 Hn Hattr.
    rewrite declare_run, bind_run.
    by rewrite (validation_collides _ _ _ _ _ _ w wn [] normalizedOptions).
  - intros r w' t' Hrun. apply declaration_outcomes in Hrun.
    destruct Hrun as [(Hthrow & _ & Hchecks & _)|(alias & mid & Hmid & _ & Hrest)].
    + left. split; [lia|done].
    + destruct Hrest as [(e & -> & _ & ->)|(alias2 & association & -> & ->)].
      * left. split; [|eauto].
        rewrite checks_app, (checks_callbacks mid) by done. unfold checks. simpl. lia.
      * right. split.
        { rewrite !checks_app, (checks_callbacks mid) by done. unfold checks. simpl. lia. }
        exists alias, mid, alias2. split; [done|]. split; [done|].
        destruct (bool_decide _); eauto.
  - intros normalizedOptions wn options1 w1 association options2 w2 options3 w3
      Hm Hs1 Hs2 Hn Hfree Huniq Hbefore Hmiddle Hafter.
    apply unique_reusable in Huniq.
    rewrite (declaration_run type source target options parent normalizeOptions construct
               w wn normalizedOptions) by done.
    rewrite Hbefore. cbv beta zeta.
    assert (∀ name o, List.filter is_check (hook_log name o) = []) as Hhl.
    { intros name o. unfold hook_log. by destruct (truthy (get o "hooks")). }
    destruct (model_associations (w1 !!! source) !! alias_of options1) as [existing|].
    + injection Hmiddle as <- <- <-. rewrite Hafter. cbn [fst snd].
      split; [|done].
      rewrite !List.filter_app, !Hhl. done.
    + rewrite Hmiddle, Hafter. cbn [fst snd]. split; [|done].
      rewrite !List.filter_app, !Hhl. done.
Qed.

(** The log of a declaration that got through its checks and whose
    before-hook returned has the builder in it exactly when the alias was
    free then. *)
Lemma construct_logged (w wn w1 : World) (normalizedOptions options1 : Obj) :
  isModelStatic w target = true →
  is_Some (model_sequelize (w !!! source)) →
  is_Some (model_sequelize (w !!! target)) →
  normalizeOptions type options source target w = (Normal normalizedOptions, wn) →
  model_attributes (wn !!! source) !! alias_of normalizedOptions = None →
  reusable wn type source target normalizedOptions parent = true →
  (if truthy (get normalizedOptions "hooks")
   then runSync source beforeAssociate
          (hook_context type source target (model_sequelize (wn !!! source)) None)
          normalizedOptions wn
   else (Normal normalizedOptions, wn)) = (Normal options1, w1) →
  EvConstruct ∈ snd (snd (run declare w))
  ↔ model_associations (w1 !!! source) !! alias_of options1 = None.
Proof.
  intros Hm Hs1 Hs2 Hn Hfree Hre Hbefore.
  rewrite (declaration_run type source target options parent normalizeOptions construct
             w wn normalizedOptions) by done.
  rewrite Hbefore. cbv beta zeta.
  pose proof (validated_no_construct normalizedOptions) as Hv.
  pose proof (hook_log_no_construct beforeAssociate normalizedOptions) as Hb.
  destruct (model_associations (w1 !!! source) !! alias_of options1) as [existing|].
  - split; [|done]. intros Hin. exfalso.
    pose proof (hook_log_no_construct afterAssociate options1) as Ha.
    destruct (if truthy (get options1 "hooks") then _ else _) as [[options3|e] w3];
      cbn [fst snd] in Hin;
      repeat (apply elem_of_app in Hin as [Hin|Hin]); try done;
      apply list_elem_of_singleton in Hin; discriminate Hin.
  - split; [done|]. intros _.
    destruct (construct options1 w1) as [[[association options2]|error] w2].
    + destruct (if truthy (get options2 "hooks") then _ else _) as [[options3|e] w3];
        cbn [fst snd]; rewrite <- !app_assoc;
        apply elem_of_app; right; apply elem_of_app; right; apply list_elem_of_here.
    + cbn [fst snd]. apply elem_of_app. right. apply list_elem_of_here.
Qed.


(** C2 (as amended). When the resolved alias is taken, the declaration is
    let through exactly when the classification is `null` and the call or
    the existing association belongs to a composite (a parent is given, or
    `parentAssociation` is set): the uniqueness check then returns. The
    declaration then returns the existing association, without calling the
    builder, when the before-hook leaves that association under the alias,
    the after-hook returns and the alias names no attribute then (the
    hooks being run only when hooks are on); so it does whenever hooks are
    off. In every other case the declaration throws an `AssociationError`
    at the uniqueness check, having called no hook and no builder. *)
Theorem reuse_policy (w wn : World) (normalizedOptions : Obj) (existing : Association) :
  isModelStatic w target = true →
  is_Some (model_sequelize (w !!! source)) →
  is_Some (model_sequelize (w !!! target)) →
  normalizeOptions type options source target w = (Normal normalizedOptions, wn) →
  model_attributes (wn !!! source) !! alias_of normalizedOptions = None →
  model_associations (wn !!! source) !! alias_of normalizedOptions = Some existing →
  let status :=
    getAssociationsIncompatibilityStatus wn existing type target normalizedOptions in
  let composite :=
    bool_decide (is_Some parent) || bool_decide (is_Some (parentAssociation existing)) in
  (status = None ∧ composite = true →
   (∀ t, fst (assertAssociationUnique type source target normalizedOptions parent (wn, t))
         = Normal ())
   ∧ (∀ options1 w1 options3 w3,
        (if truthy (get normalizedOptions "hooks")
         then runSync source beforeAssociate
                (hook_context type source target (model_sequelize (wn !!! source)) None)
                normalizedOptions wn
         else (Normal normalizedOptions, wn)) = (Normal options1, w1) →
        model_associations (w1 !!! source) !! alias_of options1 = Some existing →
        (if truthy (get options1 "hooks")
         then runSync source afterAssociate
                (hook_context type source target (model_sequelize (wn !!! source))
                   (Some existing))
                options1 w1
         else (Normal options1, w1)) = (Normal options3, w3) →
        model_attributes (w3 !!! source) !! alias_of options3 = None →
        fst (run declare w) = Normal existing
        ∧ fst (snd (run declare w)) = w3
        ∧ (EvConstruct ∉ snd (snd (run declare w))))
   ∧ (truthy (get normalizedOptions "hooks") = false →
      run declare w
      = (Normal existing,
         (wn, (validated normalizedOptions
               ++ [EvCheckNamingCollision (alias_of normalizedOptions)])%list))))
  ∧ (¬ (status = None ∧ composite = true) →
     ∃ msg,
       run declare w
       = (Throw (mkError AssociationErrorC msg None), (wn, validated normalizedOptions))).
Proof.
  intros Hm Hs1 Hs2 Hn Hfree Hreg status composite.
  pose proof (reusable_taken type source target parent wn normalizedOptions existing Hreg)
    as Hre.
  fold status composite in Hre.
  split.
  - intros [Hstatus Hcomp].
    rewrite Hstatus, Hcomp in Hre. cbn in Hre.
    pose proof (declaration_run type source target options parent normalizeOptions
                  construct w wn normalizedOptions Hm Hs1 Hs2 Hn Hfree Hre) as Hrun.
    split; [|split].
    + intros t.
      destruct (assertAssociationUnique_run type source target normalizedOptions parent
                  wn t) as (r & Hu & Hok & _).
      rewrite Hu. cbn. by apply Hok.
    + intros options1 w1 options3 w3 Hbefore Hreg1 Hafter Hfree3.
      split; [|split].
      * rewrite Hrun, Hbefore. cbv beta zeta. rewrite Hreg1, Hafter. cbn [fst].
        rewrite bool_decide_eq_false_2; [done|]. rewrite Hfree3. by intros [? ?].
      * rewrite Hrun, Hbefore. cbv beta zeta. by rewrite Hreg1, Hafter.
      * intros Hin.
        apply (construct_logged w wn w1 normalizedOptions options1) in Hin; try done.
        congruence.
    + intros Hoff. rewrite Hrun, Hoff. cbv beta zeta. rewrite Hreg, Hoff.
      rewrite bool_decide_eq_false_2 by (rewrite Hfree; by intros [? ?]).
      unfold hook_log. rewrite Hoff. by rewrite app_nil_r.
  - intros Hnot.
    assert (reusable wn type source target normalizedOptions parent = false) as Hre'.
    { rewrite Hre. apply andb_false_iff.
      destruct composite; [right|by left].
      apply bool_decide_eq_false_2. intros Hstatus. by apply Hnot. }
    destruct (validation_conflicts type source target options parent normalizeOptions
                w wn [] normalizedOptions)
      as [msg Hv]; try done.
    exists msg. by rewrite declare_run, bind_run, Hv.
Qed.

(** C4 (as amended). `defineAssociation` never puts a second association
    under an occupied alias: the builder, which registers the association,
    is called exactly when the registry of the source holds nothing under
    the alias after the before-hook. A declaration that throws before it
    has called a hook or the builder (the target is not a model, a model is
    not initialised, the normalizer throws, the alias names an attribute,
    the alias is taken by an association that cannot be reused) leaves the
    store as the normalizer left it, and untouched when the normalizer was
    not reached; in particular a declaration that finds an incompatible
    association under its alias throws an `AssociationError`, and the
    registry is the one the normalizer left. And nothing is undone: when
    the builder throws, when the after-hook throws and when the second
    collision check throws, the store is as the last callback left it. *)
Theorem failure_before_callbacks_keeps_registry (w : World) :
  (∀ e w' t',
     run declare w = (Throw e, (w', t')) →
     Forall (λ ev, is_callback ev = false) t' →
     w' = if bool_decide (EvNormalizeOptions ∈ t')
          then snd (normalizeOptions type options source target w) else w)
  ∧ (∀ normalizedOptions wn existing,
       isModelStatic w target = true →
       is_Some (model_sequelize (w !!! source)) →
       is_Some (model_sequelize (w !!! target)) →
       normalizeOptions type options source target w = (Normal normalizedOptions, wn) →
       model_attributes (wn !!! source) !! alias_of normalizedOptions = None →
       model_associations (wn !!! source) !! alias_of normalizedOptions = Some existing →
       getAssociationsIncompatibilityStatus wn existing type target normalizedOptions
       ≠ None →
       ∃ msg w' t',
         run declare w = (Throw (mkError AssociationErrorC msg None), (w', t'))
         ∧ model_associations (w' !!! source) = model_associations (wn !!! source)
         ∧ Forall (λ ev, is_callback ev = false) t')
  ∧ (∀ normalizedOptions wn options1 w1,
       isModelStatic w target = true →
       is_Some (model_sequelize (w !!! source)) →
       is_Some (model_sequelize (w !!! target)) →
       normalizeOptions type options source target w = (Normal normalizedOptions, wn) →
       model_attributes (wn !!! source) !! alias_of normalizedOptions = None →
       fst (assertAssociationUnique type source target normalizedOptions parent (wn, []))
       = Normal () →
       (if truthy (get normalizedOptions "hooks")
        then runSync source beforeAssociate
               (hook_context type source target (model_sequelize (wn !!! source)) None)
               normalizedOptions wn
        else (Normal normalizedOptions, wn)) = (Normal options1, w1) →
       (EvConstruct ∈ snd (snd (run declare w))
        ↔ model_associations (w1 !!! source) !! alias_of options1 = None)
       ∧ (∀ error w2,
            model_associations (w1 !!! source) !! alias_of options1 = None →
            construct options1 w1 = (Throw error, w2) →
            fst (run declare w)
            = Throw (definition_failed type source target parent w2 options1 error)
            ∧ fst (snd (run declare w)) = w2)
       ∧ (∀ association options2 w2,
            match model_associations (w1 !!! source) !! alias_of options1 with
            | Some existing => (Normal (existing, options1), w1)
            | None => construct options1 w1
            end = (Normal (association, options2), w2) →
            (∀ e w3,
               (if truthy (get options2 "hooks")
                then runSync source afterAssociate
                       (hook_context type source target (model_sequelize (wn !!! source))
                          (Some association))
                       options2 w2
                else (Normal options2, w2)) = (Throw e, w3) →
               fst (run declare w) = Throw e ∧ fst (snd (run declare w)) = w3)
            ∧ (∀ options3 w3,
                 (if truthy (get options2 "hooks")
                  then runSync source afterAssociate
                         (hook_context type source target
                            (model_sequelize (wn !!! source)) (Some association))
                         options2 w2
                  else (Normal options2, w2)) = (Normal options3, w3) →
                 is_Some (model_attributes (w3 !!! source) !! alias_of options3) →
                 fst (run declare w) = Throw (naming_collision w3 source (alias_of options3))
                 ∧ fst (snd (run declare w)) = w3))).
Proof.
  split; [|split].
  - intros e w' t' Hrun Hquiet.
    apply declaration_outcomes in Hrun.
    destruct Hrun as [(_ & _ & _ & Hw)|(alias & mid & Hmid & Hw & Hrest)]; [done|].
    assert (mid = []) as ->.
    { destruct mid as [|ev mid]; [done|]. exfalso.
      inversion Hmid as [|? ? Hev _]; subst.
      destruct Hrest as [(? & _ & _ & ->)|(? & ? & -> & _)];
        rewrite Forall_forall in Hquiet;
        specialize (Hquiet ev); rewrite Hev in Hquiet;
        (assert (true = false) as [=]; apply Hquiet;
         do 3 apply list_elem_of_further; apply list_elem_of_here). }
    rewrite Hw by done.
    destruct Hrest as [(? & _ & Hne & _)|(? & ? & -> & _)]; [done|].
    by rewrite bool_decide_eq_true_2 by apply list_elem_of_here.
  - intros normalizedOptions wn existing Hm Hs1 Hs2 Hn Hfree Hreg Hstatus.
    destruct (validation_conflicts type source target options parent normalizeOptions
                w wn [] normalizedOptions)
      as [msg Hv]; try done.
    { rewrite (reusable_taken type source target parent wn normalizedOptions existing Hreg).
      apply andb_false_iff. right. by apply bool_decide_eq_false_2. }
    exists msg, wn, (validated normalizedOptions).
    rewrite declare_run, bind_run, Hv. split; [done|]. split; [done|].
    by repeat constructor.
  - intros normalizedOptions wn options1 w1 Hm Hs1 Hs2 Hn Hfree Huniq Hbefore.
    apply unique_reusable in Huniq.
    pose proof (declaration_run type source target options parent normalizeOptions
                  construct w wn normalizedOptions Hm Hs1 Hs2 Hn Hfree Huniq) as Hrun.
    rewrite Hbefore in Hrun. cbv beta zeta in Hrun.
    split; [by apply (construct_logged w wn w1 normalizedOptions options1)|].
    split.
    + intros error w2 Hreg Hbuild. rewrite Hrun, Hreg, Hbuild. done.
    + intros association options2 w2 Hmiddle.
      assert (∀ r3 w3,
                (if truthy (get options2 "hooks")
                 then runSync source afterAssociate
                        (hook_context type source target (model_sequelize (wn !!! source))
                           (Some association))
                        options2 w2
                 else (Normal options2, w2)) = (r3, w3) →
                fst (run declare w)
                = match r3 with
                  | Throw e => Throw e
                  | Normal options3 =>
                      if bool_decide
                           (is_Some (model_attributes (w3 !!! source) !! alias_of options3))
                      then Throw (naming_collision w3 source (alias_of options3))
                      else Normal association
                  end
                ∧ fst (snd (run declare w)) = w3) as Hend.
      { intros r3 w3 Hafter. rewrite Hrun.
        destruct (model_associations (w1 !!! source) !! alias_of options1) as [existing|].
        - injection Hmiddle as <- <- <-. rewrite Hafter. by destruct r3.
        - rewrite Hmiddle, Hafter. by destruct r3. }
      split.
      * intros e w3 Hafter. apply (Hend (Throw e) w3 Hafter).
      * intros options3 w3 Hafter Hattr.
        destruct (Hend (Normal options3) w3 Hafter) as [Hr Hw]. split; [|done].
        rewrite Hr. by rewrite bool_decide_eq_true_2.
Qed.

End Outcomes.

(* ================================================================== *)
(** ** The same declaration made twice *)
(* ================================================================== *)

Section Twice.
Context `{Collaborators}.
Variables (type : AssociationStatic) (source target : ModelRef).
Variables (options : Obj) (parent : option Association).





End Twice.

(* ================================================================== *)
(** ** When the hooks are run *)
(* ================================================================== *)

Section HookFlag.
Context `{Collaborators}.
Variables (type : AssociationStatic) (source target : ModelRef).
Variables (options : Obj) (parent : option Association).
Variable normalizeOptions :
  AssociationStatic → Obj → ModelRef → ModelRef → World → Completion Obj * World.
Variable construct : Obj → World → Completion (Association * Obj) * World.

#[local] Abbreviation declare :=
  (defineAssociation type source target options parent normalizeOptions construct).

(** With `hooks` falsy after normalization and a builder that leaves it
    so, the after-hook is not run. *)
Lemma after_hook_not_run (w wn : World) normalizedOptions :
  normalizeOptions type options source target w = (Normal normalizedOptions, wn) →
  truthy (get normalizedOptions "hooks") = false →
  (∀ o w0 association o' w',
     truthy (get o "hooks") = false →
     construct o w0 = (Normal (association, o'), w') →
     truthy (get o' "hooks") = false) →
  EvRunSync afterAssociate ∉ snd (snd (run declare w)).
Proof.
  intros Hn Hoff Hkeeps.
  destruct (validation type source target options parent normalizeOptions (w, []))
    as [[opts|e] st] eqn:Hv.
  - apply validation_Normal_facts in Hv
      as (Hm & Hs1 & Hs2 & wn' & Hn' & Hfree & Hre & ->).
    rewrite Hn in Hn'. injection Hn' as <- <-.
    rewrite (declaration_run type source target options parent normalizeOptions construct
               w wn normalizedOptions) by done.
    rewrite Hoff. cbv beta zeta. unfold hook_log. rewrite Hoff.
    destruct (model_associations (wn !!! source) !! alias_of normalizedOptions)
      as [existing|].
    + cbn [fst snd]. intros Hin. unfold validated in Hin. not_logged Hin.
    + destruct (construct normalizedOptions wn) as [[[association options2]|error] w2]
        eqn:Hbuild.
      * rewrite (Hkeeps _ _ _ _ _ Hoff Hbuild). cbn [fst snd].
        intros Hin. unfold validated in Hin. not_logged Hin.
      * cbn [fst snd]. intros Hin. unfold validated in Hin. not_logged Hin.
  - rewrite declare_run, bind_run, Hv. cbn [snd]. destruct st as [wv tv].
    apply validation_outcomes in Hv as [(? & _ & _ & ->)|[_ Hout]];
      [apply not_elem_of_nil|].
    destruct Hout as [(? & _ & ->)|[(? & ? & _ & ->)|[(? & ? & _ & ->)|(? & [=] & _)]]];
      intros Hin; not_logged Hin.
Qed.

(** X15. The hooks and the builder are called in a fixed order and at most
    once each in any declaration, however it ends: the before-hook, the
    builder, the after-hook. The before-hook is not run when the
    normalized options have `hooks` falsy; the after-hook is run according
    to `hooks` as the options hold it after the builder, so it is not run
    either when the builder leaves a falsy `hooks` falsy. *)
Theorem callbacks_in_order (w : World) :
  sublist (List.filter is_callback (snd (snd (run declare w))))
          [EvRunSync beforeAssociate; EvConstruct; EvRunSync afterAssociate]
  ∧ (∀ normalizedOptions wn,
       normalizeOptions type options source target w = (Normal normalizedOptions, wn) →
       truthy (get normalizedOptions "hooks") = false →
       (EvRunSync beforeAssociate ∉ snd (snd (run declare w)))
       ∧ ((∀ o w0 association o' w',
             truthy (get o "hooks") = false →
             construct o w0 = (Normal (association, o'), w') →
             truthy (get o' "hooks") = false) →
          EvRunSync afterAssociate ∉ snd (snd (run declare w)))).
Proof.
  assert (sublist (List.filter is_callback (snd (snd (run declare w))))
            [EvRunSync beforeAssociate; EvConstruct; EvRunSync afterAssociate]
          ∧ (∀ normalizedOptions wn,
               normalizeOptions type options source target w
               = (Normal normalizedOptions, wn) →
               truthy (get normalizedOptions "hooks") = false →
               EvRunSync beforeAssociate ∉ snd (snd (run declare w)))) as [Horder Hbefore].
  { rewrite declare_run, bind_run.
    destruct (validation type source target options parent normalizeOptions (w, []))
      as [[opts|e] [wv tv]] eqn:Hv.
    - apply validation_Normal_inv in Hv as (wn & Hn & [= -> ->]).
      cbn [app]. rewrite bind_run.
      assert (List.filter is_callback (validated opts) = []) as Hval by done.
      assert (EvRunSync beforeAssociate ∉ validated opts) as Hvno.
      { intros Hin. unfold validated in Hin. not_logged Hin. }
      destruct (construction _ _ _ _ _ _ _) as [[rk|e] [wk tk]] eqn:Hk;
        apply construction_callbacks in Hk as (mid1 & -> & Hmid1 & Hgate).
      + destruct (conclusion _ _ _ _ _ _ _) as [r' [w' t']] eqn:Hc.
        apply conclusion_callbacks in Hc as (tail & -> & Htail & Htno).
        cbn [snd]. split.
        * rewrite !callbacks_app, Hval.
          destruct Htail as [-> | ->];
            destruct Hmid1 as [-> | [-> | [-> | ->]]]; cbn;
            repeat first [apply sublist_nil_l | apply sublist_skip | apply sublist_cons].
        * intros normalizedOptions wn' Hn' Hoff Hin.
          rewrite Hn in Hn'. injection Hn' as <- <-.
          apply elem_of_app in Hin as [Hin|Hin]; [|done].
          apply elem_of_app in Hin as [Hin|Hin]; [done|].
          apply Hgate in Hin. congruence.
      + cbn [snd]. split.
        * rewrite !callbacks_app, Hval.
          destruct Hmid1 as [-> | [-> | [-> | ->]]]; cbn;
            repeat first [apply sublist_nil_l | apply sublist_skip | apply sublist_cons].
        * intros normalizedOptions wn' Hn' Hoff Hin.
          rewrite Hn in Hn'. injection Hn' as <- <-.
          apply elem_of_app in Hin as [Hin|Hin]; [done|].
          apply Hgate in Hin. congruence.
    - cbn [snd].
      pose proof (validation_outcomes _ _ _ _ _ _ _ _ _ _ Hv) as Hout.
      assert (List.filter is_callback tv = [] ∧ EvRunSync beforeAssociate ∉ tv)
        as [-> Hno].
      { destruct Hout as [(? & _ & _ & ->)|[_ Hout]].
        { split; [done|apply not_elem_of_nil]. }
        destruct Hout
          as [(? & _ & ->)|[(? & ? & _ & ->)|[(? & ? & _ & ->)|(? & [=] & _)]]];
          (split; [done|]); intros Hin; not_logged Hin. }
      split; [apply sublist_nil_l|done]. }
  split; [done|].
  intros normalizedOptions wn Hn Hoff. split; [by eapply Hbefore|].
  by apply (after_hook_not_run w wn normalizedOptions).
Qed.

End HookFlag.

(* ================================================================== *)
(** ** Worked outcomes *)
(* ================================================================== *)

Import Example Scenario Hooked.

#[local] Existing Instance quiet.


(** The policy at work on the leg of a composite: declared again for the
    same parent it is reused, declared as another type it is refused. *)
Lemma reuse_policy_witness :
  run (hasMany_posts (Some through)) (after_hasMany_posts (Some through))
  = (Normal (posts_of (Some through)),
     (after_hasMany_posts (Some through),
      [EvNormalizeOptions; EvCheckNamingCollision "posts";
       EvAssertAssociationUnique "posts"; EvCheckNamingCollision "posts"]))
  ∧ ∃ msg,
      run (belongsTo_posts (Some through)) (after_hasMany_posts (Some through))
      = (Throw (mkError AssociationErrorC msg None),
         (after_hasMany_posts (Some through),
          [EvNormalizeOptions; EvCheckNamingCollision "posts";
           EvAssertAssociationUnique "posts"])).
Proof.
  split.
  - refine (proj2 (proj2 (proj1 (reuse_policy HasMany user post {[ "as" := JStr "posts" ]}
                                   (Some through) normalize
                                   (construct_association 1 HasMany user post
                                      (Some through))
                                   (after_hasMany_posts (Some through))
                                   (after_hasMany_posts (Some through))
                                   posts_options (posts_of (Some through))
                                   _ _ _ _ _ _) _)) _).
    + reflexivity.
    + eexists. reflexivity.
    + eexists. reflexivity.
    + vm_compute. reflexivity.
    + vm_compute. reflexivity.
    + vm_compute. reflexivity.
    + split; vm_compute; reflexivity.
    + reflexivity.
  - refine (proj2 (reuse_policy BelongsTo user post {[ "as" := JStr "posts" ]}
                     (Some through) normalize
                     (construct_association 2 BelongsTo user post (Some through))
                     (after_hasMany_posts (Some through))
                     (after_hasMany_posts (Some through))
                     posts_options_single (posts_of (Some through))
                     _ _ _ _ _ _) _).
    + reflexivity.
    + eexists. reflexivity.
    + eexists. reflexivity.
    + vm_compute. reflexivity.
    + vm_compute. reflexivity.
    + vm_compute. reflexivity.
    + intros [Hstatus _]. vm_compute in Hstatus. discriminate.
Defined.

(** A second, incompatible declaration under a taken alias:
    `User.belongsTo(Post, { as: 'posts' })` after `User.hasMany(Post, { as:
    'posts' })` throws before any hook or builder is called and leaves the
    store as it was. And a declaration that throws at its second collision
    check, a hook having added the attribute `posts`, leaves the store as
    the builder left it. *)
Lemma failure_before_callbacks_witness :
  after_hasMany_posts None
  = (if bool_decide (EvNormalizeOptions
                     ∈ [EvNormalizeOptions; EvCheckNamingCollision "posts";
                        EvAssertAssociationUnique "posts"])
     then snd (normalize BelongsTo {[ "as" := JStr "posts" ]} user post
                 (after_hasMany_posts None))
     else after_hasMany_posts None)
  ∧ (∃ msg w' t',
       run (belongsTo_posts None) (after_hasMany_posts None)
       = (Throw (mkError AssociationErrorC msg None), (w', t'))
       ∧ model_associations (w' !!! user)
         = model_associations (after_hasMany_posts None !!! user)
       ∧ Forall (λ ev, is_callback ev = false) t')
  ∧ fst (run (hasMany_posts_hooked (H:=with_attribute_hook)) store)
    = Throw (naming_collision after_attribute_hook_and_builder user "posts")
  ∧ fst (snd (run (hasMany_posts_hooked (H:=with_attribute_hook)) store))
    = after_attribute_hook_and_builder.
Proof.
  split; [|split].
  - refine (proj1 (failure_before_callbacks_keeps_registry BelongsTo user post
                     {[ "as" := JStr "posts" ]} None normalize
                     (construct_association 2 BelongsTo user post None)
                     (after_hasMany_posts None))
                  (mkError AssociationErrorC (MsgSameName "posts" "User") None)
                  (after_hasMany_posts None)
                  [EvNormalizeOptions; EvCheckNamingCollision "posts";
                   EvAssertAssociationUnique "posts"] _ _).
    + vm_compute. reflexivity.
    + repeat constructor.
  - refine (proj1 (proj2 (failure_before_callbacks_keeps_registry BelongsTo user post
                            {[ "as" := JStr "posts" ]} None normalize
                            (construct_association 2 BelongsTo user post None)
                            (after_hasMany_posts None)))
                  posts_options_single (after_hasMany_posts None) (posts_of None)
                  _ _ _ _ _ _ _).
    + reflexivity.
    + eexists. reflexivity.
    + eexists. reflexivity.
    + vm_compute. reflexivity.
    + vm_compute. reflexivity.
    + vm_compute. reflexivity.
    + vm_compute. discriminate.
  - refine (proj2
              (proj2 (proj2 (proj2 (proj2 (failure_before_callbacks_keeps_registry
                                             (H:=with_attribute_hook) HasMany user post
                                             {[ "as" := JStr "posts"; "hooks" := JBool true ]}
                                             None normalize
                                             (construct_association 1 HasMany user post None)
                                             store))
                              posts_options_hooked store posts_options_hooked
                              after_attribute_hook _ _ _ _ _ _ _))
                 posts_hooked posts_options_hooked after_attribute_hook_and_builder _)
              posts_options_hooked after_attribute_hook_and_builder _ _).
    + reflexivity.
    + eexists. reflexivity.
    + eexists. reflexivity.
    + vm_compute. reflexivity.
    + vm_compute. reflexivity.
    + vm_compute. reflexivity.
    + vm_compute. reflexivity.
    + vm_compute. reflexivity.
    + vm_compute. reflexivity.
    + eexists. vm_compute. reflexivity.
Defined.

(** The two checks at work: `User.hasMany(Post, { as: 'email' })` throws
    at the first, `email` being an attribute of User; and with a hook that
    adds the attribute `posts`, `User.hasMany(Post, { as: 'posts', hooks:
    true })` passes the first check, runs the hooks and the builder, runs
    the second check on `posts` and throws there. *)
Lemma collision_checked_witness :
  run hasMany_email store
  = (Throw (naming_collision store user "email"),
     (store, [EvNormalizeOptions; EvCheckNamingCollision "email"]))
  ∧ List.filter is_check
      (snd (snd (run (hasMany_posts_hooked (H:=with_attribute_hook)) store)))
    = [EvCheckNamingCollision "posts"; EvCheckNamingCollision "posts"]
  ∧ fst (snd (run (hasMany_posts_hooked (H:=with_attribute_hook)) store))
    = after_attribute_hook_and_builder
  ∧ fst (run (hasMany_posts_hooked (H:=with_attribute_hook)) store)
    = Throw (mkError ErrorC (MsgNamingCollision "posts" "User") None).
Proof.
  split.
  - refine (proj1 (collision_checked_before_and_after HasMany user post
                     {[ "as" := JStr "email" ]} None normalize
                     (construct_association 1 HasMany user post None) store)
                  email_options store _ _ _ _ _).
    + reflexivity.
    + eexists. reflexivity.
    + eexists. reflexivity.
    + vm_compute. reflexivity.
    + eexists. vm_compute. reflexivity.
  - refine (proj2 (proj2 (collision_checked_before_and_after (H:=with_attribute_hook)
                            HasMany user post
                            {[ "as" := JStr "posts"; "hooks" := JBool true ]} None normalize
                            (construct_association 1 HasMany user post None) store))
                  posts_options_hooked store posts_options_hooked after_attribute_hook
                  posts_hooked posts_options_hooked after_attribute_hook_and_builder
                  posts_options_hooked after_attribute_hook_and_builder
                  _ _ _ _ _ _ _ _ _).
    + reflexivity.
    + eexists. reflexivity.
    + eexists. reflexivity.
    + vm_compute. reflexivity.
    + vm_compute. reflexivity.
    + vm_compute. reflexivity.
    + vm_compute. reflexivity.
    + vm_compute. reflexivity.
    + vm_compute. reflexivity.
Defined.


